(** * The ACL link manager shim (system/main/shim/acl.cc)

    A shallow embedding of the shadow lists, the connection history ring,
    the per-handle link object, the event router and the command gateway
    of [shim::legacy::Acl], followed by the properties of the
    specification that concern them.

    Conventions.
    - A [uintN_t] is a [Z] whose wrap-around is written out where the code
      narrows a value.
    - [std::unordered_set] is a [gset], [std::map] a [gmap], [std::queue]
      and [std::deque] a [list] with the front at the head.
    - A member function is a computation in the monad [M S] over the
      object's state [S]; it returns a value, the new state and the
      effects it performed, in program order, or stops at a fault (a
      failed assertion, a null dereference) with the state and effects
      reached so far. *)

From Stdlib Require Import ZArith List Lia.
From stdpp Require Import base gmap sets list strings.
From stdpp Require Import sorting.

Local Open Scope Z_scope.

(** ** Addresses *)

(** [hci::Address]: [std::array<uint8_t, kLength> address], kLength = 6. *)
Record Address := MkAddress {
  a0 : Z; a1 : Z; a2 : Z; a3 : Z; a4 : Z; a5 : Z
}.

(** [address.data()[i]] for i in 0..5. *)
Definition data (a : Address) (i : nat) : Z :=
  match i with
  | 0%nat => a0 a | 1%nat => a1 a | 2%nat => a2 a
  | 3%nat => a3 a | 4%nat => a4 a | _ => a5 a
  end.

(** [hci::AddressType]. *)
Inductive AddressType :=
| PUBLIC_DEVICE_ADDRESS
| RANDOM_DEVICE_ADDRESS
| PUBLIC_IDENTITY_ADDRESS
| RANDOM_IDENTITY_ADDRESS.

(** [hci::FilterAcceptListAddressType]. *)
Inductive FilterAcceptListAddressType := PUBLIC | RANDOM.

(** [hci::AddressWithType]. *)
Record AddressWithType := MkAddressWithType {
  GetAddress : Address;
  GetAddressType : AddressType
}.

(** [ConnectAddressWithType]: the key of the shadow accept list; its
    [operator==] compares both fields. *)
Record ConnectAddressWithType := MkConnectAddressWithType {
  address_ : Address;
  type_ : FilterAcceptListAddressType
}.

#[global] Instance Address_eq_dec : EqDecision Address.
Proof. solve_decision. Defined.

#[global] Instance Address_countable : Countable Address.
Proof.
  refine (inj_countable'
            (fun a => (a0 a, a1 a, a2 a, a3 a, a4 a, a5 a))
            (fun t => match t with
                      | (x0, x1, x2, x3, x4, x5) => MkAddress x0 x1 x2 x3 x4 x5
                      end) _).
  intros []; reflexivity.
Defined.

#[global] Instance AddressType_eq_dec : EqDecision AddressType.
Proof. solve_decision. Defined.

#[global] Instance AddressType_countable : Countable AddressType.
Proof.
  refine (inj_countable'
            (fun t => match t with
                      | PUBLIC_DEVICE_ADDRESS => 0%nat
                      | RANDOM_DEVICE_ADDRESS => 1%nat
                      | PUBLIC_IDENTITY_ADDRESS => 2%nat
                      | RANDOM_IDENTITY_ADDRESS => 3%nat
                      end)
            (fun n => match n with
                      | 0%nat => PUBLIC_DEVICE_ADDRESS
                      | 1%nat => RANDOM_DEVICE_ADDRESS
                      | 2%nat => PUBLIC_IDENTITY_ADDRESS
                      | _ => RANDOM_IDENTITY_ADDRESS
                      end) _).
  intros []; reflexivity.
Defined.

#[global] Instance FilterAcceptListAddressType_eq_dec :
  EqDecision FilterAcceptListAddressType.
Proof. solve_decision. Defined.

#[global] Instance FilterAcceptListAddressType_countable :
  Countable FilterAcceptListAddressType.
Proof.
  refine (inj_countable'
            (fun t => match t with PUBLIC => false | RANDOM => true end)
            (fun b : bool => if b then RANDOM else PUBLIC) _).
  intros []; reflexivity.
Defined.

#[global] Instance AddressWithType_eq_dec : EqDecision AddressWithType.
Proof. solve_decision. Defined.

#[global] Instance AddressWithType_countable : Countable AddressWithType.
Proof.
  refine (inj_countable'
            (fun a => (GetAddress a, GetAddressType a))
            (fun p => MkAddressWithType (fst p) (snd p)) _).
  intros []; reflexivity.
Defined.

#[global] Instance ConnectAddressWithType_eq_dec :
  EqDecision ConnectAddressWithType.
Proof. solve_decision. Defined.

#[global] Instance ConnectAddressWithType_countable :
  Countable ConnectAddressWithType.
Proof.
  refine (inj_countable'
            (fun a => (address_ a, type_ a))
            (fun p => MkConnectAddressWithType (fst p) (snd p)) _).
  intros []; reflexivity.
Defined.

(** [IsRpa]: a random device address whose sixth byte has its two top
    bits equal to 01. *)
Definition IsRpa (address_with_type : AddressWithType) : bool :=
  bool_decide (GetAddressType address_with_type = RANDOM_DEVICE_ADDRESS)
  && (Z.land (data (GetAddress address_with_type) 5) 0xc0 =? 0x40).

(** ** Effects *)

Inductive LogLevel := DEBUG | INFO | WARN | ERROR | FATAL.

(** [hci::Role], [hci::ErrorCode] and [hci::DisconnectReason]: the
    enumerators the shim names, and any other code of the enumeration. *)
Inductive Role := CENTRAL | PERIPHERAL.

#[global] Instance Role_eq_dec : EqDecision Role.
Proof. solve_decision. Defined.

Inductive ErrorCode :=
| SUCCESS
| OtherErrorCode (code : Z).

Inductive DisconnectReason :=
| REMOTE_USER_TERMINATED_CONNECTION
| OtherDisconnectReason (code : Z).

(** An argument of a format string. *)
Inductive LogArg :=
| ArgNum (n : Z)
| ArgTime (t : Z)
| ArgAddress (a : Address)
| ArgAddressWithType (a : AddressWithType)
| ArgErrorCode (e : ErrorCode)
| ArgText (s : string).

(** The legacy types of the upper stack and the conversions to them are
    declared in main/shim/helpers.h and hci/address_with_type.h, which
    are not part of the sources at hand: they are parameters of the
    development. *)
Class Helpers := {
  tHCI_STATUS : Type;
  tHCI_ROLE : Type;
  RawAddress : Type;
  tBLE_BD_ADDR : Type;
  ToLegacyHciErrorCode : ErrorCode -> tHCI_STATUS;
  ToLegacyRole : Role -> tHCI_ROLE;
  ToRawAddress : Address -> RawAddress;
  ToLegacyAddressWithType : AddressWithType -> tBLE_BD_ADDR;
  ToFilterAcceptListAddressType : AddressType -> FilterAcceptListAddressType
}.

Section AclShim.

Context {helpers : Helpers}.

(** [BT_HDR]: the legacy buffer; only its payload bytes are modelled. *)
Record BT_HDR := MkBT_HDR { bt_hdr_data : list Z }.

(** A closure bound with [base::BindOnce] and handed to
    [do_in_main_thread]: the upper callback and its plain-value
    arguments. *)
Inductive Callback :=
| send_data_upwards (p_buf : BT_HDR)
| classic_on_connected (bd_addr : RawAddress) (handle : Z)
                       (enc_mode : bool) (locally_initiated : bool)
| classic_on_disconnected (status : tHCI_STATUS) (handle : Z)
                          (reason : tHCI_STATUS)
| le_on_disconnected (status : tHCI_STATUS) (handle : Z)
                     (reason : tHCI_STATUS)
| le_on_connected (legacy_address_with_type : tBLE_BD_ADDR) (handle : Z)
                  (role : tHCI_ROLE)
                  (conn_interval conn_latency conn_timeout : Z)
                  (local_rpa peer_rpa : RawAddress)
                  (peer_addr_type : AddressType)
                  (can_read_discoverable_characteristics : bool)
| classic_on_read_remote_supported_features_complete (handle features : Z)
| classic_on_read_remote_extended_features_complete
    (handle page_number max_page_number features : Z).

(** A call into the lower layer: the queue end and the connection object
    of the link with the given handle, or the ACL manager. *)
Inductive LowerCall :=
| Call_RegisterDequeue (handle : Z)
| Call_UnregisterDequeue (handle : Z)
| Call_RegisterEnqueue (handle : Z)
| Call_UnregisterEnqueue (handle : Z)
| Call_RegisterCallbacks (handle : Z)
| Call_Disconnect (handle : Z) (reason : DisconnectReason)
| Call_ReadRemoteVersionInformation (handle : Z)
| Call_ReadRemoteSupportedFeatures (handle : Z)
| Call_ReadRemoteExtendedFeatures (handle : Z) (page_number : Z)
| Call_CreateLeConnection (address_with_type : AddressWithType)
                          (is_direct : bool)
| Call_CancelLeConnect (address_with_type : AddressWithType).

(** [ConnectionDescriptor] with its two subclasses. *)
Inductive RemoteOfDescriptor :=
| ClassicRemote (remote_address_ : Address)
| LeRemote (remote_address_with_type_ : AddressWithType).

Record ConnectionDescriptor := MkConnectionDescriptor {
  cd_remote : RemoteOfDescriptor;
  cd_creation_time_ : Z;
  cd_teardown_time_ : Z;
  cd_handle_ : Z;
  cd_is_locally_initiated_ : bool;
  cd_disconnect_reason_ : ErrorCode
}.

(** What a member function does besides changing its object, in program
    order.  The changes of the link registry and of the history ring are
    recorded as well, so that their position among the posts can be
    stated. *)
Inductive Effect :=
| Log (level : LogLevel) (fmt : string) (args : list LogArg)
| BtmLogHistoryRaw (tag : string) (bd_addr : RawAddress)
                   (msg extra : string) (extra_args : list LogArg)
| BtmLogHistoryBle (tag : string) (ble_bd_addr : tBLE_BD_ADDR)
                   (msg extra : string) (extra_args : list LogArg)
| Post (cb : Callback)
| Lower (call : LowerCall)
| OsiFree (p_buf : BT_HDR)
| PromiseSetValue (value : bool)
| RegistryErase (handle : Z)
| HistoryPush (descriptor : ConnectionDescriptor).

(** Why a member function stopped early. *)
Inductive Fault :=
| AssertFailed (fmt : string) (args : list LogArg)
| NullDereference
| FrontOfEmptyQueue.

Inductive result (S A : Type) :=
| Done (a : A) (s : S) (t : list Effect)
| Stopped (f : Fault) (s : S) (t : list Effect).
Arguments Done {S A} a s t.
Arguments Stopped {S A} f s t.

Definition M (S A : Type) : Type := S -> result S A.

Definition ret {S A} (a : A) : M S A := fun s => Done a s [].

(** The effects [t1] happened before those of [r]. *)
Definition after_effects {S A} (t1 : list Effect) (r : result S A)
  : result S A :=
  match r with
  | Done a s t2 => Done a s (t1 ++ t2)
  | Stopped f s t2 => Stopped f s (t1 ++ t2)
  end.

Definition bind {S A B} (m : M S A) (k : A -> M S B) : M S B :=
  fun s =>
    match m s with
    | Done a s1 t1 => after_effects t1 (k a s1)
    | Stopped f s1 t1 => Stopped f s1 t1
    end.

Definition get {S} : M S S := fun s => Done s s [].
Definition modify {S} (f : S -> S) : M S unit := fun s => Done tt (f s) [].
Definition tell {S} (e : Effect) : M S unit := fun s => Done tt s [e].
Definition stop {S A} (f : Fault) : M S A := fun s => Stopped f s [].

(** Runs a member function of a sub-object. *)
Definition zoom {S T A} (proj : S -> T) (upd : T -> S -> S) (m : M T A)
  : M S A :=
  fun s =>
    match m (proj s) with
    | Done a t' tr => Done a (upd t' s) tr
    | Stopped f t' tr => Stopped f (upd t' s) tr
    end.

Definition trace_of {S A} (r : result S A) : list Effect :=
  match r with Done _ _ t => t | Stopped _ _ t => t end.

Definition state_of {S A} (r : result S A) : S :=
  match r with Done _ s _ => s | Stopped _ s _ => s end.

Definition completed {S A} (r : result S A) : bool :=
  match r with Done _ _ _ => true | Stopped _ _ _ => false end.

Definition value_of {S A} (r : result S A) : option A :=
  match r with Done a _ _ => Some a | Stopped _ _ _ => None end.

Declare Scope acl_scope.
Delimit Scope acl_scope with acl.
Notation "x <- m ;; k" := (bind m (fun x => k))
  (at level 20, m at level 99, k at level 200, only parsing) : acl_scope.
Notation "m ;; k" := (bind m (fun _ => k))
  (at level 100, k at level 200, only parsing, right associativity)
  : acl_scope.
Local Open Scope acl_scope.

(** [log::error], [log::warn], ...: a line of the log. *)
Definition log {S} (level : LogLevel) (fmt : string) (args : list LogArg)
  : M S unit := tell (Log level fmt args).

(** [ASSERT_LOG(condition, fmt, ...)]: the macro is defined in os/log.h,
    outside the sources at hand, and is taken as the assertion its name
    and its uses say it is: when the condition is false the message is
    logged as fatal and the process aborts. *)
Definition ASSERT_LOG {S} (condition : bool) (fmt : string)
  (args : list LogArg) : M S unit :=
  if condition then ret tt
  else (log FATAL fmt args ;; stop (AssertFailed fmt args)).

(** [TRY_POSTING_ON_MAIN(cb, ...)]: [present] tells whether the function
    pointer [cb] is non-null. *)
Definition TRY_POSTING_ON_MAIN {S} (present : bool) (cb : Callback)
  : M S unit :=
  if present then tell (Post cb)
  else log WARN "Dropping ACL event with no callback" [].

(** ** Shadow lists *)

Record ShadowAcceptlist := MkShadowAcceptlist {
  max_acceptlist_size_ : Z;
  acceptlist_set_ : gset ConnectAddressWithType
}.

(** The constructor of [ConnectAddressWithType]. *)
Definition ConnectAddressWithType_of (address_with_type : AddressWithType)
  : ConnectAddressWithType :=
  MkConnectAddressWithType
    (GetAddress address_with_type)
    (ToFilterAcceptListAddressType (GetAddressType address_with_type)).

Definition set_acceptlist_set_ (s : gset ConnectAddressWithType)
  (l : ShadowAcceptlist) : ShadowAcceptlist :=
  MkShadowAcceptlist (max_acceptlist_size_ l) s.

(** [acceptlist_set_.size()]. *)
Definition acceptlist_size (l : ShadowAcceptlist) : Z :=
  Z.of_nat (size (acceptlist_set_ l)).

Definition ShadowAcceptlist_Add (address_with_type : AddressWithType)
  : M ShadowAcceptlist bool :=
  l <- get ;;
  if acceptlist_size l =? max_acceptlist_size_ l then
    log ERROR "Acceptlist is full size:{}" [ArgNum (acceptlist_size l)] ;;
    ret false
  else
    let key := ConnectAddressWithType_of address_with_type in
    let inserted := negb (bool_decide (key ∈ acceptlist_set_ l)) in
    modify (set_acceptlist_set_ ({[ key ]} ∪ acceptlist_set_ l)) ;;
    (if inserted then ret tt
     else log WARN "Attempted to add duplicate le address to acceptlist:{}"
                   [ArgAddressWithType address_with_type]) ;;
    ret true.

Definition ShadowAcceptlist_Remove (address_with_type : AddressWithType)
  : M ShadowAcceptlist bool :=
  l <- get ;;
  let key := ConnectAddressWithType_of address_with_type in
  if negb (bool_decide (key ∈ acceptlist_set_ l)) then
    log WARN "Unknown device being removed from acceptlist:{}"
             [ArgAddressWithType address_with_type] ;;
    ret false
  else
    modify (set_acceptlist_set_ (acceptlist_set_ l ∖ {[ key ]})) ;;
    ret true.

Definition ShadowAcceptlist_GetCopy (l : ShadowAcceptlist)
  : gset ConnectAddressWithType := acceptlist_set_ l.

Definition ShadowAcceptlist_IsFull (l : ShadowAcceptlist) : bool :=
  acceptlist_size l =? max_acceptlist_size_ l.

Definition ShadowAcceptlist_Clear : M ShadowAcceptlist unit :=
  modify (set_acceptlist_set_ ∅).

Definition ShadowAcceptlist_GetMaxSize (l : ShadowAcceptlist) : Z :=
  max_acceptlist_size_ l.

Record ShadowAddressResolutionList := MkShadowAddressResolutionList {
  max_address_resolution_size_ : Z;
  address_resolution_set_ : gset AddressWithType
}.

Definition set_address_resolution_set_ (s : gset AddressWithType)
  (l : ShadowAddressResolutionList) : ShadowAddressResolutionList :=
  MkShadowAddressResolutionList (max_address_resolution_size_ l) s.

Definition ShadowAddressResolutionList_Size
  (l : ShadowAddressResolutionList) : Z :=
  Z.of_nat (size (address_resolution_set_ l)).

Definition ShadowAddressResolutionList_Add
  (address_with_type : AddressWithType)
  : M ShadowAddressResolutionList bool :=
  l <- get ;;
  if ShadowAddressResolutionList_Size l =? max_address_resolution_size_ l
  then
    log ERROR "Address Resolution is full size:{}"
              [ArgNum (ShadowAddressResolutionList_Size l)] ;;
    ret false
  else
    let inserted :=
      negb (bool_decide (address_with_type ∈ address_resolution_set_ l)) in
    modify (set_address_resolution_set_
              ({[ address_with_type ]} ∪ address_resolution_set_ l)) ;;
    (if inserted then ret tt
     else log WARN
            "Attempted to add duplicate le address to address_resolution:{}"
            [ArgAddressWithType address_with_type]) ;;
    ret true.

Definition ShadowAddressResolutionList_Remove
  (address_with_type : AddressWithType)
  : M ShadowAddressResolutionList bool :=
  l <- get ;;
  if negb (bool_decide (address_with_type ∈ address_resolution_set_ l)) then
    log WARN "Unknown device being removed from address_resolution:{}"
             [ArgAddressWithType address_with_type] ;;
    ret false
  else
    modify (set_address_resolution_set_
              (address_resolution_set_ l ∖ {[ address_with_type ]})) ;;
    ret true.

Definition ShadowAddressResolutionList_IsFull
  (l : ShadowAddressResolutionList) : bool :=
  ShadowAddressResolutionList_Size l =? max_address_resolution_size_ l.

Definition ShadowAddressResolutionList_Clear
  : M ShadowAddressResolutionList unit :=
  modify (set_address_resolution_set_ ∅).

(** ** Connection history ring *)

(** [FixedQueue<T>]: the front of [queue_] is the head of the list. *)
Record FixedQueue (T : Type) := MkFixedQueue {
  max_size_ : Z;
  fq_queue_ : list T
}.
Arguments MkFixedQueue {T} _ _.
Arguments max_size_ {T} _.
Arguments fq_queue_ {T} _.

(** [FixedQueue::Push]; [pop_front] on an empty deque is undefined. *)
Definition FixedQueue_Push {T} (element : T) : M (FixedQueue T) unit :=
  q <- get ;;
  (if Z.of_nat (length (fq_queue_ q)) =? max_size_ q then
     match fq_queue_ q with
     | [] => stop FrontOfEmptyQueue
     | _ :: rest => modify (fun q => MkFixedQueue (max_size_ q) rest)
     end
   else ret tt) ;;
  modify (fun q => MkFixedQueue (max_size_ q) (fq_queue_ q ++ [element])).

Definition kConnectionHistorySize : Z := 40.

(** ** The link object *)

Definition uint8 (z : Z) : Z := z mod 2 ^ 8.
Definition uint16 (z : Z) : Z := z mod 2 ^ 16.

(** [LowByte] and [HighByte] take a [uint16_t] and return a [uint8_t]. *)
Definition LowByte (val : Z) : Z := uint8 (Z.land (uint16 val) 0xff).
Definition HighByte (val : Z) : Z := uint8 (Z.shiftr (uint16 val) 8).

(** [packet::RawBuilder] and the inbound packet view: the payload bytes. *)
Definition RawBuilder : Type := list Z.

(** Modelled from the spec: the lower queue end
    ([hci::acl_manager::AclConnection::QueueUpEnd], outside the sources
    at hand).  The enqueue and the dequeue registration are each present
    or absent; registering makes one present, unregistering makes it
    absent; [TryDequeue] hands out the inbound packets in arrival
    order. *)
Record QueueUpEnd := MkQueueUpEnd {
  enqueue_registration : bool;
  dequeue_registration : bool;
  inbound : list RawBuilder
}.

Record ShimAclConnection := MkShimAclConnection {
  handle_ : Z;
  send_data_upwards_ : bool;  (* false: the function pointer is null *)
  queue_up_end_ : QueueUpEnd;
  creation_time_ : Z;
  queue_ : list RawBuilder;
  is_enqueue_registered_ : bool;
  is_disconnected_ : bool
}.

Definition set_queue_up_end_ (q : QueueUpEnd) (c : ShimAclConnection) :=
  MkShimAclConnection (handle_ c) (send_data_upwards_ c) q
    (creation_time_ c) (queue_ c) (is_enqueue_registered_ c)
    (is_disconnected_ c).

Definition set_queue_ (q : list RawBuilder) (c : ShimAclConnection) :=
  MkShimAclConnection (handle_ c) (send_data_upwards_ c) (queue_up_end_ c)
    (creation_time_ c) q (is_enqueue_registered_ c) (is_disconnected_ c).

Definition set_is_enqueue_registered_ (b : bool) (c : ShimAclConnection) :=
  MkShimAclConnection (handle_ c) (send_data_upwards_ c) (queue_up_end_ c)
    (creation_time_ c) (queue_ c) b (is_disconnected_ c).

Definition set_is_disconnected_ (b : bool) (c : ShimAclConnection) :=
  MkShimAclConnection (handle_ c) (send_data_upwards_ c) (queue_up_end_ c)
    (creation_time_ c) (queue_ c) (is_enqueue_registered_ c) b.

(** The calls [queue_up_end_->...] of a link. *)
Definition queue_up_end_RegisterDequeue : M ShimAclConnection unit :=
  c <- get ;;
  modify (set_queue_up_end_
            (MkQueueUpEnd (enqueue_registration (queue_up_end_ c)) true
                          (inbound (queue_up_end_ c)))) ;;
  tell (Lower (Call_RegisterDequeue (handle_ c))).

Definition queue_up_end_UnregisterDequeue : M ShimAclConnection unit :=
  c <- get ;;
  modify (set_queue_up_end_
            (MkQueueUpEnd (enqueue_registration (queue_up_end_ c)) false
                          (inbound (queue_up_end_ c)))) ;;
  tell (Lower (Call_UnregisterDequeue (handle_ c))).

Definition queue_up_end_RegisterEnqueue : M ShimAclConnection unit :=
  c <- get ;;
  modify (set_queue_up_end_
            (MkQueueUpEnd true (dequeue_registration (queue_up_end_ c))
                          (inbound (queue_up_end_ c)))) ;;
  tell (Lower (Call_RegisterEnqueue (handle_ c))).

Definition queue_up_end_UnregisterEnqueue : M ShimAclConnection unit :=
  c <- get ;;
  modify (set_queue_up_end_
            (MkQueueUpEnd false (dequeue_registration (queue_up_end_ c))
                          (inbound (queue_up_end_ c)))) ;;
  tell (Lower (Call_UnregisterEnqueue (handle_ c))).

(** [TryDequeue] returns a null pointer when nothing has arrived. *)
Definition queue_up_end_TryDequeue : M ShimAclConnection (option RawBuilder) :=
  c <- get ;;
  match inbound (queue_up_end_ c) with
  | [] => ret None
  | packet :: rest =>
      modify (set_queue_up_end_
                (MkQueueUpEnd (enqueue_registration (queue_up_end_ c))
                              (dequeue_registration (queue_up_end_ c))
                              rest)) ;;
      ret (Some packet)
  end.

(** The constructor of [ShimAclConnection], which registers the dequeue
    callback. *)
Definition ShimAclConnection_new (handle : Z) (send_data_upwards : bool)
  (queue_up_end : QueueUpEnd) (creation_time : Z)
  : result ShimAclConnection unit :=
  queue_up_end_RegisterDequeue
    (MkShimAclConnection handle send_data_upwards queue_up_end creation_time
                         [] false false).

Definition ShimAclConnection_RegisterEnqueue : M ShimAclConnection unit :=
  c <- get ;;
  ASSERT_LOG (negb (is_disconnected_ c))
    "Unable to send data over disconnected channel handle:%04x"
    [ArgNum (handle_ c)] ;;
  if is_enqueue_registered_ c then ret tt
  else
    modify (set_is_enqueue_registered_ true) ;;
    queue_up_end_RegisterEnqueue.

Definition ShimAclConnection_UnregisterEnqueue : M ShimAclConnection unit :=
  c <- get ;;
  if negb (is_enqueue_registered_ c) then ret tt
  else
    modify (set_is_enqueue_registered_ false) ;;
    queue_up_end_UnregisterEnqueue.

Definition EnqueuePacket (packet : RawBuilder) : M ShimAclConnection unit :=
  modify (fun c => set_queue_ (queue_ c ++ [packet]) c) ;;
  ShimAclConnection_RegisterEnqueue.

(** [handle_enqueue]; [front] on an empty queue is undefined. *)
Definition handle_enqueue : M ShimAclConnection RawBuilder :=
  c <- get ;;
  match queue_ c with
  | [] => stop FrontOfEmptyQueue
  | packet :: rest =>
      modify (set_queue_ rest) ;;
      (match rest with
       | [] => ShimAclConnection_UnregisterEnqueue
       | _ :: _ => ret tt
       end) ;;
      ret packet
  end.

(** Modelled from the spec: [MakeLegacyBtHdrPacket] (main/shim/helpers.h,
    outside the sources at hand) builds the legacy buffer, whose bytes
    are the preamble followed by the raw payload. *)
Definition MakeLegacyBtHdrPacket (packet : RawBuilder) (preamble : list Z)
  : BT_HDR := MkBT_HDR (preamble ++ packet).

(** [data_ready_callback]. [do_in_main_thread_ok] is the answer of
    [do_in_main_thread]: whether it returned BT_STATUS_SUCCESS.  The
    allocation of the buffer is taken to succeed. *)
Definition data_ready_callback (do_in_main_thread_ok : bool)
  : M ShimAclConnection unit :=
  dequeued <- queue_up_end_TryDequeue ;;
  match dequeued with
  | None => stop NullDereference
  | Some packet =>
      c <- get ;;
      let length := uint16 (Z.of_nat (length packet)) in
      let preamble :=
        [LowByte (handle_ c); HighByte (handle_ c);
         LowByte length; HighByte length] in
      let p_buf := MakeLegacyBtHdrPacket packet preamble in
      if negb (send_data_upwards_ c) then
        log WARN "Dropping ACL data with no callback" [] ;;
        tell (OsiFree p_buf)
      else
        tell (Post (send_data_upwards p_buf)) ;;
        if negb do_in_main_thread_ok then tell (OsiFree p_buf) else ret tt
  end.

Definition ShimAclConnection_Disconnect : M ShimAclConnection unit :=
  c <- get ;;
  if is_disconnected_ c then
    log ERROR
      "Cannot disconnect ACL multiple times handle:{:04x} creation_time:{}"
      [ArgNum (handle_ c); ArgTime (creation_time_ c)]
  else
    modify (set_is_disconnected_ true) ;;
    ShimAclConnection_UnregisterEnqueue ;;
    queue_up_end_UnregisterDequeue ;;
    match queue_ c with
    | [] => ret tt
    | _ :: _ =>
        log WARN
          "ACL disconnect with non-empty queue handle:{:04x} stranded_pkts::{}"
          [ArgNum (handle_ c); ArgNum (Z.of_nat (length (queue_ c)))]
    end.

Definition ShimAclConnection_Shutdown : M ShimAclConnection unit :=
  ShimAclConnection_Disconnect ;;
  c <- get ;;
  log INFO "Shutdown and disconnect ACL connection handle:0x{:04x}"
      [ArgNum (handle_ c)].

(** The destructor [~ShimAclConnection]. *)
Definition ShimAclConnection_delete : M ShimAclConnection unit :=
  c <- get ;;
  (match queue_ c with
   | [] => ret tt
   | _ :: _ =>
       log ERROR
         "ACL cleaned up with non-empty queue handle:0x{:04x} stranded_pkts:{}"
         [ArgNum (handle_ c); ArgNum (Z.of_nat (length (queue_ c)))]
   end) ;;
  ASSERT_LOG (is_disconnected_ c)
    "Shim Acl was not properly disconnected handle:0x%04x"
    [ArgNum (handle_ c)].

(** ** The classic link *)

(** [acl_classic_link_interface_t]: for each function pointer the shim
    posts to, whether it is non-null. *)
Record acl_classic_link_interface_t := MkAclClassicLinkInterface {
  on_read_remote_supported_features_complete : bool;
  on_read_remote_extended_features_complete : bool
}.

(** What the shim reads of [hci::acl_manager::ClassicAclConnection]. *)
Record ClassicAclConnection := MkClassicAclConnection {
  classic_GetHandle : Z;
  classic_GetAddress : Address;
  classic_locally_initiated_ : bool;
  classic_GetAclQueueEnd : QueueUpEnd
}.

(** [ClassicShimAclConnection].  The base object holds the live state of
    the queue end that [connection_] owns. *)
Record ClassicShimAclConnection := MkClassicShimAclConnection {
  classic_base : ShimAclConnection;
  classic_interface_ : acl_classic_link_interface_t;
  classic_connection_ : ClassicAclConnection
}.

Definition set_classic_base (b : ShimAclConnection)
  (c : ClassicShimAclConnection) : ClassicShimAclConnection :=
  MkClassicShimAclConnection b (classic_interface_ c) (classic_connection_ c).

(** A member function of the base class, run on a classic link. *)
Definition classic_super {A} (m : M ShimAclConnection A)
  : M ClassicShimAclConnection A := zoom classic_base set_classic_base m.

(** [ReadRemoteExtendedFeatures] takes a [uint8_t] page number. *)
Definition connection_ReadRemoteExtendedFeatures (page_number : Z)
  : M ClassicShimAclConnection unit :=
  c <- get ;;
  tell (Lower (Call_ReadRemoteExtendedFeatures (handle_ (classic_base c))
                                               (uint8 page_number))).

Definition OnReadRemoteSupportedFeaturesComplete (features : Z)
  : M ClassicShimAclConnection unit :=
  c <- get ;;
  TRY_POSTING_ON_MAIN
    (on_read_remote_supported_features_complete (classic_interface_ c))
    (classic_on_read_remote_supported_features_complete
       (handle_ (classic_base c)) features) ;;
  if Z.testbit features 63 then
    connection_ReadRemoteExtendedFeatures 1
  else
    log DEBUG "Device does not support extended features" [].

Definition OnReadRemoteExtendedFeaturesComplete
  (page_number max_page_number features : Z)
  : M ClassicShimAclConnection unit :=
  c <- get ;;
  TRY_POSTING_ON_MAIN
    (on_read_remote_extended_features_complete (classic_interface_ c))
    (classic_on_read_remote_extended_features_complete
       (handle_ (classic_base c)) page_number max_page_number features) ;;
  if (page_number =? 0) && negb (Z.testbit features 63) then
    log DEBUG "Device does not support extended features" []
  else if negb (max_page_number =? 0)
          && negb (page_number =? max_page_number) then
    connection_ReadRemoteExtendedFeatures (page_number + 1)
  else ret tt.

Definition classic_InitiateDisconnect (reason : DisconnectReason)
  : M ClassicShimAclConnection unit :=
  c <- get ;;
  tell (Lower (Call_Disconnect (handle_ (classic_base c)) reason)).

Definition classic_GetRemoteAddress (c : ClassicShimAclConnection)
  : Address := classic_GetAddress (classic_connection_ c).

Definition classic_IsLocallyInitiated (c : ClassicShimAclConnection)
  : bool := classic_locally_initiated_ (classic_connection_ c).

(** ** The LE link *)

(** [hci::acl_manager::RoleSpecificData]. *)
Inductive RoleSpecificData :=
| DataAsCentral
| DataAsPeripheral (advertising_set_id : option Z)
                   (connected_to_discoverable : bool)
| DataAsUninitializedPeripheral.

(** What the shim reads of [hci::acl_manager::LeAclConnection]. *)
Record LeAclConnection := MkLeAclConnection {
  le_GetHandle : Z;
  le_GetRemoteAddress : AddressWithType;
  peer_address_with_type_ : AddressWithType;
  le_GetRole : Role;
  le_locally_initiated_ : bool;
  interval_ : Z;
  latency_ : Z;
  supervision_timeout_ : Z;
  local_resolvable_private_address_ : Address;
  peer_resolvable_private_address_ : Address;
  GetRoleSpecificData : RoleSpecificData;
  le_IsInFilterAcceptList : bool;
  le_GetAclQueueEnd : QueueUpEnd
}.

Record LeShimAclConnection := MkLeShimAclConnection {
  le_base : ShimAclConnection;
  le_connection_ : LeAclConnection
}.

Definition set_le_base (b : ShimAclConnection) (c : LeShimAclConnection)
  : LeShimAclConnection := MkLeShimAclConnection b (le_connection_ c).

Definition le_super {A} (m : M ShimAclConnection A)
  : M LeShimAclConnection A := zoom le_base set_le_base m.

Definition le_InitiateDisconnect (reason : DisconnectReason)
  : M LeShimAclConnection unit :=
  c <- get ;;
  tell (Lower (Call_Disconnect (handle_ (le_base c)) reason)).

Definition GetRemoteAddressWithType (c : LeShimAclConnection)
  : AddressWithType := le_GetRemoteAddress (le_connection_ c).

Definition le_IsLocallyInitiated (c : LeShimAclConnection) : bool :=
  le_locally_initiated_ (le_connection_ c).

Definition IsInFilterAcceptList (c : LeShimAclConnection) : bool :=
  le_IsInFilterAcceptList (le_connection_ c).

(** [ReadRemoteControllerInformation] of the LE link does nothing. *)
Definition le_ReadRemoteControllerInformation : M LeShimAclConnection unit :=
  ret tt.

(** ** The manager *)

(** [acl_interface_t]: whether each function pointer is non-null, and the
    per-link interface handed to the classic links. *)
Record acl_interface_t := MkAclInterface {
  on_send_data_upwards : bool;
  on_packets_completed : bool;
  connection_classic_on_connected : bool;
  connection_classic_on_failed : bool;
  connection_classic_on_disconnected : bool;
  connection_le_on_connected : bool;
  connection_le_on_failed : bool;
  connection_le_on_disconnected : bool;
  link_classic : acl_classic_link_interface_t
}.

(** [ValidateAclInterface]: the assertions of the constructor of [Acl]
    all hold. *)
Definition ValidateAclInterface (acl_interface : acl_interface_t) : bool :=
  on_send_data_upwards acl_interface
  && on_packets_completed acl_interface
  && connection_classic_on_connected acl_interface
  && connection_classic_on_failed acl_interface
  && connection_classic_on_disconnected acl_interface
  && connection_le_on_connected acl_interface
  && connection_le_on_failed acl_interface
  && connection_le_on_disconnected acl_interface.

(** [shim::legacy::Acl] together with its [impl]. *)
Record Acl := MkAcl {
  acl_interface_ : acl_interface_t;
  handle_to_classic_connection_map_ : gmap Z ClassicShimAclConnection;
  handle_to_le_connection_map_ : gmap Z LeShimAclConnection;
  connection_history_ : FixedQueue ConnectionDescriptor;
  shadow_acceptlist_ : ShadowAcceptlist;
  shadow_address_resolution_list_ : ShadowAddressResolutionList
}.

Definition set_handle_to_classic_connection_map_
  (m : gmap Z ClassicShimAclConnection) (a : Acl) : Acl :=
  MkAcl (acl_interface_ a) m (handle_to_le_connection_map_ a)
        (connection_history_ a) (shadow_acceptlist_ a)
        (shadow_address_resolution_list_ a).

Definition set_handle_to_le_connection_map_
  (m : gmap Z LeShimAclConnection) (a : Acl) : Acl :=
  MkAcl (acl_interface_ a) (handle_to_classic_connection_map_ a) m
        (connection_history_ a) (shadow_acceptlist_ a)
        (shadow_address_resolution_list_ a).

Definition set_connection_history_ (h : FixedQueue ConnectionDescriptor)
  (a : Acl) : Acl :=
  MkAcl (acl_interface_ a) (handle_to_classic_connection_map_ a)
        (handle_to_le_connection_map_ a) h (shadow_acceptlist_ a)
        (shadow_address_resolution_list_ a).

Definition set_shadow_acceptlist_ (l : ShadowAcceptlist) (a : Acl) : Acl :=
  MkAcl (acl_interface_ a) (handle_to_classic_connection_map_ a)
        (handle_to_le_connection_map_ a) (connection_history_ a) l
        (shadow_address_resolution_list_ a).

Definition set_shadow_address_resolution_list_
  (l : ShadowAddressResolutionList) (a : Acl) : Acl :=
  MkAcl (acl_interface_ a) (handle_to_classic_connection_map_ a)
        (handle_to_le_connection_map_ a) (connection_history_ a)
        (shadow_acceptlist_ a) l.

(** The constructor of [Acl::impl] with the validated interface. *)
Definition Acl_new (acl_interface : acl_interface_t)
  (max_acceptlist_size max_address_resolution_size : Z) : Acl :=
  MkAcl acl_interface ∅ ∅
        (MkFixedQueue kConnectionHistorySize [])
        (MkShadowAcceptlist (uint8 max_acceptlist_size) ∅)
        (MkShadowAddressResolutionList (uint8 max_address_resolution_size) ∅).

(** [pimpl_->shadow_acceptlist_.f(...)]. *)
Definition on_shadow_acceptlist {A} (m : M ShadowAcceptlist A) : M Acl A :=
  zoom shadow_acceptlist_ set_shadow_acceptlist_ m.

Definition on_connection_history {A}
  (m : M (FixedQueue ConnectionDescriptor) A) : M Acl A :=
  zoom connection_history_ set_connection_history_ m.

(** [handle_to_classic_connection_map_[handle]->f(...)]: with no link at
    [handle], [operator[]] yields a null pointer. *)
Definition on_classic_link {A} (handle : Z)
  (m : M ClassicShimAclConnection A) : M Acl A :=
  a <- get ;;
  match handle_to_classic_connection_map_ a !! handle with
  | None => stop NullDereference
  | Some link =>
      zoom (fun _ => link)
           (fun link' a =>
              set_handle_to_classic_connection_map_
                (<[handle := link']> (handle_to_classic_connection_map_ a)) a)
           m
  end.

Definition on_le_link {A} (handle : Z) (m : M LeShimAclConnection A)
  : M Acl A :=
  a <- get ;;
  match handle_to_le_connection_map_ a !! handle with
  | None => stop NullDereference
  | Some link =>
      zoom (fun _ => link)
           (fun link' a =>
              set_handle_to_le_connection_map_
                (<[handle := link']> (handle_to_le_connection_map_ a)) a)
           m
  end.

(** [handle_to_classic_connection_map_.erase(handle)]: the link, when
    there is one, is destroyed and leaves the map. *)
Definition erase_classic (handle : Z) : M Acl unit :=
  a <- get ;;
  match handle_to_classic_connection_map_ a !! handle with
  | None => ret tt
  | Some _ =>
      on_classic_link handle (classic_super ShimAclConnection_delete) ;;
      modify (fun a => set_handle_to_classic_connection_map_
                         (delete handle (handle_to_classic_connection_map_ a))
                         a) ;;
      tell (RegistryErase handle)
  end.

Definition erase_le (handle : Z) : M Acl unit :=
  a <- get ;;
  match handle_to_le_connection_map_ a !! handle with
  | None => ret tt
  | Some _ =>
      on_le_link handle (le_super ShimAclConnection_delete) ;;
      modify (fun a => set_handle_to_le_connection_map_
                         (delete handle (handle_to_le_connection_map_ a)) a) ;;
      tell (RegistryErase handle)
  end.

(** [handle_to_classic_connection_map_[handle]->getter()]: a member
    function that only reads the link. *)
Definition classic_link_get {A} (handle : Z)
  (getter : ClassicShimAclConnection -> A) : M Acl A :=
  a <- get ;;
  match handle_to_classic_connection_map_ a !! handle with
  | None => stop NullDereference
  | Some link => ret (getter link)
  end.

Definition le_link_get {A} (handle : Z) (getter : LeShimAclConnection -> A)
  : M Acl A :=
  a <- get ;;
  match handle_to_le_connection_map_ a !! handle with
  | None => stop NullDereference
  | Some link => ret (getter link)
  end.

(** An object built outside of the state and the effects of its
    constructor. *)
Definition construct {S T} (init : T) (ctor : M T unit) : M S T :=
  fun s =>
    match ctor init with
    | Done _ t tr => Done t s tr
    | Stopped f _ tr => Stopped f s tr
    end.

(** The destruction of an object that is not part of the state. *)
Definition destroy {S T} (object : T) (dtor : M T unit) : M S unit :=
  fun s =>
    match dtor object with
    | Done _ _ tr => Done tt s tr
    | Stopped f _ tr => Stopped f s tr
    end.

(** [handle_to_classic_connection_map_.emplace(handle,
    std::make_unique<ClassicShimAclConnection>(...))]: the link is built;
    it enters the map when the map has no link at [handle], and is
    destroyed otherwise. *)
Definition emplace_classic (handle : Z) (connection : ClassicAclConnection)
  (creation_time : Z) : M Acl unit :=
  a <- get ;;
  link <- construct
            (MkClassicShimAclConnection
               (MkShimAclConnection (classic_GetHandle connection)
                  (on_send_data_upwards (acl_interface_ a))
                  (classic_GetAclQueueEnd connection) creation_time
                  [] false false)
               (link_classic (acl_interface_ a)) connection)
            (classic_super queue_up_end_RegisterDequeue) ;;
  match handle_to_classic_connection_map_ a !! handle with
  | None =>
      modify (set_handle_to_classic_connection_map_
                (<[handle := link]> (handle_to_classic_connection_map_ a)))
  | Some _ => destroy link (classic_super ShimAclConnection_delete)
  end.

Definition emplace_le (handle : Z) (connection : LeAclConnection)
  (creation_time : Z) : M Acl unit :=
  a <- get ;;
  link <- construct
            (MkLeShimAclConnection
               (MkShimAclConnection (le_GetHandle connection)
                  (on_send_data_upwards (acl_interface_ a))
                  (le_GetAclQueueEnd connection) creation_time
                  [] false false)
               connection)
            (le_super queue_up_end_RegisterDequeue) ;;
  match handle_to_le_connection_map_ a !! handle with
  | None =>
      modify (set_handle_to_le_connection_map_
                (<[handle := link]> (handle_to_le_connection_map_ a)))
  | Some _ => destroy link (le_super ShimAclConnection_delete)
  end.

Definition kBtmLogTag : string := "ACL".

(** [connection_history_.Push(...)]. *)
Definition push_history (descriptor : ConnectionDescriptor) : M Acl unit :=
  on_connection_history (FixedQueue_Push descriptor) ;;
  tell (HistoryPush descriptor).

(** [Acl::OnClassicLinkDisconnected]; [now] is the reading of the system
    clock. *)
Definition OnClassicLinkDisconnected (handle : Z) (reason : ErrorCode)
  (now : Z) : M Acl unit :=
  remote_address <- classic_link_get handle classic_GetRemoteAddress ;;
  creation_time <-
    classic_link_get handle (fun c => creation_time_ (classic_base c)) ;;
  is_locally_initiated <-
    classic_link_get handle classic_IsLocallyInitiated ;;
  let teardown_time := now in
  erase_classic handle ;;
  a <- get ;;
  TRY_POSTING_ON_MAIN
    (connection_classic_on_disconnected (acl_interface_ a))
    (classic_on_disconnected (ToLegacyHciErrorCode SUCCESS) handle
                             (ToLegacyHciErrorCode reason)) ;;
  log DEBUG "Disconnected classic link remote:{} handle:{} reason:{}"
      [ArgAddress remote_address; ArgNum handle; ArgErrorCode reason] ;;
  tell (BtmLogHistoryRaw kBtmLogTag (ToRawAddress remote_address)
          "Disconnected" "classic reason:%s" [ArgErrorCode reason]) ;;
  push_history
    (MkConnectionDescriptor (ClassicRemote remote_address) creation_time
       teardown_time handle is_locally_initiated reason).

(** [Acl::OnLeLinkDisconnected]. *)
Definition OnLeLinkDisconnected (handle : Z) (reason : ErrorCode) (now : Z)
  : M Acl unit :=
  remote_address_with_type <- le_link_get handle GetRemoteAddressWithType ;;
  creation_time <- le_link_get handle (fun c => creation_time_ (le_base c)) ;;
  is_locally_initiated <- le_link_get handle le_IsLocallyInitiated ;;
  let teardown_time := now in
  erase_le handle ;;
  a <- get ;;
  TRY_POSTING_ON_MAIN
    (connection_le_on_disconnected (acl_interface_ a))
    (le_on_disconnected (ToLegacyHciErrorCode SUCCESS) handle
                        (ToLegacyHciErrorCode reason)) ;;
  log DEBUG "Disconnected le link remote:{} handle:{} reason:{}"
      [ArgAddressWithType remote_address_with_type; ArgNum handle;
       ArgErrorCode reason] ;;
  tell (BtmLogHistoryBle kBtmLogTag
          (ToLegacyAddressWithType remote_address_with_type)
          "Disconnected" "Le reason:%s" [ArgErrorCode reason]) ;;
  push_history
    (MkConnectionDescriptor (LeRemote remote_address_with_type)
       creation_time teardown_time handle is_locally_initiated reason).

(** [ClassicShimAclConnection::OnDisconnection] of the link registered at
    [handle]: the disconnected event of the lower layer.  [on_disconnect_]
    is bound to [Acl::OnClassicLinkDisconnected]. *)
Definition classic_OnDisconnection (handle : Z) (reason : ErrorCode)
  (now : Z) : M Acl unit :=
  on_classic_link handle (classic_super ShimAclConnection_Disconnect) ;;
  this_handle <- classic_link_get handle (fun c => handle_ (classic_base c)) ;;
  OnClassicLinkDisconnected this_handle reason now.

(** [LeShimAclConnection::OnDisconnection]. *)
Definition le_OnDisconnection (handle : Z) (reason : ErrorCode) (now : Z)
  : M Acl unit :=
  on_le_link handle (le_super ShimAclConnection_Disconnect) ;;
  this_handle <- le_link_get handle (fun c => handle_ (le_base c)) ;;
  OnLeLinkDisconnected this_handle reason now.

(** [ClassicShimAclConnection::ReadRemoteControllerInformation]. *)
Definition classic_ReadRemoteControllerInformation
  : M ClassicShimAclConnection unit :=
  c <- get ;;
  tell (Lower (Call_ReadRemoteVersionInformation (handle_ (classic_base c)))) ;;
  tell (Lower (Call_ReadRemoteSupportedFeatures (handle_ (classic_base c)))).

Definition classic_RegisterCallbacks : M ClassicShimAclConnection unit :=
  c <- get ;;
  tell (Lower (Call_RegisterCallbacks (handle_ (classic_base c)))).

Definition le_RegisterCallbacks : M LeShimAclConnection unit :=
  c <- get ;;
  tell (Lower (Call_RegisterCallbacks (handle_ (le_base c)))).

(** [Acl::OnConnectSuccess]: the classic connect-success event. *)
Definition OnConnectSuccess (connection : ClassicAclConnection) (now : Z)
  : M Acl unit :=
  let handle := classic_GetHandle connection in
  let locally_initiated := classic_locally_initiated_ connection in
  let remote_address := classic_GetAddress connection in
  let bd_addr := ToRawAddress remote_address in
  emplace_classic handle connection now ;;
  on_classic_link handle classic_RegisterCallbacks ;;
  on_classic_link handle classic_ReadRemoteControllerInformation ;;
  a <- get ;;
  TRY_POSTING_ON_MAIN
    (connection_classic_on_connected (acl_interface_ a))
    (classic_on_connected bd_addr handle false locally_initiated) ;;
  log DEBUG "Connection successful classic remote:{} handle:{} initiator:{}"
      [ArgAddress remote_address; ArgNum handle;
       ArgText (if locally_initiated then "local" else "remote")] ;;
  tell (BtmLogHistoryRaw kBtmLogTag (ToRawAddress remote_address)
          "Connection successful"
          (if locally_initiated then "classic Local initiated"
           else "classic Remote initiated") []).

(** [Acl::OnLeConnectSuccess]: the LE connect-success event. *)
Definition OnLeConnectSuccess (address_with_type : AddressWithType)
  (connection : LeAclConnection) (now : Z) : M Acl unit :=
  let handle := le_GetHandle connection in
  let peer_address_with_type := peer_address_with_type_ connection in
  let connection_role := le_GetRole connection in
  let locally_initiated := le_locally_initiated_ connection in
  let conn_interval := interval_ connection in
  let conn_latency := latency_ connection in
  let conn_timeout := supervision_timeout_ connection in
  let local_rpa :=
    ToRawAddress (local_resolvable_private_address_ connection) in
  let peer_rpa :=
    ToRawAddress (peer_resolvable_private_address_ connection) in
  let peer_addr_type := GetAddressType (peer_address_with_type_ connection) in
  let can_read_discoverable_characteristics :=
    match GetRoleSpecificData connection with
    | DataAsPeripheral _ connected_to_discoverable => connected_to_discoverable
    | _ => true
    end in
  emplace_le handle connection now ;;
  on_le_link handle le_RegisterCallbacks ;;
  (if IsRpa address_with_type then
     log DEBUG "Connection address is rpa:{} identity_addr:{}"
         [ArgAddressWithType address_with_type;
          ArgAddressWithType peer_address_with_type] ;;
     on_shadow_acceptlist (ShadowAcceptlist_Remove peer_address_with_type)
   else
     log DEBUG "Connection address is not rpa addr:{}"
         [ArgAddressWithType address_with_type] ;;
     on_shadow_acceptlist (ShadowAcceptlist_Remove address_with_type)) ;;
  in_filter_accept_list <- le_link_get handle IsInFilterAcceptList ;;
  if negb in_filter_accept_list && bool_decide (connection_role = CENTRAL)
  then
    on_le_link handle
      (le_InitiateDisconnect REMOTE_USER_TERMINATED_CONNECTION) ;;
    log INFO "Disconnected ACL after connection canceled" [] ;;
    tell (BtmLogHistoryBle kBtmLogTag
            (ToLegacyAddressWithType address_with_type)
            "Connection canceled" "Le" [])
  else
    on_le_link handle le_ReadRemoteControllerInformation ;;
    let legacy_address_with_type :=
      ToLegacyAddressWithType address_with_type in
    a <- get ;;
    TRY_POSTING_ON_MAIN
      (connection_le_on_connected (acl_interface_ a))
      (le_on_connected legacy_address_with_type handle
         (ToLegacyRole connection_role) conn_interval conn_latency
         conn_timeout local_rpa peer_rpa peer_addr_type
         can_read_discoverable_characteristics) ;;
    log DEBUG "Connection successful le remote:{} handle:{} initiator:{}"
        [ArgAddressWithType address_with_type; ArgNum handle;
         ArgText (if locally_initiated then "local" else "remote")] ;;
    tell (BtmLogHistoryBle kBtmLogTag
            (ToLegacyAddressWithType address_with_type)
            "Connection successful" "Le" []).

(** [Acl::impl::accept_le_connection_from]; the promise is the caller's. *)
Definition accept_le_connection_from (address_with_type : AddressWithType)
  (is_direct : bool) : M Acl unit :=
  a <- get ;;
  if ShadowAcceptlist_IsFull (shadow_acceptlist_ a) then
    log ERROR "Acceptlist is full preventing new Le connection" [] ;;
    tell (PromiseSetValue false)
  else
    on_shadow_acceptlist (ShadowAcceptlist_Add address_with_type) ;;
    tell (PromiseSetValue true) ;;
    tell (Lower (Call_CreateLeConnection address_with_type is_direct)) ;;
    log DEBUG "Allow Le connection from remote:{}"
        [ArgAddressWithType address_with_type] ;;
    tell (BtmLogHistoryBle kBtmLogTag
            (ToLegacyAddressWithType address_with_type)
            "Allow connection from" "Le" []).

(** [Acl::impl::ignore_le_connection_from]. *)
Definition ignore_le_connection_from (address_with_type : AddressWithType)
  : M Acl unit :=
  on_shadow_acceptlist (ShadowAcceptlist_Remove address_with_type) ;;
  tell (Lower (Call_CancelLeConnect address_with_type)) ;;
  log DEBUG "Ignore Le connection from remote:{}"
      [ArgAddressWithType address_with_type] ;;
  tell (BtmLogHistoryBle kBtmLogTag
          (ToLegacyAddressWithType address_with_type)
          "Ignore connection from" "Le" []).

(** The link that [OnLeConnectSuccess] builds from the connection: the
    object after its constructor has registered the dequeue callback. *)
Definition new_le_link (a : Acl) (connection : LeAclConnection) (now : Z)
  : LeShimAclConnection :=
  MkLeShimAclConnection
    (MkShimAclConnection (le_GetHandle connection)
       (on_send_data_upwards (acl_interface_ a))
       (MkQueueUpEnd (enqueue_registration (le_GetAclQueueEnd connection))
                     true (inbound (le_GetAclQueueEnd connection)))
       now [] false false)
    connection.

(** ** Observations on a run *)

(** The closures posted to the main thread, the calls into the lower
    layer and the values given to the promise, each in program order. *)
Definition posts (t : list Effect) : list Callback :=
  omap (fun e => match e with Post cb => Some cb | _ => None end) t.

Definition lower_calls (t : list Effect) : list LowerCall :=
  omap (fun e => match e with Lower call => Some call | _ => None end) t.

Definition promise_values (t : list Effect) : list bool :=
  omap (fun e => match e with PromiseSetValue b => Some b | _ => None end) t.

(** The pages asked of the remote device with
    [ReadRemoteExtendedFeatures]. *)
Definition requested_pages (t : list Effect) : list Z :=
  omap (fun e => match e with
                 | Lower (Call_ReadRemoteExtendedFeatures _ page) => Some page
                 | _ => None
                 end) t.

Definition is_on_disconnected_post (handle : Z) (e : Effect) : bool :=
  match e with
  | Post (classic_on_disconnected _ h _) => h =? handle
  | Post (le_on_disconnected _ h _) => h =? handle
  | _ => false
  end.

Definition is_history_push (handle : Z) (e : Effect) : bool :=
  match e with
  | HistoryPush descriptor => cd_handle_ descriptor =? handle
  | _ => false
  end.

Definition is_registry_erase (handle : Z) (e : Effect) : bool :=
  match e with
  | RegistryErase h => h =? handle
  | _ => false
  end.

(** A log line or a call into the lower layer. *)
Definition quiet (e : Effect) : bool :=
  match e with
  | Log _ _ _ | Lower _ => true
  | _ => false
  end.

(** How many effects of [t] satisfy [p]. *)
Fixpoint occurrences (p : Effect -> bool) (t : list Effect) : nat :=
  match t with
  | [] => 0%nat
  | e :: t' => ((if p e then 1 else 0) + occurrences p t')%nat
  end.

(** Every effect of [t] that satisfies [q] comes after one that
    satisfies [p]. *)
Fixpoint only_after (p q : Effect -> bool) (t : list Effect) : bool :=
  match t with
  | [] => true
  | e :: t' => if p e then true else negb (q e) && only_after p q t'
  end.

(** The order of the disconnected event in the words of the specification:
    one post of [on_disconnected] for the handle, after the push of its
    history entry. *)
Definition posted_once_after_history_push (handle : Z) (t : list Effect)
  : Prop :=
  occurrences (is_on_disconnected_post handle) t = 1%nat
  /\ only_after (is_history_push handle) (is_on_disconnected_post handle) t
     = true.

(** The order the handlers follow: the link leaves the registry, then
    [on_disconnected] is posted once, then the history entry is pushed
    once. *)
Definition posted_once_before_history_push (handle : Z) (t : list Effect)
  : Prop :=
  occurrences (is_on_disconnected_post handle) t = 1%nat
  /\ occurrences (is_history_push handle) t = 1%nat
  /\ only_after (is_registry_erase handle) (is_on_disconnected_post handle) t
     = true
  /\ only_after (is_on_disconnected_post handle) (is_history_push handle) t
     = true.

(** The page the specification has requested after an extended-features
    page completes: none when page 0 has bit 63 clear, else the next page
    while the page is below the maximum. *)
Definition next_page_in_spec (page_number max_page_number features : Z)
  : list Z :=
  if (page_number =? 0) && negb (Z.testbit features 63) then []
  else if page_number <? max_page_number then [page_number + 1]
  else [].

(** The operations on the outbound side of a link. *)
Inductive LinkOp :=
| OpEnqueuePacket (packet : RawBuilder)
| OpHandleEnqueue
| OpDisconnect.

Definition run_op (op : LinkOp) : M ShimAclConnection unit :=
  match op with
  | OpEnqueuePacket packet => EnqueuePacket packet
  | OpHandleEnqueue => handle_enqueue ;; ret tt
  | OpDisconnect => ShimAclConnection_Disconnect
  end.

Fixpoint run_ops (ops : list LinkOp) : M ShimAclConnection unit :=
  match ops with
  | [] => ret tt
  | op :: ops' => run_op op ;; run_ops ops'
  end.

(** The enqueue registration is present exactly when the outbound queue
    is non-empty and the link is not disconnected; the link's own latch
    agrees with the lower queue. *)
Definition enqueue_registration_ok (c : ShimAclConnection) : bool :=
  eqb (enqueue_registration (queue_up_end_ c))
      (match queue_ c with [] => false | _ :: _ => true end
       && negb (is_disconnected_ c))
  && eqb (is_enqueue_registered_ c) (enqueue_registration (queue_up_end_ c)).

(** [add(x); remove(x)] on each shadow list. *)
Definition ShadowAcceptlist_add_remove (x : AddressWithType)
  : M ShadowAcceptlist bool :=
  ShadowAcceptlist_Add x ;; ShadowAcceptlist_Remove x.

Definition ShadowAddressResolutionList_add_remove (x : AddressWithType)
  : M ShadowAddressResolutionList bool :=
  ShadowAddressResolutionList_Add x ;; ShadowAddressResolutionList_Remove x.

End AclShim.

(** ** Concrete instances *)

(** The conversions instantiated for the examples: the legacy values are
    the values themselves, and the identity forms of an address type map
    to the accept-list type of their kind. *)
Definition example_helpers : Helpers := {|
  tHCI_STATUS := ErrorCode;
  tHCI_ROLE := Role;
  RawAddress := Address;
  tBLE_BD_ADDR := AddressWithType;
  ToLegacyHciErrorCode := fun e => e;
  ToLegacyRole := fun r => r;
  ToRawAddress := fun a => a;
  ToLegacyAddressWithType := fun a => a;
  ToFilterAcceptListAddressType := fun t =>
    match t with
    | PUBLIC_DEVICE_ADDRESS | PUBLIC_IDENTITY_ADDRESS => PUBLIC
    | RANDOM_DEVICE_ADDRESS | RANDOM_IDENTITY_ADDRESS => RANDOM
    end
|}.

(** The peer A with a public address, and a peer seen under a
    resolvable private address whose identity is a public identity
    address. *)
Definition example_A : AddressWithType :=
  MkAddressWithType (MkAddress 0x11 0x22 0x33 0x44 0x55 0x66)
                    PUBLIC_DEVICE_ADDRESS.

Definition example_rpa : AddressWithType :=
  MkAddressWithType (MkAddress 0x01 0x02 0x03 0x04 0x05 0x4a)
                    RANDOM_DEVICE_ADDRESS.

Definition example_identity : AddressWithType :=
  MkAddressWithType (MkAddress 0xa1 0xa2 0xa3 0xa4 0xa5 0xa6)
                    PUBLIC_IDENTITY_ADDRESS.

Definition example_interface : acl_interface_t :=
  MkAclInterface true true true true true true true true
                 (MkAclClassicLinkInterface true true).

Definition example_queue_end : QueueUpEnd := MkQueueUpEnd false false [].

(** The connection of scenario S1: handle 0x0040, central, in the accept
    list. *)
Definition example_le_connection : LeAclConnection :=
  MkLeAclConnection 0x0040 example_A example_A CENTRAL true 24 0 400
    (MkAddress 0 0 0 0 0 0) (MkAddress 0 0 0 0 0 0) DataAsCentral true
    example_queue_end.

(** A connection that completes after its accept-list entry was removed,
    seen under the resolvable private address. *)
Definition example_raced_connection : LeAclConnection :=
  MkLeAclConnection 0x0041 example_rpa example_identity CENTRAL true 24 0 400
    (MkAddress 0 0 0 0 0 0) (MkAddress 0x01 0x02 0x03 0x04 0x05 0x4a)
    DataAsCentral false example_queue_end.

Definition example_classic_connection : ClassicAclConnection :=
  MkClassicAclConnection 0x0010 (MkAddress 0x11 0x22 0x33 0x44 0x55 0x66)
    true example_queue_end.

Definition example_acl : Acl := Acl_new example_interface 5 5.

(** The manager after [accept_le] of the identity address. *)
Definition example_acl_accepting : Acl :=
  state_of (accept_le_connection_from (helpers := example_helpers)
              example_identity true example_acl).

(** The manager of scenario S1 after the connect-success event. *)
Definition example_acl_with_le_link : Acl :=
  state_of (OnLeConnectSuccess (helpers := example_helpers)
              example_A example_le_connection 1000
              (state_of (accept_le_connection_from
                           (helpers := example_helpers) example_A true
                           example_acl))).

Definition example_acl_with_classic_link : Acl :=
  state_of (OnConnectSuccess (helpers := example_helpers)
              example_classic_connection 500 example_acl).

(** The link of scenario S6, with one inbound packet waiting. *)
Definition example_link : ShimAclConnection :=
  MkShimAclConnection 0x0123 true
    (MkQueueUpEnd false true [[0xaa; 0xbb; 0xcc; 0xdd; 0xee]])
    1000 [] false false.

(** The link of scenario S6 with one inbound packet of 65541 bytes, five
    more than a 16-bit length counts. *)
Definition example_long_packet : RawBuilder := replicate (Z.to_nat 65541) 0.

Definition example_link_with_long_packet : ShimAclConnection :=
  MkShimAclConnection 0x0123 true
    (MkQueueUpEnd false true [example_long_packet])
    1000 [] false false.

Definition example_disconnected_link : ShimAclConnection :=
  MkShimAclConnection 0x0123 true (MkQueueUpEnd false false [])
    1000 [] false true.

Definition example_classic_link : ClassicShimAclConnection :=
  MkClassicShimAclConnection
    (MkShimAclConnection 0x0010 true (MkQueueUpEnd false true [])
                         500 [] false false)
    (MkAclClassicLinkInterface true true) example_classic_connection.

(** Shadow lists of capacity 1 that hold the entry of A. *)
Definition example_full_acceptlist : ShadowAcceptlist :=
  MkShadowAcceptlist 1
    {[ ConnectAddressWithType_of (helpers := example_helpers) example_A ]}.

Definition example_full_resolution_list : ShadowAddressResolutionList :=
  MkShadowAddressResolutionList 1 {[ example_A ]}.

(** Shadow lists of capacity 5 that hold the entry of A. *)
Definition example_acceptlist_with_A : ShadowAcceptlist :=
  MkShadowAcceptlist 5
    {[ ConnectAddressWithType_of (helpers := example_helpers) example_A ]}.

Definition example_resolution_list_with_A : ShadowAddressResolutionList :=
  MkShadowAddressResolutionList 5 {[ example_A ]}.

Arguments Done {helpers S A} a s t.
Arguments Stopped {helpers S A} f s t.
Arguments MkFixedQueue {T} max_size_ fq_queue_.
Arguments max_size_ {T} f.
Arguments fq_queue_ {T} f.

(** * Further functions of the shim *)

Section AclShimFurther.

Context {helpers : Helpers}.

Declare Scope acl_scope.
Notation "x <- m ;; k" := (bind m (fun x => k))
  (at level 20, m at level 99, k at level 200, only parsing) : acl_scope.
Notation "m ;; k" := (bind m (fun _ => k))
  (at level 100, k at level 200, only parsing, right associativity)
  : acl_scope.
Local Open Scope acl_scope.

(** ** Runs of the history ring and of the shadow lists *)

(** [Push] of each element in turn. *)
Fixpoint FixedQueue_push_all {T} (elements : list T)
  : M (FixedQueue T) unit :=
  match elements with
  | [] => ret tt
  | element :: rest => FixedQueue_Push element ;; FixedQueue_push_all rest
  end.

(** The last [n] elements of a list. *)
Definition keep_last {T} (n : nat) (l : list T) : list T :=
  drop (length l - n) l.

(** The calls a user makes on a shadow list. *)
Inductive ShadowOp :=
| ShadowAdd (address_with_type : AddressWithType)
| ShadowRemove (address_with_type : AddressWithType)
| ShadowClear.

Definition run_acceptlist_op (op : ShadowOp) : M ShadowAcceptlist unit :=
  match op with
  | ShadowAdd x => ShadowAcceptlist_Add x ;; ret tt
  | ShadowRemove x => ShadowAcceptlist_Remove x ;; ret tt
  | ShadowClear => ShadowAcceptlist_Clear
  end.

Fixpoint run_acceptlist_ops (ops : list ShadowOp) : M ShadowAcceptlist unit :=
  match ops with
  | [] => ret tt
  | op :: ops' => run_acceptlist_op op ;; run_acceptlist_ops ops'
  end.

Definition run_resolution_op (op : ShadowOp)
  : M ShadowAddressResolutionList unit :=
  match op with
  | ShadowAdd x => ShadowAddressResolutionList_Add x ;; ret tt
  | ShadowRemove x => ShadowAddressResolutionList_Remove x ;; ret tt
  | ShadowClear => ShadowAddressResolutionList_Clear
  end.

Fixpoint run_resolution_ops (ops : list ShadowOp)
  : M ShadowAddressResolutionList unit :=
  match ops with
  | [] => ret tt
  | op :: ops' => run_resolution_op op ;; run_resolution_ops ops'
  end.

(** [remove(x); add(x)] on each shadow list. *)
Definition ShadowAcceptlist_remove_add (x : AddressWithType)
  : M ShadowAcceptlist bool :=
  ShadowAcceptlist_Remove x ;; ShadowAcceptlist_Add x.

Definition ShadowAddressResolutionList_remove_add (x : AddressWithType)
  : M ShadowAddressResolutionList bool :=
  ShadowAddressResolutionList_Remove x ;; ShadowAddressResolutionList_Add x.

(** [accept_le] followed by [ignore_le] of the same address. *)
Definition accept_then_ignore (address_with_type : AddressWithType)
  (is_direct : bool) : M Acl unit :=
  accept_le_connection_from address_with_type is_direct ;;
  ignore_le_connection_from address_with_type.

(** ** Outbound data *)

(** [impl::IsClassicAcl] and [impl::IsLeAcl]. *)
Definition IsClassicAcl (handle : Z) (a : Acl) : bool :=
  bool_decide (is_Some (handle_to_classic_connection_map_ a !! handle)).

Definition IsLeAcl (handle : Z) (a : Acl) : bool :=
  bool_decide (is_Some (handle_to_le_connection_map_ a !! handle)).

(** [impl::EnqueueClassicPacket]. *)
Definition EnqueueClassicPacket (handle : Z) (packet : RawBuilder)
  : M Acl unit :=
  a <- get ;;
  ASSERT_LOG (IsClassicAcl handle a) "handle %d is not a classic connection"
             [ArgNum handle] ;;
  on_classic_link handle (classic_super (EnqueuePacket packet)).

(** [impl::EnqueueLePacket]. *)
Definition EnqueueLePacket (handle : Z) (packet : RawBuilder) : M Acl unit :=
  a <- get ;;
  ASSERT_LOG (IsLeAcl handle a) "handle %d is not a LE connection"
             [ArgNum handle] ;;
  on_le_link handle (le_super (EnqueuePacket packet)).

(** The line feed that ends the message of [write_data_sync]. *)
Definition line_feed : string :=
  String (Ascii.Ascii false true false true false false false false)
         EmptyString.

(** [Acl::write_data_sync]. *)
Definition write_data_sync (handle : Z) (packet : RawBuilder) : M Acl unit :=
  a <- get ;;
  if IsClassicAcl handle a then EnqueueClassicPacket handle packet
  else if IsLeAcl handle a then EnqueueLePacket handle packet
  else log ERROR ("Unable to find destination to write data" +:+ line_feed)
           [].

(** A run of the outbound operations of a link that collects the packets
    [handle_enqueue] hands to the lower queue. *)
Fixpoint run_ops_collect (ops : list LinkOp)
  : M ShimAclConnection (list RawBuilder) :=
  match ops with
  | [] => ret []
  | OpHandleEnqueue :: ops' =>
      packet <- handle_enqueue ;;
      packets <- run_ops_collect ops' ;;
      ret (packet :: packets)
  | op :: ops' => run_op op ;; run_ops_collect ops'
  end.

(** The packets a run asks to enqueue. *)
Fixpoint enqueued (ops : list LinkOp) : list RawBuilder :=
  match ops with
  | [] => []
  | OpEnqueuePacket packet :: ops' => packet :: enqueued ops'
  | _ :: ops' => enqueued ops'
  end.

(** [EnqueuePacket] of each packet in turn, then [n] times
    [handle_enqueue]. *)
Definition enqueue_all_then_drain (packets : list RawBuilder) (n : nat)
  : M ShimAclConnection (list RawBuilder) :=
  run_ops_collect (map OpEnqueuePacket packets ++ replicate n OpHandleEnqueue).

(** ** Events of the manager *)

(** The link that [OnConnectSuccess] builds from the connection. *)
Definition new_classic_link (a : Acl) (connection : ClassicAclConnection)
  (now : Z) : ClassicShimAclConnection :=
  MkClassicShimAclConnection
    (MkShimAclConnection (classic_GetHandle connection)
       (on_send_data_upwards (acl_interface_ a))
       (MkQueueUpEnd
          (enqueue_registration (classic_GetAclQueueEnd connection))
          true (inbound (classic_GetAclQueueEnd connection)))
       now [] false false)
    (link_classic (acl_interface_ a)) connection.



(** What reaches the manager on the lower handler: the events of the
    lower layer, the requests of the upper stack, and the callbacks of
    the lower queue and of the connection on the link registered at a
    handle. *)
Inductive AclEvent :=
| EvConnectSuccess (connection : ClassicAclConnection) (now : Z)
| EvLeConnectSuccess (address_with_type : AddressWithType)
                     (connection : LeAclConnection) (now : Z)
| EvClassicDisconnection (handle : Z) (reason : ErrorCode) (now : Z)
| EvLeDisconnection (handle : Z) (reason : ErrorCode) (now : Z)
| EvAcceptLe (address_with_type : AddressWithType) (is_direct : bool)
| EvIgnoreLe (address_with_type : AddressWithType)
| EvWriteData (handle : Z) (packet : RawBuilder)
| EvClassicEnqueueReady (handle : Z)
| EvLeEnqueueReady (handle : Z)
| EvClassicDataReady (handle : Z) (do_in_main_thread_ok : bool)
| EvLeDataReady (handle : Z) (do_in_main_thread_ok : bool)
| EvReadRemoteSupportedFeaturesComplete (handle : Z) (features : Z)
| EvReadRemoteExtendedFeaturesComplete
    (handle : Z) (page_number max_page_number features : Z).

Definition run_event (event : AclEvent) : M Acl unit :=
  match event with
  | EvConnectSuccess connection now => OnConnectSuccess connection now
  | EvLeConnectSuccess address_with_type connection now =>
      OnLeConnectSuccess address_with_type connection now
  | EvClassicDisconnection handle reason now =>
      classic_OnDisconnection handle reason now
  | EvLeDisconnection handle reason now =>
      le_OnDisconnection handle reason now
  | EvAcceptLe address_with_type is_direct =>
      accept_le_connection_from address_with_type is_direct
  | EvIgnoreLe address_with_type =>
      ignore_le_connection_from address_with_type
  | EvWriteData handle packet => write_data_sync handle packet
  | EvClassicEnqueueReady handle =>
      on_classic_link handle (classic_super handle_enqueue) ;; ret tt
  | EvLeEnqueueReady handle =>
      on_le_link handle (le_super handle_enqueue) ;; ret tt
  | EvClassicDataReady handle ok =>
      on_classic_link handle (classic_super (data_ready_callback ok))
  | EvLeDataReady handle ok =>
      on_le_link handle (le_super (data_ready_callback ok))
  | EvReadRemoteSupportedFeaturesComplete handle features =>
      on_classic_link handle (OnReadRemoteSupportedFeaturesComplete features)
  | EvReadRemoteExtendedFeaturesComplete handle page_number max_page_number
                                         features =>
      on_classic_link handle
        (OnReadRemoteExtendedFeaturesComplete page_number max_page_number
                                              features)
  end.

Fixpoint run_events (events : list AclEvent) : M Acl unit :=
  match events with
  | [] => ret tt
  | event :: events' => run_event event ;; run_events events'
  end.

(** What the manager keeps true of its tables: the interface is the
    validated one, the history ring and the shadow lists are within their
    capacities, and every link of the registry is registered under its
    own handle with its disconnected latch not set. *)
Definition Acl_ok (a : Acl) : Prop :=
  ValidateAclInterface (acl_interface_ a) = true
  /\ max_size_ (connection_history_ a) = kConnectionHistorySize
  /\ Z.of_nat (length (fq_queue_ (connection_history_ a)))
     <= kConnectionHistorySize
  /\ acceptlist_size (shadow_acceptlist_ a)
     <= max_acceptlist_size_ (shadow_acceptlist_ a)
  /\ ShadowAddressResolutionList_Size (shadow_address_resolution_list_ a)
     <= max_address_resolution_size_ (shadow_address_resolution_list_ a)
  /\ (forall handle link,
         handle_to_classic_connection_map_ a !! handle = Some link ->
         handle_ (classic_base link) = handle
         /\ is_disconnected_ (classic_base link) = false)
  /\ (forall handle link,
         handle_to_le_connection_map_ a !! handle = Some link ->
         handle_ (le_base link) = handle
         /\ is_disconnected_ (le_base link) = false).

(** A step of the manager keeps its tables in order, whether it runs to
    its end or stops. *)
Definition keeps_Acl_ok {A} (m : M Acl A) : Prop :=
  forall a : Acl, Acl_ok a -> Acl_ok (state_of (m a)).

(** A member function of a link leaves the handle and the disconnected
    latch of the link as they are. *)
Definition keeps_handle_and_latch {A} (m : M ShimAclConnection A) : Prop :=
  forall c : ShimAclConnection,
    handle_ (state_of (m c)) = handle_ c
    /\ is_disconnected_ (state_of (m c)) = is_disconnected_ c.

Definition classic_keeps_handle_and_latch {A}
  (m : M ClassicShimAclConnection A) : Prop :=
  forall link : ClassicShimAclConnection,
    handle_ (classic_base (state_of (m link))) = handle_ (classic_base link)
    /\ is_disconnected_ (classic_base (state_of (m link)))
       = is_disconnected_ (classic_base link).

Definition le_keeps_handle_and_latch {A} (m : M LeShimAclConnection A)
  : Prop :=
  forall link : LeShimAclConnection,
    handle_ (le_base (state_of (m link))) = handle_ (le_base link)
    /\ is_disconnected_ (le_base (state_of (m link)))
       = is_disconnected_ (le_base link).

End AclShimFurther.

(** * Requests that reach the lower manager *)

Section AclGateway.

Context {helpers : Helpers}.

(** The calls [GetAclManager()->...] of the list requests, the failure
    callbacks of the upper layer, and the [std::promise<void>] a shutdown
    request carries: what these functions do besides what a link and the
    handlers above do. *)
Inductive ManagerCall :=
| Call_ClearFilterAcceptList
| Call_AddDeviceToResolvingList (address_with_type : AddressWithType)
                                (peer_irk local_irk : list Z)
| Call_RemoveDeviceFromResolvingList (address_with_type : AddressWithType)
| Call_ClearResolvingList.

Inductive FailedCallback :=
| le_on_failed (legacy_address_with_type : tBLE_BD_ADDR) (handle : Z)
               (enhanced : bool) (status : tHCI_STATUS).

Inductive GatewayEffect :=
| Shim (e : Effect)
| Manager (call : ManagerCall)
| PostFailed (cb : FailedCallback)
| PromiseVoidSetValue.

Inductive gresult (A : Type) :=
| GDone (a : A) (s : Acl) (t : list GatewayEffect)
| GStopped (f : Fault) (s : Acl) (t : list GatewayEffect).
Arguments GDone {A} a s t.
Arguments GStopped {A} f s t.

Definition G (A : Type) : Type := Acl -> gresult A.

Definition gret {A} (a : A) : G A := fun s => GDone a s [].

Definition gafter {A} (t1 : list GatewayEffect) (r : gresult A)
  : gresult A :=
  match r with
  | GDone a s t2 => GDone a s (t1 ++ t2)
  | GStopped f s t2 => GStopped f s (t1 ++ t2)
  end.

Definition gbind {A B} (m : G A) (k : A -> G B) : G B :=
  fun s =>
    match m s with
    | GDone a s1 t1 => gafter t1 (k a s1)
    | GStopped f s1 t1 => GStopped f s1 t1
    end.

Definition gget : G Acl := fun s => GDone s s [].
Definition gtell (e : GatewayEffect) : G unit := fun s => GDone tt s [e].

(** A member function of the manager, run as part of a request. *)
Definition lift {A} (m : M Acl A) : G A :=
  fun s =>
    match m s with
    | Done a s1 t => GDone a s1 (map Shim t)
    | Stopped f s1 t => GStopped f s1 (map Shim t)
    end.

Definition gstate_of {A} (r : gresult A) : Acl :=
  match r with GDone _ s _ => s | GStopped _ s _ => s end.

Definition gtrace_of {A} (r : gresult A) : list GatewayEffect :=
  match r with GDone _ _ t => t | GStopped _ _ t => t end.

Definition gcompleted {A} (r : gresult A) : bool :=
  match r with GDone _ _ _ => true | GStopped _ _ _ => false end.

Declare Scope gateway_scope.
Notation "x <- m ;; k" := (gbind m (fun x => k))
  (at level 20, m at level 99, k at level 200, only parsing)
  : gateway_scope.
Notation "m ;; k" := (gbind m (fun _ => k))
  (at level 100, k at level 200, only parsing, right associativity)
  : gateway_scope.
Local Open Scope gateway_scope.

(** [TRY_POSTING_ON_MAIN] with a failure callback. *)
Definition TRY_POSTING_ON_MAIN_failed (present : bool) (cb : FailedCallback)
  : G unit :=
  if present then gtell (PostFailed cb)
  else lift (log WARN "Dropping ACL event with no callback" []).

(** [shadow_address_resolution_list_.f(...)]. *)
Definition on_shadow_address_resolution_list {A}
  (m : M ShadowAddressResolutionList A) : M Acl A :=
  zoom shadow_address_resolution_list_ set_shadow_address_resolution_list_ m.

(** [impl::clear_acceptlist]. *)
Definition clear_acceptlist : G unit :=
  a <- gget ;;
  let shadow_acceptlist := ShadowAcceptlist_GetCopy (shadow_acceptlist_ a) in
  let count := size shadow_acceptlist in
  gtell (Manager Call_ClearFilterAcceptList) ;;
  lift (on_shadow_acceptlist ShadowAcceptlist_Clear) ;;
  lift (log DEBUG "Cleared entire Le address acceptlist count:{}"
            [ArgNum (Z.of_nat count)]).

(** [impl::AddToAddressResolution]. *)
Definition AddToAddressResolution (address_with_type : AddressWithType)
  (peer_irk local_irk : list Z) : G unit :=
  a <- gget ;;
  if ShadowAddressResolutionList_IsFull (shadow_address_resolution_list_ a)
  then
    lift (log WARN "Le Address Resolution list is full size:{}"
              [ArgNum (ShadowAddressResolutionList_Size
                         (shadow_address_resolution_list_ a))])
  else
    lift (on_shadow_address_resolution_list
            (ShadowAddressResolutionList_Add address_with_type)) ;;
    gtell (Manager (Call_AddDeviceToResolvingList address_with_type
                                                  peer_irk local_irk)).

(** [impl::RemoveFromAddressResolution]. *)
Definition RemoveFromAddressResolution (address_with_type : AddressWithType)
  : G unit :=
  removed <- lift (on_shadow_address_resolution_list
                     (ShadowAddressResolutionList_Remove address_with_type)) ;;
  (if negb removed then
     lift (log WARN
             "Unable to remove from Le Address Resolution list device:{}"
             [ArgAddressWithType address_with_type])
   else gret tt) ;;
  gtell (Manager (Call_RemoveDeviceFromResolvingList address_with_type)).

(** [impl::ClearResolvingList]. *)
Definition ClearResolvingList : G unit :=
  gtell (Manager Call_ClearResolvingList) ;;
  lift (on_shadow_address_resolution_list ShadowAddressResolutionList_Clear).

(** [Acl::OnLeConnectFail]. *)
Definition OnLeConnectFail (address_with_type : AddressWithType)
  (reason : ErrorCode) : G unit :=
  let legacy_address_with_type := ToLegacyAddressWithType address_with_type in
  let handle := 0 in
  let enhanced := true in
  let status := ToLegacyHciErrorCode reason in
  a <- gget ;;
  TRY_POSTING_ON_MAIN_failed
    (connection_le_on_failed (acl_interface_ a))
    (le_on_failed legacy_address_with_type handle enhanced status) ;;
  lift (on_shadow_acceptlist (ShadowAcceptlist_Remove address_with_type)) ;;
  lift (log WARN "Connection failed le remote:{}"
            [ArgAddressWithType address_with_type]) ;;
  lift (tell (BtmLogHistoryBle kBtmLogTag
                (ToLegacyAddressWithType address_with_type)
                "Connection failed" "le reason:%s" [ArgErrorCode reason])).

(** ** Shutdown *)

(** The handles of a registry in the order in which [std::map] is
    iterated. *)
Definition handles_of {V} (m : gmap Z V) : list Z :=
  merge_sort Z.le (elements (dom m)).

Definition for_each_handle (handles : list Z) (f : Z -> M Acl unit)
  : M Acl unit :=
  foldr (fun handle rest => bind (f handle) (fun _ => rest)) (ret tt) handles.

(** [for (auto& connection : handle_to_classic_connection_map_)
    connection.second->Shutdown()]. *)
Definition shutdown_classic_links : M Acl unit :=
  bind get (fun a =>
    for_each_handle (handles_of (handle_to_classic_connection_map_ a))
      (fun handle =>
         on_classic_link handle (classic_super ShimAclConnection_Shutdown))).

Definition shutdown_le_links : M Acl unit :=
  bind get (fun a =>
    for_each_handle (handles_of (handle_to_le_connection_map_ a))
      (fun handle =>
         on_le_link handle (le_super ShimAclConnection_Shutdown))).

(** [handle_to_classic_connection_map_.clear()]: every link is destroyed
    and leaves the map.  The language does not fix the order in which
    [clear] destroys the elements; the links are taken in the order of
    their handles. *)
Definition clear_classic : M Acl unit :=
  bind get (fun a =>
    for_each_handle (handles_of (handle_to_classic_connection_map_ a))
      erase_classic).

Definition clear_le : M Acl unit :=
  bind get (fun a =>
    for_each_handle (handles_of (handle_to_le_connection_map_ a)) erase_le).

(** [impl::ShutdownClassicConnections]. *)
Definition ShutdownClassicConnections : G unit :=
  lift (log INFO "Shutdown gd acl shim classic connections" []) ;;
  lift shutdown_classic_links ;;
  lift clear_classic ;;
  gtell PromiseVoidSetValue.

(** [impl::ShutdownLeConnections]. *)
Definition ShutdownLeConnections : G unit :=
  lift (log INFO "Shutdown gd acl shim le connections" []) ;;
  lift shutdown_le_links ;;
  lift clear_le ;;
  gtell PromiseVoidSetValue.

(** [impl::FinalShutdown]; each count is read after [clear]. *)
Definition FinalShutdown : G unit :=
  a <- gget ;;
  (if negb (size (handle_to_classic_connection_map_ a) =? 0)%nat then
     lift shutdown_classic_links ;;
     lift clear_classic ;;
     a1 <- gget ;;
     lift (log INFO "Cleared all classic connections count:{}"
               [ArgNum (Z.of_nat
                          (size (handle_to_classic_connection_map_ a1)))])
   else gret tt) ;;
  a2 <- gget ;;
  (if negb (size (handle_to_le_connection_map_ a2) =? 0)%nat then
     lift shutdown_le_links ;;
     lift clear_le ;;
     a3 <- gget ;;
     lift (log INFO "Cleared all le connections count:{}"
               [ArgNum (Z.of_nat (size (handle_to_le_connection_map_ a3)))])
   else gret tt) ;;
  gtell PromiseVoidSetValue.

(** ** Requests on the resolving list *)

Inductive ResolutionRequest :=
| ReqAdd (address_with_type : AddressWithType) (peer_irk local_irk : list Z)
| ReqRemove (address_with_type : AddressWithType)
| ReqClear.

Definition run_resolution_request (request : ResolutionRequest) : G unit :=
  match request with
  | ReqAdd address_with_type peer_irk local_irk =>
      AddToAddressResolution address_with_type peer_irk local_irk
  | ReqRemove address_with_type =>
      RemoveFromAddressResolution address_with_type
  | ReqClear => ClearResolvingList
  end.

Fixpoint run_resolution_requests (requests : list ResolutionRequest)
  : G unit :=
  match requests with
  | [] => gret tt
  | request :: rest =>
      run_resolution_request request ;; run_resolution_requests rest
  end.

(** The calls made to the lower manager, in order. *)
Definition manager_calls (t : list GatewayEffect) : list ManagerCall :=
  omap (fun e => match e with Manager call => Some call | _ => None end) t.

Definition failed_posts (t : list GatewayEffect) : list FailedCallback :=
  omap (fun e => match e with PostFailed cb => Some cb | _ => None end) t.

(** The effects of the shim itself. *)
Definition shim_effects (t : list GatewayEffect) : list Effect :=
  omap (fun e => match e with Shim e' => Some e' | _ => None end) t.

(** The addresses a lower manager that carries out every call holds in
    its resolving list after [calls], when it held [start] before. *)
Definition resolving_list_after (calls : list ManagerCall)
  (start : gset AddressWithType) : gset AddressWithType :=
  foldl (fun held call =>
           match call with
           | Call_AddDeviceToResolvingList address_with_type _ _ =>
               {[ address_with_type ]} ∪ held
           | Call_RemoveDeviceFromResolvingList address_with_type =>
               held ∖ {[ address_with_type ]}
           | Call_ClearResolvingList => ∅
           | Call_ClearFilterAcceptList => held
           end) start calls.

(** What one request passes down to the lower manager, and what the
    shadow list holds after it, on a shadow list of the given capacity
    that holds [held]: an add is passed down when the list has room, a
    remove and a clear always. *)
Definition passed_down (request : ResolutionRequest) (capacity : Z)
  (held : gset AddressWithType)
  : list ManagerCall * gset AddressWithType :=
  match request with
  | ReqAdd address_with_type peer_irk local_irk =>
      if Z.of_nat (size held) =? capacity then ([], held)
      else ([Call_AddDeviceToResolvingList address_with_type peer_irk
                                           local_irk],
            {[ address_with_type ]} ∪ held)
  | ReqRemove address_with_type =>
      ([Call_RemoveDeviceFromResolvingList address_with_type],
       held ∖ {[ address_with_type ]})
  | ReqClear => ([Call_ClearResolvingList], ∅)
  end.

(** The calls a sequence of requests passes down, in order. *)
Fixpoint calls_passed_down (requests : list ResolutionRequest)
  (capacity : Z) (held : gset AddressWithType) : list ManagerCall :=
  match requests with
  | [] => []
  | request :: rest =>
      fst (passed_down request capacity held)
      ++ calls_passed_down rest capacity
           (snd (passed_down request capacity held))
  end.

(** Every effect is a log line or a call to the lower manager. *)
Definition only_logs_and_manager_calls (t : list GatewayEffect) : bool :=
  forallb (fun e => match e with
                    | Shim (Log _ _ _) | Manager _ => true
                    | _ => false
                    end) t.

(** [accept_le_connection_from] followed by the failure of the attempt. *)
Definition accept_then_fail (address_with_type : AddressWithType)
  (is_direct : bool) (reason : ErrorCode) : G unit :=
  lift (accept_le_connection_from address_with_type is_direct) ;;
  OnLeConnectFail address_with_type reason.

(** [clear_acceptlist] followed by [accept_le_connection_from]. *)
Definition clear_then_accept (address_with_type : AddressWithType)
  (is_direct : bool) : G unit :=
  clear_acceptlist ;;
  lift (accept_le_connection_from address_with_type is_direct).

End AclGateway.

Arguments GDone {helpers A} a s t.
Arguments GStopped {helpers A} f s t.

(** * Properties *)

Section Properties.

Context {helpers : Helpers}.

(** ** The monad *)

Lemma after_no_effects {S A} (r : result S A) : after_effects [] r = r.
Proof. destruct r; reflexivity. Qed.

Lemma bind_Done {S A B} (m : M S A) (k : A -> M S B) s a s1 t1 :
  m s = Done a s1 t1 -> bind m k s = after_effects t1 (k a s1).
Proof. intros Hm. unfold bind. rewrite Hm. reflexivity. Qed.

Lemma bind_Stopped {S A B} (m : M S A) (k : A -> M S B) s f s1 t1 :
  m s = Stopped f s1 t1 -> bind m k s = Stopped f s1 t1.
Proof. intros Hm. unfold bind. rewrite Hm. reflexivity. Qed.

Lemma state_of_after_effects {S A} t (r : result S A) :
  state_of (after_effects t r) = state_of r.
Proof. destruct r; reflexivity. Qed.

Lemma trace_of_after_effects {S A} t (r : result S A) :
  trace_of (after_effects t r) = t ++ trace_of r.
Proof. destruct r; reflexivity. Qed.

Lemma completed_after_effects {S A} t (r : result S A) :
  completed (after_effects t r) = completed r.
Proof. destruct r; reflexivity. Qed.

(** ** Shadow lists *)

Lemma ShadowAcceptlist_Add_full l x :
  ShadowAcceptlist_IsFull l = true ->
  ShadowAcceptlist_Add x l
  = Done false l [Log ERROR "Acceptlist is full size:{}"
                      [ArgNum (acceptlist_size l)]].
Proof.
  unfold ShadowAcceptlist_IsFull, ShadowAcceptlist_Add. intros Hfull.
  unfold bind, get. cbn. rewrite Hfull. reflexivity.
Qed.

(** C10: on a shadow list at its capacity, [Add] answers false, whether
    or not the entry is already a member: the size is compared with the
    capacity before the set is consulted, the list is left as it was and
    only the "full" error is logged, never the duplicate warning. *)
Theorem add_on_full_list_is_rejected :
  (forall (l : ShadowAcceptlist) (x : AddressWithType),
      ShadowAcceptlist_IsFull l = true ->
      ShadowAcceptlist_Add x l
      = Done false l [Log ERROR "Acceptlist is full size:{}"
                          [ArgNum (acceptlist_size l)]])
  /\ (forall (l : ShadowAddressResolutionList) (x : AddressWithType),
         ShadowAddressResolutionList_IsFull l = true ->
         ShadowAddressResolutionList_Add x l
         = Done false l [Log ERROR "Address Resolution is full size:{}"
                             [ArgNum (ShadowAddressResolutionList_Size l)]]).
Proof.
  split.
  - apply ShadowAcceptlist_Add_full.
  - intros l x Hfull.
    unfold ShadowAddressResolutionList_IsFull in Hfull.
    unfold ShadowAddressResolutionList_Add, bind, get. cbn.
    rewrite Hfull. reflexivity.
Qed.

(** C9, for new entries: for an entry that is not yet in the shadow list,
    [Add] followed by [Remove] leaves the list with the contents it had, on
    the accept list (whose entries are compared as address and accept-list
    address type) and on the address-resolution list. *)
Theorem add_then_remove_of_new_entry_restores :
  (forall (l : ShadowAcceptlist) (x : AddressWithType),
      ConnectAddressWithType_of x ∉ acceptlist_set_ l ->
      state_of (ShadowAcceptlist_add_remove x l) = l)
  /\ (forall (l : ShadowAddressResolutionList) (x : AddressWithType),
         x ∉ address_resolution_set_ l ->
         state_of (ShadowAddressResolutionList_add_remove x l) = l).
Proof.
  split.
  - intros [max set] x Hnew. cbn in Hnew.
    unfold ShadowAcceptlist_add_remove, ShadowAcceptlist_Add,
      ShadowAcceptlist_Remove, bind, get. cbn.
    destruct (acceptlist_size _ =? max); cbn.
    + rewrite bool_decide_eq_false_2 by assumption. reflexivity.
    + rewrite (bool_decide_eq_false_2 _ Hnew). cbn.
      rewrite bool_decide_eq_true_2 by set_solver. cbn.
      unfold set_acceptlist_set_. cbn. f_equal. set_solver.
  - intros [max set] x Hnew. cbn in Hnew.
    unfold ShadowAddressResolutionList_add_remove,
      ShadowAddressResolutionList_Add, ShadowAddressResolutionList_Remove,
      bind, get. cbn.
    destruct (ShadowAddressResolutionList_Size _ =? max); cbn.
    + rewrite bool_decide_eq_false_2 by assumption. reflexivity.
    + rewrite (bool_decide_eq_false_2 _ Hnew). cbn.
      rewrite bool_decide_eq_true_2 by set_solver. cbn.
      unfold set_address_resolution_set_. cbn. f_equal. set_solver.
Qed.

(** ** The command gateway *)

(** C4: [accept_le_connection_from] runs to its end.  On a full shadow
    accept list the promise is given false, the manager is unchanged and
    the lower layer is not called; otherwise the entry of the address is
    in the shadow accept list afterwards, the promise is given true, and
    the one call into the lower layer is [CreateLeConnection] for that
    address. *)
Theorem accept_le_resolves_by_capacity
  (a : Acl) (address_with_type : AddressWithType) (is_direct : bool) :
  let r := accept_le_connection_from address_with_type is_direct a in
  completed r = true
  /\ if ShadowAcceptlist_IsFull (shadow_acceptlist_ a) then
       state_of r = a
       /\ promise_values (trace_of r) = [false]
       /\ lower_calls (trace_of r) = []
     else
       state_of r
       = set_shadow_acceptlist_
           (set_acceptlist_set_
              ({[ ConnectAddressWithType_of address_with_type ]}
               ∪ acceptlist_set_ (shadow_acceptlist_ a))
              (shadow_acceptlist_ a)) a
       /\ ConnectAddressWithType_of address_with_type
          ∈ acceptlist_set_ (shadow_acceptlist_ (state_of r))
       /\ promise_values (trace_of r) = [true]
       /\ lower_calls (trace_of r)
          = [Call_CreateLeConnection address_with_type is_direct].
Proof.
  cbn zeta.
  destruct (ShadowAcceptlist_IsFull (shadow_acceptlist_ a)) eqn:Hfull;
    unfold accept_le_connection_from, bind, get; cbn; rewrite Hfull.
  - cbn. auto.
  - unfold on_shadow_acceptlist, zoom, ShadowAcceptlist_Add, bind, get.
    unfold ShadowAcceptlist_IsFull in Hfull. cbn. rewrite Hfull. cbn.
    destruct (bool_decide _); cbn; repeat split; auto; set_solver.
Qed.

(** ** The link object *)

Lemma LowByte_land (val : Z) :
  0 <= val < 2 ^ 16 -> LowByte val = Z.land val 0xff.
Proof.
  intros Hval. unfold LowByte, uint8, uint16.
  rewrite (Z.mod_small val) by lia.
  change 0xff with (Z.ones 8). rewrite Z.land_ones by lia.
  apply Z.mod_small. apply Z.mod_pos_bound. lia.
Qed.

Lemma HighByte_shiftr (val : Z) :
  0 <= val < 2 ^ 16 -> HighByte val = Z.shiftr val 8.
Proof.
  intros Hval. unfold HighByte, uint8, uint16.
  rewrite (Z.mod_small val) by lia.
  rewrite Z.shiftr_div_pow2 by lia.
  apply Z.mod_small. split.
  - apply Z.div_pos; lia.
  - apply Z.div_lt_upper_bound; lia.
Qed.

(** The closure posted for an inbound packet, with the preamble as
    [data_ready_callback] computes it. *)
Lemma data_ready_callback_posts
  (c : ShimAclConnection) (packet : RawBuilder) (rest : list RawBuilder)
  (do_in_main_thread_ok : bool) :
  inbound (queue_up_end_ c) = packet :: rest ->
  send_data_upwards_ c = true ->
  let length := uint16 (Z.of_nat (length packet)) in
  let r := data_ready_callback do_in_main_thread_ok c in
  completed r = true
  /\ posts (trace_of r)
     = [send_data_upwards
          (MakeLegacyBtHdrPacket packet
             [LowByte (handle_ c); HighByte (handle_ c);
              LowByte length; HighByte length])]
  /\ inbound (queue_up_end_ (state_of r)) = rest.
Proof.
  intros Hin Hsink. cbn zeta.
  unfold data_ready_callback, queue_up_end_TryDequeue, bind, get.
  cbn -[MakeLegacyBtHdrPacket].
  rewrite Hin. cbn -[MakeLegacyBtHdrPacket].
  rewrite Hsink. cbn -[MakeLegacyBtHdrPacket].
  destruct do_in_main_thread_ok; cbn -[MakeLegacyBtHdrPacket]; auto.
Qed.

(** C8, with the length as the 16-bit value the code keeps of it: when an
    inbound packet of length L is delivered upward on a link with handle
    H, the one closure posted to the main thread is the
    [send_data_upwards] sink applied to the buffer made of the four bytes
    H & 0xff, H >> 8, L' & 0xff, L' >> 8 followed by the payload, where
    L' is L modulo 2^16; for a packet shorter than 65536 bytes L' is L. *)
Theorem data_ready_posts_preamble_and_payload
  (c : ShimAclConnection) (packet : RawBuilder) (rest : list RawBuilder)
  (do_in_main_thread_ok : bool) :
  inbound (queue_up_end_ c) = packet :: rest ->
  send_data_upwards_ c = true ->
  0 <= handle_ c < 2 ^ 16 ->
  let H := handle_ c in
  let L := Z.of_nat (length packet) in
  let L' := L mod 2 ^ 16 in
  let r := data_ready_callback do_in_main_thread_ok c in
  completed r = true
  /\ posts (trace_of r)
     = [send_data_upwards
          (MkBT_HDR ([Z.land H 0xff; Z.shiftr H 8; Z.land L' 0xff;
                      Z.shiftr L' 8] ++ packet))]
  /\ inbound (queue_up_end_ (state_of r)) = rest
  /\ (L < 2 ^ 16 ->
      posts (trace_of r)
      = [send_data_upwards
           (MkBT_HDR ([Z.land H 0xff; Z.shiftr H 8; Z.land L 0xff;
                       Z.shiftr L 8] ++ packet))]).
Proof.
  intros Hin Hsink Hh. cbn zeta.
  destruct (data_ready_callback_posts c packet rest do_in_main_thread_ok
              Hin Hsink) as (Hdone & Hposts & Hrest).
  assert (Hw : 0 <= uint16 (Z.of_nat (length packet)) < 2 ^ 16)
    by (unfold uint16; apply Z.mod_pos_bound; lia).
  rewrite !LowByte_land, !HighByte_shiftr in Hposts by assumption.
  unfold MakeLegacyBtHdrPacket, uint16 in Hposts.
  split; [exact Hdone|]. split; [exact Hposts|]. split; [exact Hrest|].
  intros Hshort. rewrite Hposts.
  rewrite (Z.mod_small (Z.of_nat (length packet))) by lia. reflexivity.
Qed.

(** C7, with the assertion: on a link whose disconnected latch is set, a
    second disconnect only logs an error that carries the handle and the
    creation time and leaves the link as it was; a further enqueue appends
    the packet to the outbound queue and then stops at the fatal assertion
    that names the handle, with the latch and the registrations as they
    were. *)
Theorem calls_on_disconnected_link (c : ShimAclConnection) :
  is_disconnected_ c = true ->
  ShimAclConnection_Disconnect c
  = Done tt c
      [Log ERROR
         "Cannot disconnect ACL multiple times handle:{:04x} creation_time:{}"
         [ArgNum (handle_ c); ArgTime (creation_time_ c)]]
  /\ forall packet : RawBuilder,
       EnqueuePacket packet c
       = Stopped
           (AssertFailed
              "Unable to send data over disconnected channel handle:%04x"
              [ArgNum (handle_ c)])
           (set_queue_ (queue_ c ++ [packet]) c)
           [Log FATAL
              "Unable to send data over disconnected channel handle:%04x"
              [ArgNum (handle_ c)]].
Proof.
  intros Hlatch. split.
  - unfold ShimAclConnection_Disconnect, bind, get. cbn.
    rewrite Hlatch. reflexivity.
  - intros packet.
    unfold EnqueuePacket, ShimAclConnection_RegisterEnqueue, bind, get,
      modify. cbn.
    rewrite Hlatch. reflexivity.
Qed.

Lemma enqueue_registration_ok_iff (c : ShimAclConnection) :
  enqueue_registration_ok c = true <->
  (enqueue_registration (queue_up_end_ c) = true <->
   queue_ c <> [] /\ is_disconnected_ c = false)
  /\ is_enqueue_registered_ c = enqueue_registration (queue_up_end_ c).
Proof.
  unfold enqueue_registration_ok.
  destruct (enqueue_registration (queue_up_end_ c)),
    (is_enqueue_registered_ c), (is_disconnected_ c), (queue_ c);
    cbn; intuition congruence.
Qed.

Lemma run_op_keeps_enqueue_registration_ok (op : LinkOp)
  (c : ShimAclConnection) :
  enqueue_registration_ok c = true ->
  enqueue_registration_ok (state_of (run_op op c)) = true.
Proof.
  destruct c as [h sdu [er dr inb] ct q reg disc].
  unfold enqueue_registration_ok. cbn. intros Hok.
  destruct op as [packet| |];
    unfold run_op, EnqueuePacket, handle_enqueue,
      ShimAclConnection_Disconnect, ShimAclConnection_RegisterEnqueue,
      ShimAclConnection_UnregisterEnqueue, queue_up_end_RegisterEnqueue,
      queue_up_end_UnregisterEnqueue, queue_up_end_UnregisterDequeue,
      ASSERT_LOG, bind, get, modify; cbn.
  - destruct disc, reg, er, q; cbn in *; congruence.
  - destruct q as [|p [|p' q]]; cbn in *; [assumption| |];
      destruct disc, reg, er; cbn in *; congruence.
  - destruct disc, reg, er, q; cbn in *; congruence.
Qed.

Lemma run_ops_keep_enqueue_registration_ok (ops : list LinkOp) :
  forall c : ShimAclConnection,
    enqueue_registration_ok c = true ->
    enqueue_registration_ok (state_of (run_ops ops c)) = true.
Proof.
  induction ops as [|op ops IH]; intros c Hok.
  - exact Hok.
  - pose proof (run_op_keeps_enqueue_registration_ok op c Hok) as Hstep.
    cbn [run_ops]. unfold bind.
    destruct (run_op op c) as [[] c1 t1|f c1 t1]; cbn in Hstep.
    + rewrite state_of_after_effects. apply IH, Hstep.
    + exact Hstep.
Qed.

(** C6: after any sequence of enqueue_packet, handle_enqueue and
    disconnect operations on a newly built link, whether the sequence ran
    to its end or stopped at a fault, the enqueue registration with the
    lower queue is present if and only if the outbound queue is non-empty
    and the disconnected latch is not set, and the link's own
    registration latch agrees with the lower queue. *)
Theorem enqueue_registration_invariant
  (handle : Z) (send_data_upwards : bool) (queue_up_end : QueueUpEnd)
  (creation_time : Z) (ops : list LinkOp) :
  enqueue_registration queue_up_end = false ->
  let link :=
    state_of (ShimAclConnection_new handle send_data_upwards queue_up_end
                                    creation_time) in
  let c := state_of (run_ops ops link) in
  (enqueue_registration (queue_up_end_ c) = true <->
   queue_ c <> [] /\ is_disconnected_ c = false)
  /\ is_enqueue_registered_ c = enqueue_registration (queue_up_end_ c).
Proof.
  intros Hfresh link c.
  apply enqueue_registration_ok_iff.
  apply run_ops_keep_enqueue_registration_ok.
  subst link. unfold enqueue_registration_ok. cbn. rewrite Hfresh.
  reflexivity.
Qed.

(** ** The classic link *)

(** C5, with the test of the code: a completed feature page is first handed
    to the upper callback (or dropped with a warning when the callback is
    absent) and only then may a page be requested. After the supported
    features, page 1 is requested exactly when bit 63 is set. After an
    extended-features page, nothing is requested when the page is 0 with bit
    63 clear; otherwise the next page, as an 8-bit number, is requested
    exactly when the maximum page is not 0 and differs from the page, so
    also for a page above the maximum. For a page that does not exceed a
    maximum below 256 this is the walk of the specification: page + 1 while
    page < max_page. *)
Theorem feature_pages_walk (c : ClassicShimAclConnection) :
  (forall features : Z,
      let r := OnReadRemoteSupportedFeaturesComplete features c in
      completed r = true
      /\ state_of r = c
      /\ (exists rest,
             trace_of r
             = (if on_read_remote_supported_features_complete
                     (classic_interface_ c)
                then Post (classic_on_read_remote_supported_features_complete
                             (handle_ (classic_base c)) features)
                else Log WARN "Dropping ACL event with no callback" [])
               :: rest
             /\ requested_pages (trace_of r) = requested_pages rest)
      /\ requested_pages (trace_of r)
         = if Z.testbit features 63 then [1] else [])
  /\ (forall page_number max_page_number features : Z,
         let r := OnReadRemoteExtendedFeaturesComplete
                    page_number max_page_number features c in
         completed r = true
         /\ state_of r = c
         /\ (exists rest,
                trace_of r
                = (if on_read_remote_extended_features_complete
                        (classic_interface_ c)
                   then Post (classic_on_read_remote_extended_features_complete
                                (handle_ (classic_base c)) page_number
                                max_page_number features)
                   else Log WARN "Dropping ACL event with no callback" [])
                  :: rest
                /\ requested_pages (trace_of r) = requested_pages rest)
         /\ requested_pages (trace_of r)
            = (if (page_number =? 0) && negb (Z.testbit features 63) then []
               else if negb (max_page_number =? 0)
                       && negb (page_number =? max_page_number)
                    then [(page_number + 1) mod 2 ^ 8]
                    else []))
  /\ (forall page_number max_page_number features : Z,
         0 <= page_number <= max_page_number ->
         max_page_number < 2 ^ 8 ->
         requested_pages
           (trace_of (OnReadRemoteExtendedFeaturesComplete
                        page_number max_page_number features c))
         = next_page_in_spec page_number max_page_number features).
Proof.
  assert (Hext : forall page_number max_page_number features : Z,
             requested_pages
               (trace_of (OnReadRemoteExtendedFeaturesComplete
                            page_number max_page_number features c))
             = (if (page_number =? 0) && negb (Z.testbit features 63) then []
                else if negb (max_page_number =? 0)
                        && negb (page_number =? max_page_number)
                     then [(page_number + 1) mod 2 ^ 8]
                     else [])).
  { intros page_number max_page_number features.
    unfold OnReadRemoteExtendedFeaturesComplete, TRY_POSTING_ON_MAIN,
      connection_ReadRemoteExtendedFeatures, bind, get.
    destruct (on_read_remote_extended_features_complete _),
      ((page_number =? 0) && negb (Z.testbit features 63)),
      (negb (max_page_number =? 0) && negb (page_number =? max_page_number));
      reflexivity. }
  split; [|split].
  - intros features.
    unfold OnReadRemoteSupportedFeaturesComplete, TRY_POSTING_ON_MAIN,
      connection_ReadRemoteExtendedFeatures, bind, get.
    destruct (on_read_remote_supported_features_complete _),
      (Z.testbit features 63); cbn; repeat split; eauto.
  - intros page_number max_page_number features. cbn zeta.
    rewrite Hext. clear Hext.
    unfold OnReadRemoteExtendedFeaturesComplete, TRY_POSTING_ON_MAIN,
      connection_ReadRemoteExtendedFeatures, bind, get.
    destruct (on_read_remote_extended_features_complete _),
      ((page_number =? 0) && negb (Z.testbit features 63)),
      (negb (max_page_number =? 0) && negb (page_number =? max_page_number));
      cbn; repeat split; eauto.
  - intros page_number max_page_number features Hpage Hmax.
    rewrite Hext. unfold next_page_in_spec.
    destruct ((page_number =? 0) && negb (Z.testbit features 63));
      [reflexivity|].
    destruct (Z.ltb_spec page_number max_page_number) as [Hlt|Hge].
    + rewrite (proj2 (Z.eqb_neq max_page_number 0)) by lia.
      rewrite (proj2 (Z.eqb_neq page_number max_page_number)) by lia.
      cbn [negb andb]. rewrite Z.mod_small by lia. reflexivity.
    + assert (page_number = max_page_number) as -> by lia.
      rewrite Z.eqb_refl. rewrite andb_false_r. reflexivity.
Qed.

(** ** The event router *)

Ltac run_le_connect_success :=
  unfold OnLeConnectSuccess, emplace_le, on_le_link, le_link_get,
    on_shadow_acceptlist, ShadowAcceptlist_Remove, le_RegisterCallbacks,
    le_InitiateDisconnect, le_ReadRemoteControllerInformation,
    TRY_POSTING_ON_MAIN, le_super, queue_up_end_RegisterDequeue,
    IsInFilterAcceptList, set_le_base,
    bind, get, zoom, construct, modify, tell, log, ret.

Lemma OnLeConnectSuccess_fresh (a : Acl) (address_with_type : AddressWithType)
  (connection : LeAclConnection) (now : Z) :
  handle_to_le_connection_map_ a !! le_GetHandle connection = None ->
  let handle := le_GetHandle connection in
  let identity :=
    if IsRpa address_with_type then peer_address_with_type_ connection
    else address_with_type in
  let r := OnLeConnectSuccess address_with_type connection now a in
  completed r = true
  /\ handle_to_le_connection_map_ (state_of r)
     = <[handle := new_le_link a connection now]>
         (handle_to_le_connection_map_ a)
  /\ acceptlist_set_ (shadow_acceptlist_ (state_of r))
     = acceptlist_set_ (shadow_acceptlist_ a)
       ∖ {[ ConnectAddressWithType_of identity ]}
  /\ if negb (le_IsInFilterAcceptList connection)
        && bool_decide (le_GetRole connection = CENTRAL)
     then
       posts (trace_of r) = []
       /\ lower_calls (trace_of r)
          = [Call_RegisterDequeue handle; Call_RegisterCallbacks handle;
             Call_Disconnect handle REMOTE_USER_TERMINATED_CONNECTION]
     else
       posts (trace_of r)
       = (if connection_le_on_connected (acl_interface_ a) then
            [le_on_connected
               (ToLegacyAddressWithType address_with_type) handle
               (ToLegacyRole (le_GetRole connection))
               (interval_ connection) (latency_ connection)
               (supervision_timeout_ connection)
               (ToRawAddress (local_resolvable_private_address_ connection))
               (ToRawAddress (peer_resolvable_private_address_ connection))
               (GetAddressType (peer_address_with_type_ connection))
               match GetRoleSpecificData connection with
               | DataAsPeripheral _ connected_to_discoverable =>
                   connected_to_discoverable
               | _ => true
               end]
          else [])
       /\ lower_calls (trace_of r)
          = [Call_RegisterDequeue handle; Call_RegisterCallbacks handle].
Proof.
  intros Hfresh.
  destruct a as [iface cmap lmap hist [max set] ar]. cbn in Hfresh.
  cbn zeta.
  run_le_connect_success. cbn. rewrite Hfresh. cbn.
  rewrite !lookup_insert_eq. cbn.
  destruct (IsRpa address_with_type); cbn;
    (match goal with
     | |- context [bool_decide (?k ∈ set)] =>
         destruct (bool_decide_reflect (k ∈ set)) as [Hmem|Hmem]
     end; cbn; rewrite ?lookup_insert_eq; cbn;
     destruct (negb (le_IsInFilterAcceptList connection)
               && bool_decide (le_GetRole connection = CENTRAL)); cbn;
     rewrite ?lookup_insert_eq; cbn;
     destruct (connection_le_on_connected iface); cbn;
     rewrite ?insert_insert_eq;
     (repeat split; [reflexivity || set_solver ..])).
Qed.

Lemma occurrences_app (p : Effect -> bool) (t1 t2 : list Effect) :
  occurrences p (t1 ++ t2) = (occurrences p t1 + occurrences p t2)%nat.
Proof.
  induction t1 as [|e t1 IH]; [reflexivity|].
  cbn. rewrite IH. lia.
Qed.

Lemma occurrences_quiet (p : Effect -> bool) (t : list Effect) :
  (forall e, quiet e = true -> p e = false) ->
  Forall (fun e => quiet e = true) t ->
  occurrences p t = 0%nat.
Proof.
  intros Hp Ht. induction Ht as [|e t He Ht IH]; [reflexivity|].
  cbn. rewrite (Hp e He), IH. reflexivity.
Qed.

Lemma posts_quiet (t : list Effect) :
  Forall (fun e => quiet e = true) t -> posts t = [].
Proof.
  intros Ht. induction Ht as [|e t He Ht IH]; [reflexivity|].
  destruct e; cbn in He; try discriminate; exact IH.
Qed.

Lemma only_after_quiet (p q : Effect -> bool) (t1 t2 : list Effect) :
  (forall e, quiet e = true -> p e = false) ->
  (forall e, quiet e = true -> q e = false) ->
  Forall (fun e => quiet e = true) t1 ->
  only_after p q (t1 ++ t2) = only_after p q t2.
Proof.
  intros Hp Hq Ht. induction Ht as [|e t He Ht IH]; [reflexivity|].
  cbn. rewrite (Hp e He), (Hq e He). exact IH.
Qed.

Lemma quiet_not_on_disconnected_post handle e :
  quiet e = true -> is_on_disconnected_post handle e = false.
Proof. destruct e; cbn; congruence. Qed.

Lemma quiet_not_history_push handle e :
  quiet e = true -> is_history_push handle e = false.
Proof. destruct e; cbn; congruence. Qed.

Lemma quiet_not_registry_erase handle e :
  quiet e = true -> is_registry_erase handle e = false.
Proof. destruct e; cbn; congruence. Qed.

(** [Disconnect] sets the latch, whatever the state of the link, and
    only logs and calls the lower queue. *)
Lemma ShimAclConnection_Disconnect_Done (c : ShimAclConnection) :
  exists c' t,
    ShimAclConnection_Disconnect c = Done tt c' t
    /\ is_disconnected_ c' = true
    /\ handle_ c' = handle_ c
    /\ creation_time_ c' = creation_time_ c
    /\ Forall (fun e => quiet e = true) t.
Proof.
  destruct c as [h sdu [er dr inb] ct q reg disc].
  unfold ShimAclConnection_Disconnect, ShimAclConnection_UnregisterEnqueue,
    queue_up_end_UnregisterEnqueue, queue_up_end_UnregisterDequeue,
    bind, get, modify, tell, log.
  destruct disc, reg, q; cbn;
    (eexists _, _; split; [reflexivity|]; cbn;
     repeat split; repeat constructor).
Qed.

Lemma ShimAclConnection_delete_Done (c : ShimAclConnection) :
  is_disconnected_ c = true ->
  exists t,
    ShimAclConnection_delete c = Done tt c t
    /\ Forall (fun e => quiet e = true) t.
Proof.
  intros Hlatch.
  unfold ShimAclConnection_delete, ASSERT_LOG, bind, get, log, tell. cbn.
  rewrite Hlatch.
  destruct (queue_ c); cbn;
    (eexists; split; [reflexivity|]; repeat constructor).
Qed.

Lemma FixedQueue_Push_Done {T} (element : T) (q : FixedQueue T) :
  max_size_ q <> 0 ->
  exists kept,
    FixedQueue_Push element q
    = Done tt (MkFixedQueue (max_size_ q) (kept ++ [element])) [].
Proof.
  intros Hmax. destruct q as [max [|x elements]]; cbn in Hmax.
  - exists []. unfold FixedQueue_Push, bind, get, modify.
    cbn [fq_queue_ max_size_ length]. change (Z.of_nat 0) with 0.
    destruct (Z.eqb_spec 0 max); [congruence|reflexivity].
  - unfold FixedQueue_Push, bind, get, modify. cbn [fq_queue_ max_size_].
    destruct (Z.of_nat (length (x :: elements)) =? max).
    + exists elements. reflexivity.
    + exists (x :: elements). reflexivity.
Qed.

Lemma on_classic_link_Done {A} (a : Acl) (handle : Z)
  (m : M ShimAclConnection A) link x base t :
  handle_to_classic_connection_map_ a !! handle = Some link ->
  m (classic_base link) = Done x base t ->
  on_classic_link handle (classic_super m) a
  = Done x (set_handle_to_classic_connection_map_
              (<[handle := set_classic_base base link]>
                 (handle_to_classic_connection_map_ a)) a) t.
Proof.
  intros Hat Hm. unfold on_classic_link, classic_super, bind, get, zoom. cbn.
  rewrite Hat. cbn. rewrite Hm. reflexivity.
Qed.

Lemma classic_link_get_Done {A} (a : Acl) (handle : Z)
  (getter : ClassicShimAclConnection -> A) link :
  handle_to_classic_connection_map_ a !! handle = Some link ->
  classic_link_get handle getter a = Done (getter link) a [].
Proof.
  intros Hat. unfold classic_link_get, bind, get. cbn. rewrite Hat.
  reflexivity.
Qed.

Lemma erase_classic_Done (a : Acl) (handle : Z) link :
  handle_to_classic_connection_map_ a !! handle = Some link ->
  is_disconnected_ (classic_base link) = true ->
  exists t,
    erase_classic handle a
    = Done tt (set_handle_to_classic_connection_map_
                 (delete handle (handle_to_classic_connection_map_ a)) a)
        (t ++ [RegistryErase handle])
    /\ Forall (fun e => quiet e = true) t.
Proof.
  intros Hat Hlatch.
  destruct (ShimAclConnection_delete_Done _ Hlatch) as (t & Hdel & Hquiet).
  exists t. split; [|exact Hquiet].
  unfold erase_classic. unfold bind at 1. unfold get at 1. cbn beta iota.
  rewrite Hat, after_no_effects.
  rewrite (bind_Done _ _ _ _ _ _ (on_classic_link_Done a handle _ link _ _ _
                                    Hat Hdel)).
  destruct a as [iface cmap lmap hist shadow ar]. cbn.
  rewrite delete_insert_eq. reflexivity.
Qed.

(** The classic disconnect handler on a link whose latch is set. *)
Lemma OnClassicLinkDisconnected_Done (a : Acl) (handle : Z)
  (reason : ErrorCode) (now : Z) link :
  connection_classic_on_disconnected (acl_interface_ a) = true ->
  max_size_ (connection_history_ a) <> 0 ->
  handle_to_classic_connection_map_ a !! handle = Some link ->
  is_disconnected_ (classic_base link) = true ->
  let descriptor :=
    MkConnectionDescriptor (ClassicRemote (classic_GetRemoteAddress link))
      (creation_time_ (classic_base link)) now handle
      (classic_IsLocallyInitiated link) reason in
  exists a' t,
    OnClassicLinkDisconnected handle reason now a
    = Done tt a'
        (t ++ [RegistryErase handle;
               Post (classic_on_disconnected (ToLegacyHciErrorCode SUCCESS)
                       handle (ToLegacyHciErrorCode reason));
               Log DEBUG
                 "Disconnected classic link remote:{} handle:{} reason:{}"
                 [ArgAddress (classic_GetRemoteAddress link); ArgNum handle;
                  ArgErrorCode reason];
               BtmLogHistoryRaw kBtmLogTag
                 (ToRawAddress (classic_GetRemoteAddress link))
                 "Disconnected" "classic reason:%s" [ArgErrorCode reason];
               HistoryPush descriptor])
    /\ Forall (fun e => quiet e = true) t
    /\ handle_to_classic_connection_map_ a' !! handle = None
    /\ last (fq_queue_ (connection_history_ a')) = Some descriptor.
Proof.
  intros Hcb Hmax Hat Hlatch descriptor.
  destruct (erase_classic_Done a handle link Hat Hlatch)
    as (t & Herase & Hquiet).
  destruct (FixedQueue_Push_Done descriptor (connection_history_ a) Hmax)
    as (kept & Hpush).
  unfold OnClassicLinkDisconnected.
  rewrite !(bind_Done _ _ _ _ _ _ (classic_link_get_Done a handle _ link Hat)).
  rewrite !after_no_effects.
  rewrite (bind_Done _ _ _ _ _ _ Herase).
  destruct a as [iface cmap lmap hist shadow ar].
  cbn in Hcb, Hmax, Hat, Hpush.
  unfold push_history, on_connection_history, TRY_POSTING_ON_MAIN,
    bind, get, zoom, tell, log. cbn.
  rewrite Hcb. cbn. fold descriptor. rewrite Hpush. cbn.
  eexists _, t. split; [rewrite <- app_assoc; reflexivity|].
  cbn. split; [exact Hquiet|]. split; [apply lookup_delete_eq|].
  apply last_snoc.
Qed.

(** The disconnected event on the classic link registered at [handle]. *)
Lemma classic_OnDisconnection_Done (a : Acl) (handle : Z)
  (reason : ErrorCode) (now : Z) link :
  connection_classic_on_disconnected (acl_interface_ a) = true ->
  max_size_ (connection_history_ a) <> 0 ->
  handle_to_classic_connection_map_ a !! handle = Some link ->
  handle_ (classic_base link) = handle ->
  let descriptor :=
    MkConnectionDescriptor (ClassicRemote (classic_GetRemoteAddress link))
      (creation_time_ (classic_base link)) now handle
      (classic_IsLocallyInitiated link) reason in
  exists a' t,
    classic_OnDisconnection handle reason now a
    = Done tt a'
        (t ++ [RegistryErase handle;
               Post (classic_on_disconnected (ToLegacyHciErrorCode SUCCESS)
                       handle (ToLegacyHciErrorCode reason));
               Log DEBUG
                 "Disconnected classic link remote:{} handle:{} reason:{}"
                 [ArgAddress (classic_GetRemoteAddress link); ArgNum handle;
                  ArgErrorCode reason];
               BtmLogHistoryRaw kBtmLogTag
                 (ToRawAddress (classic_GetRemoteAddress link))
                 "Disconnected" "classic reason:%s" [ArgErrorCode reason];
               HistoryPush descriptor])
    /\ Forall (fun e => quiet e = true) t
    /\ handle_to_classic_connection_map_ a' !! handle = None
    /\ last (fq_queue_ (connection_history_ a')) = Some descriptor.
Proof.
  intros Hcb Hmax Hat Hkey descriptor.
  destruct (ShimAclConnection_Disconnect_Done (classic_base link))
    as (base & t1 & Hdisc & Hlatch & Hhandle & Htime & Hquiet1).
  pose (a1 := set_handle_to_classic_connection_map_
                (<[handle := set_classic_base base link]>
                   (handle_to_classic_connection_map_ a)) a).
  assert (Hat1 : handle_to_classic_connection_map_ a1 !! handle
                 = Some (set_classic_base base link)).
  { destruct a. cbn. apply lookup_insert_eq. }
  destruct (OnClassicLinkDisconnected_Done a1 handle reason now
              (set_classic_base base link))
    as (a' & t2 & Hrun & Hquiet2 & Hgone & Hlast).
  { destruct a; exact Hcb. }
  { destruct a; exact Hmax. }
  { exact Hat1. }
  { exact Hlatch. }
  unfold classic_OnDisconnection.
  rewrite (bind_Done _ _ _ _ _ _ (on_classic_link_Done a handle _ link _ _ _
                                    Hat Hdisc)).
  fold a1.
  rewrite (bind_Done _ _ _ _ _ _ (classic_link_get_Done a1 handle _ _ Hat1)).
  rewrite after_no_effects.
  cbn [set_classic_base classic_base]. rewrite Hhandle, Hkey.
  rewrite Hrun. cbn [after_effects].
  cbn [set_classic_base classic_base classic_GetRemoteAddress
       classic_IsLocallyInitiated classic_connection_] in *.
  rewrite Htime in *.
  exists a', (t1 ++ t2). split; [rewrite <- app_assoc; reflexivity|].
  split; [apply Forall_app; split; assumption|].
  split; assumption.
Qed.

Lemma on_le_link_Done {A} (a : Acl) (handle : Z)
  (m : M ShimAclConnection A) link x base t :
  handle_to_le_connection_map_ a !! handle = Some link ->
  m (le_base link) = Done x base t ->
  on_le_link handle (le_super m) a
  = Done x (set_handle_to_le_connection_map_
              (<[handle := set_le_base base link]>
                 (handle_to_le_connection_map_ a)) a) t.
Proof.
  intros Hat Hm. unfold on_le_link, le_super, bind, get, zoom. cbn.
  rewrite Hat. cbn. rewrite Hm. reflexivity.
Qed.

Lemma le_link_get_Done {A} (a : Acl) (handle : Z)
  (getter : LeShimAclConnection -> A) link :
  handle_to_le_connection_map_ a !! handle = Some link ->
  le_link_get handle getter a = Done (getter link) a [].
Proof.
  intros Hat. unfold le_link_get, bind, get. cbn. rewrite Hat.
  reflexivity.
Qed.

Lemma erase_le_Done (a : Acl) (handle : Z) link :
  handle_to_le_connection_map_ a !! handle = Some link ->
  is_disconnected_ (le_base link) = true ->
  exists t,
    erase_le handle a
    = Done tt (set_handle_to_le_connection_map_
                 (delete handle (handle_to_le_connection_map_ a)) a)
        (t ++ [RegistryErase handle])
    /\ Forall (fun e => quiet e = true) t.
Proof.
  intros Hat Hlatch.
  destruct (ShimAclConnection_delete_Done _ Hlatch) as (t & Hdel & Hquiet).
  exists t. split; [|exact Hquiet].
  unfold erase_le. unfold bind at 1. unfold get at 1. cbn beta iota.
  rewrite Hat, after_no_effects.
  rewrite (bind_Done _ _ _ _ _ _ (on_le_link_Done a handle _ link _ _ _
                                    Hat Hdel)).
  destruct a as [iface cmap lmap hist shadow ar]. cbn.
  rewrite delete_insert_eq. reflexivity.
Qed.

(** The LE disconnect handler on a link whose latch is set. *)
Lemma OnLeLinkDisconnected_Done (a : Acl) (handle : Z)
  (reason : ErrorCode) (now : Z) link :
  connection_le_on_disconnected (acl_interface_ a) = true ->
  max_size_ (connection_history_ a) <> 0 ->
  handle_to_le_connection_map_ a !! handle = Some link ->
  is_disconnected_ (le_base link) = true ->
  let descriptor :=
    MkConnectionDescriptor (LeRemote (GetRemoteAddressWithType link))
      (creation_time_ (le_base link)) now handle
      (le_IsLocallyInitiated link) reason in
  exists a' t,
    OnLeLinkDisconnected handle reason now a
    = Done tt a'
        (t ++ [RegistryErase handle;
               Post (le_on_disconnected (ToLegacyHciErrorCode SUCCESS)
                       handle (ToLegacyHciErrorCode reason));
               Log DEBUG
                 "Disconnected le link remote:{} handle:{} reason:{}"
                 [ArgAddressWithType (GetRemoteAddressWithType link);
                  ArgNum handle;
                  ArgErrorCode reason];
               BtmLogHistoryBle kBtmLogTag
                 (ToLegacyAddressWithType (GetRemoteAddressWithType link))
                 "Disconnected" "Le reason:%s" [ArgErrorCode reason];
               HistoryPush descriptor])
    /\ Forall (fun e => quiet e = true) t
    /\ handle_to_le_connection_map_ a' !! handle = None
    /\ last (fq_queue_ (connection_history_ a')) = Some descriptor.
Proof.
  intros Hcb Hmax Hat Hlatch descriptor.
  destruct (erase_le_Done a handle link Hat Hlatch)
    as (t & Herase & Hquiet).
  destruct (FixedQueue_Push_Done descriptor (connection_history_ a) Hmax)
    as (kept & Hpush).
  unfold OnLeLinkDisconnected.
  rewrite !(bind_Done _ _ _ _ _ _ (le_link_get_Done a handle _ link Hat)).
  rewrite !after_no_effects.
  rewrite (bind_Done _ _ _ _ _ _ Herase).
  destruct a as [iface cmap lmap hist shadow ar].
  cbn in Hcb, Hmax, Hat, Hpush.
  unfold push_history, on_connection_history, TRY_POSTING_ON_MAIN,
    bind, get, zoom, tell, log. cbn.
  rewrite Hcb. cbn. fold descriptor. rewrite Hpush. cbn.
  eexists _, t. split; [rewrite <- app_assoc; reflexivity|].
  cbn. split; [exact Hquiet|]. split; [apply lookup_delete_eq|].
  apply last_snoc.
Qed.

(** The disconnected event on the LE link registered at [handle]. *)
Lemma le_OnDisconnection_Done (a : Acl) (handle : Z)
  (reason : ErrorCode) (now : Z) link :
  connection_le_on_disconnected (acl_interface_ a) = true ->
  max_size_ (connection_history_ a) <> 0 ->
  handle_to_le_connection_map_ a !! handle = Some link ->
  handle_ (le_base link) = handle ->
  let descriptor :=
    MkConnectionDescriptor (LeRemote (GetRemoteAddressWithType link))
      (creation_time_ (le_base link)) now handle
      (le_IsLocallyInitiated link) reason in
  exists a' t,
    le_OnDisconnection handle reason now a
    = Done tt a'
        (t ++ [RegistryErase handle;
               Post (le_on_disconnected (ToLegacyHciErrorCode SUCCESS)
                       handle (ToLegacyHciErrorCode reason));
               Log DEBUG
                 "Disconnected le link remote:{} handle:{} reason:{}"
                 [ArgAddressWithType (GetRemoteAddressWithType link);
                  ArgNum handle;
                  ArgErrorCode reason];
               BtmLogHistoryBle kBtmLogTag
                 (ToLegacyAddressWithType (GetRemoteAddressWithType link))
                 "Disconnected" "Le reason:%s" [ArgErrorCode reason];
               HistoryPush descriptor])
    /\ Forall (fun e => quiet e = true) t
    /\ handle_to_le_connection_map_ a' !! handle = None
    /\ last (fq_queue_ (connection_history_ a')) = Some descriptor.
Proof.
  intros Hcb Hmax Hat Hkey descriptor.
  destruct (ShimAclConnection_Disconnect_Done (le_base link))
    as (base & t1 & Hdisc & Hlatch & Hhandle & Htime & Hquiet1).
  pose (a1 := set_handle_to_le_connection_map_
                (<[handle := set_le_base base link]>
                   (handle_to_le_connection_map_ a)) a).
  assert (Hat1 : handle_to_le_connection_map_ a1 !! handle
                 = Some (set_le_base base link)).
  { destruct a. cbn. apply lookup_insert_eq. }
  destruct (OnLeLinkDisconnected_Done a1 handle reason now
              (set_le_base base link))
    as (a' & t2 & Hrun & Hquiet2 & Hgone & Hlast).
  { destruct a; exact Hcb. }
  { destruct a; exact Hmax. }
  { exact Hat1. }
  { exact Hlatch. }
  unfold le_OnDisconnection.
  rewrite (bind_Done _ _ _ _ _ _ (on_le_link_Done a handle _ link _ _ _
                                    Hat Hdisc)).
  fold a1.
  rewrite (bind_Done _ _ _ _ _ _ (le_link_get_Done a1 handle _ _ Hat1)).
  rewrite after_no_effects.
  cbn [set_le_base le_base]. rewrite Hhandle, Hkey.
  rewrite Hrun. cbn [after_effects].
  cbn [set_le_base le_base GetRemoteAddressWithType
       le_IsLocallyInitiated le_connection_] in *.
  rewrite Htime in *.
  exists a', (t1 ++ t2). split; [rewrite <- app_assoc; reflexivity|].
  split; [apply Forall_app; split; assumption|].
  split; assumption.
Qed.

Lemma ValidateAclInterface_callbacks (acl_interface : acl_interface_t) :
  ValidateAclInterface acl_interface = true ->
  connection_classic_on_disconnected acl_interface = true
  /\ connection_le_on_connected acl_interface = true
  /\ connection_le_on_disconnected acl_interface = true.
Proof.
  unfold ValidateAclInterface. intros H.
  repeat (apply andb_prop in H; destruct H as [H ?]). auto.
Qed.

(** The order of the effects of a disconnected event, from the shape of
    its trace. *)
Lemma disconnected_trace_order (handle : Z) (t : list Effect)
  (post log_line history_line : Effect) (descriptor : ConnectionDescriptor) :
  Forall (fun e => quiet e = true) t ->
  is_on_disconnected_post handle post = true ->
  quiet log_line = true ->
  quiet history_line = false ->
  is_on_disconnected_post handle history_line = false ->
  is_history_push handle history_line = false ->
  cd_handle_ descriptor = handle ->
  posted_once_before_history_push handle
    (t ++ [RegistryErase handle; post; log_line; history_line;
           HistoryPush descriptor]).
Proof.
  intros Hquiet Hpost Hlog Hnq Hhist1 Hhist2 Hhandle.
  assert (Hpost_push : is_history_push handle post = false).
  { destruct post as [| | |cb| | | | |]; try discriminate. reflexivity. }
  unfold posted_once_before_history_push.
  rewrite !occurrences_app.
  rewrite (occurrences_quiet _ t (quiet_not_on_disconnected_post handle)
             Hquiet).
  rewrite (occurrences_quiet _ t (quiet_not_history_push handle) Hquiet).
  rewrite !(only_after_quiet _ _ t) by
    (assumption || apply quiet_not_on_disconnected_post
     || apply quiet_not_history_push || apply quiet_not_registry_erase).
  cbn. rewrite Hpost, Hpost_push, Hhist1, Hhist2, Hhandle, !Z.eqb_refl.
  rewrite (quiet_not_on_disconnected_post handle log_line Hlog).
  rewrite (quiet_not_history_push handle log_line Hlog).
  cbn. auto.
Qed.

(** C1, in the order of the handlers: when the disconnected event tears down
    the link of a handle, classic or LE, the handler runs to its end, the
    link has left the registry, [on_disconnected] for the handle is the one
    closure posted, it is posted after the link left the registry and before
    the history entry of the handle is pushed, and that entry is pushed once
    and is the newest of the ring. *)
Theorem disconnected_event_posts_once_then_pushes_history
  (a : Acl) (handle : Z) (reason : ErrorCode) (now : Z) :
  ValidateAclInterface (acl_interface_ a) = true ->
  max_size_ (connection_history_ a) <> 0 ->
  (forall link : ClassicShimAclConnection,
      handle_to_classic_connection_map_ a !! handle = Some link ->
      handle_ (classic_base link) = handle ->
      let r := classic_OnDisconnection handle reason now a in
      completed r = true
      /\ handle_to_classic_connection_map_ (state_of r) !! handle = None
      /\ posts (trace_of r)
         = [classic_on_disconnected (ToLegacyHciErrorCode SUCCESS) handle
              (ToLegacyHciErrorCode reason)]
      /\ posted_once_before_history_push handle (trace_of r)
      /\ last (fq_queue_ (connection_history_ (state_of r)))
         = Some (MkConnectionDescriptor
                   (ClassicRemote (classic_GetRemoteAddress link))
                   (creation_time_ (classic_base link)) now handle
                   (classic_IsLocallyInitiated link) reason))
  /\ (forall link : LeShimAclConnection,
         handle_to_le_connection_map_ a !! handle = Some link ->
         handle_ (le_base link) = handle ->
         let r := le_OnDisconnection handle reason now a in
         completed r = true
         /\ handle_to_le_connection_map_ (state_of r) !! handle = None
         /\ posts (trace_of r)
            = [le_on_disconnected (ToLegacyHciErrorCode SUCCESS) handle
                 (ToLegacyHciErrorCode reason)]
         /\ posted_once_before_history_push handle (trace_of r)
         /\ last (fq_queue_ (connection_history_ (state_of r)))
            = Some (MkConnectionDescriptor
                      (LeRemote (GetRemoteAddressWithType link))
                      (creation_time_ (le_base link)) now handle
                      (le_IsLocallyInitiated link) reason)).
Proof.
  intros Hvalid Hmax.
  destruct (ValidateAclInterface_callbacks _ Hvalid) as (Hclassic & _ & Hle).
  split; intros link Hat Hkey; cbn zeta.
  - destruct (classic_OnDisconnection_Done a handle reason now link
                Hclassic Hmax Hat Hkey)
      as (a' & t & Hrun & Hquiet & Hgone & Hlast).
    rewrite Hrun. cbn [completed state_of trace_of].
    split; [reflexivity|]. split; [exact Hgone|].
    split; [|split; [|exact Hlast]].
    + unfold posts. rewrite omap_app. fold (posts t).
      rewrite (posts_quiet t Hquiet). reflexivity.
    + apply disconnected_trace_order; try reflexivity; try assumption.
      cbn. apply Z.eqb_refl.
  - destruct (le_OnDisconnection_Done a handle reason now link
                Hle Hmax Hat Hkey)
      as (a' & t & Hrun & Hquiet & Hgone & Hlast).
    rewrite Hrun. cbn [completed state_of trace_of].
    split; [reflexivity|]. split; [exact Hgone|].
    split; [|split; [|exact Hlast]].
    + unfold posts. rewrite omap_app. fold (posts t).
      rewrite (posts_quiet t Hquiet). reflexivity.
    + apply disconnected_trace_order; try reflexivity; try assumption.
      cbn. apply Z.eqb_refl.
Qed.

(** C2: on an LE connect-success event for a handle that has no link
    yet, the link is built and registered; if it reports that it was not
    in the controller's filter accept list and the role is central,
    [InitiateDisconnect] is called on it with
    REMOTE_USER_TERMINATED_CONNECTION and nothing is posted to the main
    thread; in every other case [on_connected] is posted and no
    disconnect is asked for. *)
Theorem le_connect_success_cancelled_or_announced
  (a : Acl) (address_with_type : AddressWithType)
  (connection : LeAclConnection) (now : Z) :
  ValidateAclInterface (acl_interface_ a) = true ->
  handle_to_le_connection_map_ a !! le_GetHandle connection = None ->
  let handle := le_GetHandle connection in
  let link := new_le_link a connection now in
  let r := OnLeConnectSuccess address_with_type connection now a in
  completed r = true
  /\ handle_to_le_connection_map_ (state_of r) !! handle = Some link
  /\ if negb (IsInFilterAcceptList link)
        && bool_decide (le_GetRole connection = CENTRAL)
     then
       lower_calls (trace_of r)
       = [Call_RegisterDequeue handle; Call_RegisterCallbacks handle;
          Call_Disconnect (handle_ (le_base link))
                          REMOTE_USER_TERMINATED_CONNECTION]
       /\ posts (trace_of r) = []
     else
       posts (trace_of r)
       = [le_on_connected
            (ToLegacyAddressWithType address_with_type) handle
            (ToLegacyRole (le_GetRole connection))
            (interval_ connection) (latency_ connection)
            (supervision_timeout_ connection)
            (ToRawAddress (local_resolvable_private_address_ connection))
            (ToRawAddress (peer_resolvable_private_address_ connection))
            (GetAddressType (peer_address_with_type_ connection))
            match GetRoleSpecificData connection with
            | DataAsPeripheral _ connected_to_discoverable =>
                connected_to_discoverable
            | _ => true
            end]
       /\ lower_calls (trace_of r)
          = [Call_RegisterDequeue handle; Call_RegisterCallbacks handle].
Proof.
  intros Hvalid Hfresh.
  destruct (ValidateAclInterface_callbacks _ Hvalid) as (_ & Hcb & _).
  destruct (OnLeConnectSuccess_fresh a address_with_type connection now Hfresh)
    as (Hdone & Hmap & _ & Heffects).
  cbn zeta. split; [exact Hdone|]. split.
  - rewrite Hmap. apply lookup_insert_eq.
  - rewrite Hcb in Heffects.
    change (IsInFilterAcceptList (new_le_link a connection now))
      with (le_IsInFilterAcceptList connection).
    destruct (negb (le_IsInFilterAcceptList connection)
              && bool_decide (le_GetRole connection = CENTRAL));
      destruct Heffects as [H1 H2]; split; assumption.
Qed.

(** C3: on an LE connect-success event for a handle that has no link
    yet, the entry of the peer's identity address leaves the shadow
    accept list: the identity is the connection's peer address field when
    the reported address is a random device address whose sixth byte has
    its two top bits equal to 01, and the reported address otherwise;
    afterwards the shadow accept list does not contain it. *)
Theorem le_connect_success_removes_identity
  (a : Acl) (address_with_type : AddressWithType)
  (connection : LeAclConnection) (now : Z) :
  handle_to_le_connection_map_ a !! le_GetHandle connection = None ->
  let identity :=
    if IsRpa address_with_type then peer_address_with_type_ connection
    else address_with_type in
  let r := OnLeConnectSuccess address_with_type connection now a in
  (IsRpa address_with_type = true <->
   GetAddressType address_with_type = RANDOM_DEVICE_ADDRESS
   /\ Z.land (a5 (GetAddress address_with_type)) 0xc0 = 0x40)
  /\ completed r = true
  /\ acceptlist_set_ (shadow_acceptlist_ (state_of r))
     = acceptlist_set_ (shadow_acceptlist_ a)
       ∖ {[ ConnectAddressWithType_of identity ]}
  /\ ConnectAddressWithType_of identity
     ∉ acceptlist_set_ (shadow_acceptlist_ (state_of r)).
Proof.
  intros Hfresh.
  destruct (OnLeConnectSuccess_fresh a address_with_type connection now Hfresh)
    as (Hdone & _ & Hset & _).
  cbn zeta. split; [|split; [exact Hdone|split; [exact Hset|]]].
  - unfold IsRpa. cbn [data].
    rewrite andb_true_iff, bool_decide_eq_true, Z.eqb_eq. reflexivity.
  - rewrite Hset. set_solver.
Qed.

End Properties.

(** * Properties of the further functions *)

Section FurtherProperties.

Context {helpers : Helpers}.

(** ** The history ring *)

Lemma keep_last_length {T} (n : nat) (l : list T) :
  length (keep_last n l) = Nat.min n (length l).
Proof. unfold keep_last. rewrite length_drop. lia. Qed.

Lemma keep_last_app {T} (n : nat) (l l' : list T) :
  keep_last n (keep_last n l ++ l') = keep_last n (l ++ l').
Proof.
  unfold keep_last. rewrite !length_app, length_drop.
  set (k := (length l - n)%nat).
  rewrite <- (drop_app_le l l' k) by (unfold k; lia).
  rewrite drop_drop. f_equal. unfold k. lia.
Qed.

Lemma FixedQueue_Push_keep_last {T} (n : nat) (q : list T) (element : T) :
  (0 < n)%nat -> (length q <= n)%nat ->
  FixedQueue_Push element (MkFixedQueue (Z.of_nat n) q)
  = Done tt (MkFixedQueue (Z.of_nat n) (keep_last n (q ++ [element]))) [].
Proof.
  intros Hn Hlen.
  unfold FixedQueue_Push, bind, get, modify. cbn [fq_queue_ max_size_].
  unfold keep_last. rewrite length_app. cbn [length].
  destruct (Z.eqb_spec (Z.of_nat (length q)) (Z.of_nat n)) as [Hfull|Hroom].
  - apply Nat2Z.inj in Hfull. destruct q as [|x rest]; cbn in Hfull; [lia|].
    cbn. replace (length rest + 1 - n)%nat with 0%nat by lia.
    subst n. cbn [length]. replace (S (length rest + 1) - S (length rest))%nat
      with 1%nat by lia. reflexivity.
  - assert (length q <> n) by congruence.
    replace (length q + 1 - n)%nat with 0%nat by lia. reflexivity.
Qed.

Lemma FixedQueue_push_all_keep_last {T} (n : nat) (elements : list T) :
  (0 < n)%nat ->
  forall q : list T,
    (length q <= n)%nat ->
    FixedQueue_push_all elements (MkFixedQueue (Z.of_nat n) q)
    = Done tt (MkFixedQueue (Z.of_nat n) (keep_last n (q ++ elements))) [].
Proof.
  intros Hn. induction elements as [|element rest IH]; intros q Hlen.
  - cbn. unfold ret. rewrite app_nil_r. unfold keep_last.
    replace (length q - n)%nat with 0%nat by lia. reflexivity.
  - cbn [FixedQueue_push_all].
    rewrite (bind_Done _ _ _ _ _ _
               (FixedQueue_Push_keep_last n q element Hn Hlen)).
    rewrite after_no_effects, IH.
    + rewrite keep_last_app, <- app_assoc. reflexivity.
    + rewrite keep_last_length. lia.
Qed.

(** X1: a history ring of capacity n > 0 that holds at most n entries
    takes any number of pushes without fault and then holds the last n
    of the entries it held and the ones pushed, in the order they came:
    the oldest are evicted first and the ring never exceeds its
    capacity. *)
Theorem history_ring_keeps_newest {T} (n : nat) (q elements : list T) :
  (0 < n)%nat ->
  (length q <= n)%nat ->
  let r := FixedQueue_push_all elements (MkFixedQueue (Z.of_nat n) q) in
  completed r = true
  /\ trace_of r = []
  /\ max_size_ (state_of r) = Z.of_nat n
  /\ fq_queue_ (state_of r) = drop (length (q ++ elements) - n) (q ++ elements)
  /\ length (fq_queue_ (state_of r))
     = Nat.min n (length q + length elements).
Proof.
  intros Hn Hlen. cbn zeta.
  rewrite (FixedQueue_push_all_keep_last n elements Hn q Hlen).
  cbn. repeat split. rewrite keep_last_length, length_app. reflexivity.
Qed.

(** ** The shadow lists *)

Lemma size_insert_le `{Countable K} (k : K) (X : gset K) :
  (size ({[ k ]} ∪ X) <= S (size X))%nat.
Proof.
  rewrite size_union_alt, size_singleton.
  pose proof (subseteq_size (X ∖ {[ k ]}) X) as Hle.
  assert (X ∖ {[ k ]} ⊆ X) as Hsub by set_solver.
  specialize (Hle Hsub). lia.
Qed.

Lemma size_remove_le `{Countable K} (k : K) (X : gset K) :
  (size (X ∖ {[ k ]}) <= size X)%nat.
Proof. apply subseteq_size. set_solver. Qed.

Lemma size_remove_member `{Countable K} (k : K) (X : gset K) :
  k ∈ X -> S (size (X ∖ {[ k ]})) = size X.
Proof.
  intros Hin. rewrite size_difference by set_solver.
  rewrite size_singleton.
  assert (size X <> 0%nat) by (apply size_non_empty_iff; set_solver).
  lia.
Qed.

Lemma run_acceptlist_op_bound (op : ShadowOp) (l : ShadowAcceptlist) :
  acceptlist_size l <= max_acceptlist_size_ l ->
  completed (run_acceptlist_op op l) = true
  /\ max_acceptlist_size_ (state_of (run_acceptlist_op op l))
     = max_acceptlist_size_ l
  /\ acceptlist_size (state_of (run_acceptlist_op op l))
     <= max_acceptlist_size_ l.
Proof.
  destruct l as [max set]. unfold acceptlist_size. cbn. intros Hle.
  destruct op as [x|x|];
    unfold run_acceptlist_op, ShadowAcceptlist_Add, ShadowAcceptlist_Remove,
      ShadowAcceptlist_Clear, acceptlist_size, bind, get, modify, log, tell,
      ret; cbn.
  - destruct (Z.eqb_spec (Z.of_nat (size set)) max) as [Hfull|Hroom]; cbn;
      [auto|].
    destruct (bool_decide _); cbn; (split; [reflexivity|split; [reflexivity|]]);
      pose proof (size_insert_le (ConnectAddressWithType_of x) set); lia.
  - destruct (bool_decide _); cbn; (split; [reflexivity|split; [reflexivity|]]);
      [|assumption].
    pose proof (size_remove_le (ConnectAddressWithType_of x) set). lia.
  - rewrite size_empty. split; [reflexivity|split; [reflexivity|lia]].
Qed.

Lemma run_resolution_op_bound (op : ShadowOp)
  (l : ShadowAddressResolutionList) :
  ShadowAddressResolutionList_Size l <= max_address_resolution_size_ l ->
  completed (run_resolution_op op l) = true
  /\ max_address_resolution_size_ (state_of (run_resolution_op op l))
     = max_address_resolution_size_ l
  /\ ShadowAddressResolutionList_Size (state_of (run_resolution_op op l))
     <= max_address_resolution_size_ l.
Proof.
  destruct l as [max set]. unfold ShadowAddressResolutionList_Size. cbn.
  intros Hle.
  destruct op as [x|x|];
    unfold run_resolution_op, ShadowAddressResolutionList_Add,
      ShadowAddressResolutionList_Remove, ShadowAddressResolutionList_Clear,
      ShadowAddressResolutionList_Size, bind, get, modify, log, tell, ret;
    cbn.
  - destruct (Z.eqb_spec (Z.of_nat (size set)) max) as [Hfull|Hroom]; cbn;
      [auto|].
    destruct (bool_decide _); cbn; (split; [reflexivity|split; [reflexivity|]]);
      pose proof (size_insert_le x set); lia.
  - destruct (bool_decide _); cbn; (split; [reflexivity|split; [reflexivity|]]);
      [|assumption].
    pose proof (size_remove_le x set). lia.
  - rewrite size_empty. split; [reflexivity|split; [reflexivity|lia]].
Qed.

(** X2: a shadow list that is within its capacity stays within it under
    any sequence of [Add], [Remove] and [Clear], none of which can fail,
    and its capacity never changes; this holds for the accept list and
    for the address-resolution list. *)
Theorem shadow_lists_stay_within_capacity (ops : list ShadowOp) :
  (forall l : ShadowAcceptlist,
      acceptlist_size l <= max_acceptlist_size_ l ->
      let r := run_acceptlist_ops ops l in
      completed r = true
      /\ max_acceptlist_size_ (state_of r) = max_acceptlist_size_ l
      /\ acceptlist_size (state_of r) <= max_acceptlist_size_ l)
  /\ (forall l : ShadowAddressResolutionList,
         ShadowAddressResolutionList_Size l <= max_address_resolution_size_ l ->
         let r := run_resolution_ops ops l in
         completed r = true
         /\ max_address_resolution_size_ (state_of r)
            = max_address_resolution_size_ l
         /\ ShadowAddressResolutionList_Size (state_of r)
            <= max_address_resolution_size_ l).
Proof.
  split; induction ops as [|op ops IH]; intros l Hle; cbn zeta.
  - cbn. auto.
  - destruct (run_acceptlist_op_bound op l Hle) as (Hdone & Hmax & Hsize).
    cbn [run_acceptlist_ops]. unfold bind.
    destruct (run_acceptlist_op op l) as [[] l1 t1|f l1 t1];
      cbn in Hdone, Hmax, Hsize; [|discriminate].
    rewrite completed_after_effects, state_of_after_effects.
    rewrite <- Hmax in Hsize |- *. exact (IH l1 Hsize).
  - cbn. auto.
  - destruct (run_resolution_op_bound op l Hle) as (Hdone & Hmax & Hsize).
    cbn [run_resolution_ops]. unfold bind.
    destruct (run_resolution_op op l) as [[] l1 t1|f l1 t1];
      cbn in Hdone, Hmax, Hsize; [|discriminate].
    rewrite completed_after_effects, state_of_after_effects.
    rewrite <- Hmax in Hsize |- *. exact (IH l1 Hsize).
Qed.

(** X3: on a shadow list within its capacity, [Remove] of an entry that
    is in the list followed by [Add] of the same entry succeeds twice and
    gives back the list as it was. *)
Theorem remove_then_add_of_member_restores :
  (forall (l : ShadowAcceptlist) (x : AddressWithType),
      acceptlist_size l <= max_acceptlist_size_ l ->
      ConnectAddressWithType_of x ∈ acceptlist_set_ l ->
      value_of (ShadowAcceptlist_Remove x l) = Some true
      /\ value_of (ShadowAcceptlist_remove_add x l) = Some true
      /\ state_of (ShadowAcceptlist_remove_add x l) = l)
  /\ (forall (l : ShadowAddressResolutionList) (x : AddressWithType),
         ShadowAddressResolutionList_Size l <= max_address_resolution_size_ l ->
         x ∈ address_resolution_set_ l ->
         value_of (ShadowAddressResolutionList_Remove x l) = Some true
         /\ value_of (ShadowAddressResolutionList_remove_add x l) = Some true
         /\ state_of (ShadowAddressResolutionList_remove_add x l) = l).
Proof.
  split.
  - intros [max set] x. unfold acceptlist_size. cbn. intros Hle Hin.
    pose proof (size_remove_member _ _ Hin) as Hsize.
    unfold ShadowAcceptlist_remove_add, ShadowAcceptlist_Remove,
      ShadowAcceptlist_Add, acceptlist_size, bind, get, modify, log, tell,
      ret. cbn.
    rewrite (bool_decide_eq_true_2 _ Hin). cbn.
    destruct (Z.eqb_spec
                (Z.of_nat (size (set ∖ {[ConnectAddressWithType_of x]}))) max)
      as [Hfull|Hroom]; [lia|]. cbn.
    rewrite bool_decide_eq_false_2 by set_solver. cbn.
    repeat split. unfold set_acceptlist_set_. cbn. f_equal.
    symmetry. apply union_difference_singleton_L. exact Hin.
  - intros [max set] x. unfold ShadowAddressResolutionList_Size. cbn.
    intros Hle Hin.
    pose proof (size_remove_member _ _ Hin) as Hsize.
    unfold ShadowAddressResolutionList_remove_add,
      ShadowAddressResolutionList_Remove, ShadowAddressResolutionList_Add,
      ShadowAddressResolutionList_Size, bind, get, modify, log, tell, ret.
    cbn.
    rewrite (bool_decide_eq_true_2 _ Hin). cbn.
    destruct (Z.eqb_spec (Z.of_nat (size (set ∖ {[x]}))) max)
      as [Hfull|Hroom]; [lia|]. cbn.
    rewrite bool_decide_eq_false_2 by set_solver. cbn.
    repeat split. unfold set_address_resolution_set_. cbn. f_equal.
    symmetry. apply union_difference_singleton_L. exact Hin.
Qed.

(** ** The command gateway *)

(** X4: [ignore_le] always asks the lower layer to cancel, once, also for
    an address the shadow accept list does not hold, in which case the
    manager is unchanged; and on a manager whose accept list is not full
    and does not hold the address, [accept_le] followed by [ignore_le]
    gives back the manager as it was, resolves the promise to true and
    calls the lower layer with [CreateLeConnection] and then
    [CancelLeConnect]. *)
Theorem accept_then_ignore_restores
  (a : Acl) (address_with_type : AddressWithType) (is_direct : bool) :
  ConnectAddressWithType_of address_with_type
  ∉ acceptlist_set_ (shadow_acceptlist_ a) ->
  (let r := ignore_le_connection_from address_with_type a in
   completed r = true
   /\ state_of r = a
   /\ lower_calls (trace_of r) = [Call_CancelLeConnect address_with_type])
  /\ (ShadowAcceptlist_IsFull (shadow_acceptlist_ a) = false ->
      let r := accept_then_ignore address_with_type is_direct a in
      completed r = true
      /\ state_of r = a
      /\ promise_values (trace_of r) = [true]
      /\ posts (trace_of r) = []
      /\ lower_calls (trace_of r)
         = [Call_CreateLeConnection address_with_type is_direct;
            Call_CancelLeConnect address_with_type]).
Proof.
  destruct a as [iface cmap lmap hist [max set] ar]. cbn. intros Hnew.
  split.
  - unfold ignore_le_connection_from, on_shadow_acceptlist,
      ShadowAcceptlist_Remove, zoom, bind, get, modify, log, tell, ret. cbn.
    rewrite (bool_decide_eq_false_2 _ Hnew). cbn. auto.
  - unfold ShadowAcceptlist_IsFull, acceptlist_size. cbn. intros Hroom.
    unfold accept_then_ignore, accept_le_connection_from,
      ignore_le_connection_from, on_shadow_acceptlist, ShadowAcceptlist_Add,
      ShadowAcceptlist_Remove, ShadowAcceptlist_IsFull, acceptlist_size,
      zoom, bind, get, modify, log, tell, ret. cbn.
    rewrite Hroom. cbn. rewrite Hroom. cbn.
    rewrite (bool_decide_eq_false_2 _ Hnew). cbn.
    rewrite bool_decide_eq_true_2 by set_solver. cbn.
    repeat split. unfold set_shadow_acceptlist_, set_acceptlist_set_. cbn.
    do 2 f_equal. set_solver.
Qed.

(** ** The event router: a handle that is still registered *)

(** X5: a connect-success event, classic or LE, for a handle that still
    has a link in the map of its transport stops at the assertion of the
    destructor of the link just built: the manager is as it was, the
    registered link is untouched, the shadow accept list has lost
    nothing, and nothing has been posted to the upper stack. *)
Theorem connect_success_on_registered_handle_stops (a : Acl) (now : Z) :
  (forall connection : ClassicAclConnection,
      is_Some (handle_to_classic_connection_map_ a
               !! classic_GetHandle connection) ->
      OnConnectSuccess connection now a
      = Stopped
          (AssertFailed "Shim Acl was not properly disconnected handle:0x%04x"
                        [ArgNum (classic_GetHandle connection)])
          a
          [Lower (Call_RegisterDequeue (classic_GetHandle connection));
           Log FATAL "Shim Acl was not properly disconnected handle:0x%04x"
               [ArgNum (classic_GetHandle connection)]])
  /\ (forall (address_with_type : AddressWithType)
             (connection : LeAclConnection),
         is_Some (handle_to_le_connection_map_ a !! le_GetHandle connection) ->
         OnLeConnectSuccess address_with_type connection now a
         = Stopped
             (AssertFailed
                "Shim Acl was not properly disconnected handle:0x%04x"
                [ArgNum (le_GetHandle connection)])
             a
             [Lower (Call_RegisterDequeue (le_GetHandle connection));
              Log FATAL "Shim Acl was not properly disconnected handle:0x%04x"
                  [ArgNum (le_GetHandle connection)]]).
Proof.
  split.
  - intros connection [link Hat].
    unfold OnConnectSuccess, emplace_classic, construct, destroy,
      classic_super, zoom, queue_up_end_RegisterDequeue,
      ShimAclConnection_delete, ASSERT_LOG, bind, get, modify, log, tell,
      ret, stop. cbn.
    rewrite Hat. reflexivity.
  - intros address_with_type connection [link Hat].
    unfold OnLeConnectSuccess, emplace_le, construct, destroy,
      le_super, zoom, queue_up_end_RegisterDequeue,
      ShimAclConnection_delete, ASSERT_LOG, bind, get, modify, log, tell,
      ret, stop. cbn.
    rewrite Hat. reflexivity.
Qed.

(** ** The link object: order and silence *)

Lemma bind_Done_inv {S A B} (m : M S A) (k : A -> M S B) s b s2 t :
  bind m k s = Done b s2 t ->
  exists a s1 t1 t2,
    m s = Done a s1 t1 /\ k a s1 = Done b s2 t2 /\ t = t1 ++ t2.
Proof.
  unfold bind. destruct (m s) as [a s1 t1|f s1 t1]; [|discriminate].
  destruct (k a s1) as [b' s2' t2|f s2' t2] eqn:Hk; cbn; [|discriminate].
  intros [= -> -> <-]. exists a, s1, t1, t2. auto.
Qed.

Lemma EnqueuePacket_Done_inv (packet : RawBuilder) (c c1 : ShimAclConnection)
  x t :
  EnqueuePacket packet c = Done x c1 t ->
  queue_ c1 = queue_ c ++ [packet].
Proof.
  destruct c as [h sdu [er dr inb] ct q reg disc].
  unfold EnqueuePacket, ShimAclConnection_RegisterEnqueue,
    queue_up_end_RegisterEnqueue, ASSERT_LOG, bind, get, modify, log, tell,
    ret, stop. cbn.
  destruct disc, reg; cbn; intros Heq; inversion Heq; subst; reflexivity.
Qed.

Lemma handle_enqueue_Done_inv (c c1 : ShimAclConnection) packet t :
  handle_enqueue c = Done packet c1 t ->
  queue_ c = packet :: queue_ c1.
Proof.
  destruct c as [h sdu [er dr inb] ct q reg disc].
  unfold handle_enqueue, ShimAclConnection_UnregisterEnqueue,
    queue_up_end_UnregisterEnqueue, bind, get, modify, tell, ret, stop. cbn.
  destruct q as [|p [|p' q]]; [discriminate| |]; destruct reg; cbn;
    intros Heq; inversion Heq; subst; reflexivity.
Qed.

Lemma Disconnect_Done_inv (c c1 : ShimAclConnection) x t :
  ShimAclConnection_Disconnect c = Done x c1 t -> queue_ c1 = queue_ c.
Proof.
  destruct c as [h sdu [er dr inb] ct q reg disc].
  unfold ShimAclConnection_Disconnect, ShimAclConnection_UnregisterEnqueue,
    queue_up_end_UnregisterEnqueue, queue_up_end_UnregisterDequeue,
    bind, get, modify, log, tell, ret. cbn.
  destruct disc, reg, q; cbn; intros Heq; inversion Heq; subst; reflexivity.
Qed.

Lemma run_ops_collect_conserves (ops : list LinkOp) :
  forall (c c' : ShimAclConnection) out t,
    run_ops_collect ops c = Done out c' t ->
    out ++ queue_ c' = queue_ c ++ enqueued ops.
Proof.
  induction ops as [|op ops IH]; intros c c' out t Hrun.
  - cbn in Hrun. injection Hrun as <- <- <-. cbn. rewrite app_nil_r.
    reflexivity.
  - destruct op as [packet| |]; cbn [run_ops_collect enqueued] in *.
    + apply bind_Done_inv in Hrun as (x & c1 & t1 & t2 & Hop & Hrest & _).
      cbn in Hop. apply EnqueuePacket_Done_inv in Hop.
      rewrite (IH _ _ _ _ Hrest), Hop, <- app_assoc. reflexivity.
    + apply bind_Done_inv in Hrun as (p & c1 & t1 & t2 & Hop & Hrest & _).
      apply bind_Done_inv in Hrest as (ps & c2 & t3 & t4 & Hrest & Hret & _).
      cbn in Hret. injection Hret as <- <- _.
      apply handle_enqueue_Done_inv in Hop.
      rewrite Hop. cbn. f_equal. exact (IH _ _ _ _ Hrest).
    + apply bind_Done_inv in Hrun as (x & c1 & t1 & t2 & Hop & Hrest & _).
      cbn in Hop. apply Disconnect_Done_inv in Hop.
      rewrite (IH _ _ _ _ Hrest), Hop. reflexivity.
Qed.

Lemma EnqueuePacket_live (packet : RawBuilder) (c : ShimAclConnection) :
  is_disconnected_ c = false ->
  exists c1 t,
    EnqueuePacket packet c = Done tt c1 t
    /\ queue_ c1 = queue_ c ++ [packet]
    /\ is_disconnected_ c1 = false.
Proof.
  destruct c as [h sdu [er dr inb] ct q reg disc]. cbn. intros ->.
  unfold EnqueuePacket, ShimAclConnection_RegisterEnqueue,
    queue_up_end_RegisterEnqueue, ASSERT_LOG, bind, get, modify, log, tell,
    ret, stop. cbn.
  destruct reg; cbn; eexists _, _; split; reflexivity || (split; reflexivity).
Qed.

Lemma handle_enqueue_nonempty (c : ShimAclConnection) packet rest :
  queue_ c = packet :: rest ->
  exists c1 t,
    handle_enqueue c = Done packet c1 t
    /\ queue_ c1 = rest
    /\ is_disconnected_ c1 = is_disconnected_ c.
Proof.
  destruct c as [h sdu [er dr inb] ct q reg disc]. cbn. intros ->.
  unfold handle_enqueue, ShimAclConnection_UnregisterEnqueue,
    queue_up_end_UnregisterEnqueue, bind, get, modify, tell, ret, stop. cbn.
  destruct rest, reg; cbn; eexists _, _;
    split; reflexivity || (split; reflexivity).
Qed.

Lemma drain_takes (n : nat) :
  forall c : ShimAclConnection,
    (n <= length (queue_ c))%nat ->
    exists c' t,
      run_ops_collect (replicate n OpHandleEnqueue) c
      = Done (take n (queue_ c)) c' t
      /\ queue_ c' = drop n (queue_ c).
Proof.
  induction n as [|n IH]; intros c Hlen.
  - exists c, []. cbn. rewrite drop_0. split; reflexivity.
  - destruct (queue_ c) as [|packet rest] eqn:Hq; cbn in Hlen; [lia|].
    destruct (handle_enqueue_nonempty c packet rest Hq)
      as (c1 & t1 & Hop & Hq1 & _).
    destruct (IH c1) as (c' & t2 & Hrest & Hq'); [rewrite Hq1; lia|].
    cbn [replicate run_ops_collect].
    rewrite (bind_Done _ _ _ _ _ _ Hop), (bind_Done _ _ _ _ _ _ Hrest).
    rewrite Hq1 in Hrest, Hq' |- *. cbn.
    eexists _, _. split; [reflexivity|exact Hq'].
Qed.

Lemma enqueue_all_then_drain_takes (packets : list RawBuilder) (n : nat) :
  forall c : ShimAclConnection,
    is_disconnected_ c = false ->
    (n <= length (queue_ c ++ packets))%nat ->
    exists c' t,
      enqueue_all_then_drain packets n c
      = Done (take n (queue_ c ++ packets)) c' t
      /\ queue_ c' = drop n (queue_ c ++ packets).
Proof.
  unfold enqueue_all_then_drain.
  induction packets as [|packet packets IH]; intros c Hlive Hlen.
  - rewrite app_nil_r in *. cbn [map app]. apply drain_takes, Hlen.
  - destruct (EnqueuePacket_live packet c Hlive)
      as (c1 & t1 & Hop & Hq1 & Hlive1).
    destruct (IH c1 Hlive1) as (c' & t2 & Hrest & Hq').
    { rewrite Hq1, <- app_assoc. exact Hlen. }
    cbn [map app run_ops_collect run_op].
    rewrite (bind_Done _ _ _ _ _ _ Hop), Hrest.
    rewrite Hq1, <- app_assoc in Hq' |- *. cbn.
    eexists _, _. split; [reflexivity|exact Hq'].
Qed.

(** X6: the outbound queue of a link is first in, first out.  Whatever
    the interleaving of enqueue_packet, handle_enqueue and disconnect, a
    run that reaches its end has handed to the lower queue, followed by
    what is still queued, exactly the packets that were queued at the
    start followed by the packets enqueued, in their order.  And on a
    link that is not disconnected, enqueueing any packets and then taking
    n of them, n no more than are queued, reaches its end and takes the
    first n. *)
Theorem outbound_queue_is_fifo (c : ShimAclConnection) :
  (forall (ops : list LinkOp) (c' : ShimAclConnection) out t,
      run_ops_collect ops c = Done out c' t ->
      out ++ queue_ c' = queue_ c ++ enqueued ops)
  /\ (forall (packets : list RawBuilder) (n : nat),
         is_disconnected_ c = false ->
         (n <= length (queue_ c ++ packets))%nat ->
         let r := enqueue_all_then_drain packets n c in
         value_of r = Some (take n (queue_ c ++ packets))
         /\ queue_ (state_of r) = drop n (queue_ c ++ packets)).
Proof.
  split.
  - intros ops c' out t. apply run_ops_collect_conserves.
  - intros packets n Hlive Hlen. cbn zeta.
    destruct (enqueue_all_then_drain_takes packets n c Hlive Hlen)
      as (c' & t & Hrun & Hq).
    rewrite Hrun. split; [reflexivity|exact Hq].
Qed.

Lemma run_op_after_disconnect (op : LinkOp) (c : ShimAclConnection) :
  is_disconnected_ c = true ->
  is_enqueue_registered_ c = false ->
  is_disconnected_ (state_of (run_op op c)) = true
  /\ is_enqueue_registered_ (state_of (run_op op c)) = false
  /\ queue_up_end_ (state_of (run_op op c)) = queue_up_end_ c
  /\ lower_calls (trace_of (run_op op c)) = [].
Proof.
  destruct c as [h sdu [er dr inb] ct q reg disc]. cbn. intros -> ->.
  destruct op as [packet| |];
    unfold run_op, EnqueuePacket, handle_enqueue,
      ShimAclConnection_Disconnect, ShimAclConnection_RegisterEnqueue,
      ShimAclConnection_UnregisterEnqueue, ASSERT_LOG, bind, get, modify,
      log, tell, ret, stop; cbn.
  - auto.
  - destruct q as [|p [|p' q]]; cbn; auto.
  - auto.
Qed.

Lemma run_ops_after_disconnect (ops : list LinkOp) :
  forall c : ShimAclConnection,
    is_disconnected_ c = true ->
    is_enqueue_registered_ c = false ->
    is_disconnected_ (state_of (run_ops ops c)) = true
    /\ queue_up_end_ (state_of (run_ops ops c)) = queue_up_end_ c
    /\ lower_calls (trace_of (run_ops ops c)) = [].
Proof.
  induction ops as [|op ops IH]; intros c Hlatch Hreg.
  - cbn. auto.
  - destruct (run_op_after_disconnect op c Hlatch Hreg)
      as (Hlatch1 & Hreg1 & Hqueue1 & Hcalls1).
    cbn [run_ops]. unfold bind.
    destruct (run_op op c) as [[] c1 t1|f c1 t1];
      cbn in Hlatch1, Hreg1, Hqueue1, Hcalls1.
    + destruct (IH c1 Hlatch1 Hreg1) as (Hlatch2 & Hqueue2 & Hcalls2).
      rewrite state_of_after_effects, trace_of_after_effects.
      unfold lower_calls in *. rewrite omap_app, Hcalls1, Hcalls2.
      rewrite Hqueue2, Hqueue1. auto.
    + cbn. auto.
Qed.

(** X7: once [Disconnect] has run on a link that was not disconnected,
    the link is silent towards the lower queue: whatever enqueue_packet,
    handle_enqueue and disconnect operations follow, the latch stays set,
    no call reaches the lower queue, the dequeue registration stays
    absent, and so does the enqueue registration when the link's latch
    agreed with the lower queue. *)
Theorem disconnected_link_never_calls_lower_queue
  (c : ShimAclConnection) (ops : list LinkOp) :
  is_disconnected_ c = false ->
  let disconnected := state_of (ShimAclConnection_Disconnect c) in
  let r := run_ops ops disconnected in
  completed (ShimAclConnection_Disconnect c) = true
  /\ is_disconnected_ (state_of r) = true
  /\ lower_calls (trace_of r) = []
  /\ dequeue_registration (queue_up_end_ (state_of r)) = false
  /\ (is_enqueue_registered_ c = enqueue_registration (queue_up_end_ c) ->
      enqueue_registration (queue_up_end_ (state_of r)) = false).
Proof.
  intros Hlive. cbn zeta.
  assert (Hafter :
            completed (ShimAclConnection_Disconnect c) = true
            /\ is_disconnected_ (state_of (ShimAclConnection_Disconnect c))
               = true
            /\ is_enqueue_registered_
                 (state_of (ShimAclConnection_Disconnect c)) = false
            /\ dequeue_registration
                 (queue_up_end_ (state_of (ShimAclConnection_Disconnect c)))
               = false
            /\ (is_enqueue_registered_ c
                = enqueue_registration (queue_up_end_ c) ->
                enqueue_registration
                  (queue_up_end_ (state_of (ShimAclConnection_Disconnect c)))
                = false)).
  { destruct c as [h sdu [er dr inb] ct q reg disc]. cbn in Hlive.
    subst disc.
    unfold ShimAclConnection_Disconnect, ShimAclConnection_UnregisterEnqueue,
      queue_up_end_UnregisterEnqueue, queue_up_end_UnregisterDequeue,
      bind, get, modify, log, tell, ret.
    destruct reg, q; cbn; repeat split; auto. }
  destruct Hafter as (Hdone & Hlatch & Hreg & Hdeq & Henq).
  destruct (run_ops_after_disconnect ops _ Hlatch Hreg)
    as (Hlatch' & Hqueue' & Hcalls').
  rewrite Hqueue'. auto.
Qed.

(** ** The link object: inbound data *)

Lemma uint16_range (z : Z) : 0 <= uint16 z < 2 ^ 16.
Proof. unfold uint16. apply Z.mod_pos_bound. lia. Qed.

Lemma LowByte_HighByte_decode (val : Z) :
  0 <= LowByte val < 2 ^ 8
  /\ 0 <= HighByte val < 2 ^ 8
  /\ LowByte val + 2 ^ 8 * HighByte val = val mod 2 ^ 16.
Proof.
  pose proof (uint16_range val) as Hw.
  assert (Hlow : LowByte val = uint16 val mod 2 ^ 8).
  { unfold LowByte, uint8. change 0xff with (Z.ones 8).
    rewrite Z.land_ones by lia. apply Z.mod_mod. lia. }
  assert (Hhigh : HighByte val = uint16 val / 2 ^ 8).
  { unfold HighByte, uint8. rewrite Z.shiftr_div_pow2 by lia.
    apply Z.mod_small. split; [apply Z.div_pos; lia|].
    apply Z.div_lt_upper_bound; lia. }
  rewrite Hlow, Hhigh. fold (uint16 val).
  split; [apply Z.mod_pos_bound; lia|].
  split; [split; [apply Z.div_pos; lia|apply Z.div_lt_upper_bound; lia]|].
  pose proof (Z.div_mod (uint16 val) (2 ^ 8)). lia.
Qed.

(** X8: [data_ready_callback] takes the oldest inbound packet and hands
    it to the buffer builder with a preamble of four bytes that give back
    the handle and the length, each modulo 2^16, as low byte + 256 * high
    byte, for every handle and every packet length.  The buffer built is
    posted exactly when the sink is not null and is freed exactly when it
    was not taken by the main thread: the sink is null or the post
    failed.  With no inbound packet the callback dereferences a null
    pointer and changes nothing. *)
Theorem data_ready_buffer (c : ShimAclConnection)
  (do_in_main_thread_ok : bool) :
  (inbound (queue_up_end_ c) = [] ->
   data_ready_callback do_in_main_thread_ok c = Stopped NullDereference c [])
  /\ (forall (packet : RawBuilder) (rest : list RawBuilder),
         inbound (queue_up_end_ c) = packet :: rest ->
         let length := Z.of_nat (length packet) in
         let preamble :=
           [LowByte (handle_ c); HighByte (handle_ c);
            LowByte length; HighByte length] in
         let p_buf := MakeLegacyBtHdrPacket packet preamble in
         let r := data_ready_callback do_in_main_thread_ok c in
         completed r = true
         /\ inbound (queue_up_end_ (state_of r)) = rest
         /\ queue_ (state_of r) = queue_ c
         /\ posts (trace_of r)
            = (if send_data_upwards_ c then [send_data_upwards p_buf] else [])
         /\ omap (fun e => match e with OsiFree b => Some b | _ => None end)
                 (trace_of r)
            = (if send_data_upwards_ c && do_in_main_thread_ok then []
               else [p_buf])
         /\ Forall (fun byte => 0 <= byte < 2 ^ 8) preamble
         /\ LowByte (handle_ c) + 2 ^ 8 * HighByte (handle_ c)
            = handle_ c mod 2 ^ 16
         /\ LowByte length + 2 ^ 8 * HighByte length = length mod 2 ^ 16).
Proof.
  split.
  - intros Hnone.
    unfold data_ready_callback, queue_up_end_TryDequeue, bind, get, ret, stop.
    cbn. rewrite Hnone. reflexivity.
  - intros packet rest Hin. cbn zeta.
    destruct (LowByte_HighByte_decode (handle_ c)) as (Hl1 & Hh1 & Hd1).
    destruct (LowByte_HighByte_decode (Z.of_nat (length packet)))
      as (Hl2 & Hh2 & Hd2).
    assert (Hlow : LowByte (uint16 (Z.of_nat (length packet)))
                   = LowByte (Z.of_nat (length packet))).
    { unfold LowByte, uint16. rewrite Z.mod_mod by lia. reflexivity. }
    assert (Hhigh : HighByte (uint16 (Z.of_nat (length packet)))
                    = HighByte (Z.of_nat (length packet))).
    { unfold HighByte, uint16. rewrite Z.mod_mod by lia. reflexivity. }
    unfold data_ready_callback, queue_up_end_TryDequeue,
      bind, get, modify, log, tell, ret. cbn -[MakeLegacyBtHdrPacket].
    rewrite Hin. cbn -[MakeLegacyBtHdrPacket]. rewrite Hlow, Hhigh.
    destruct (send_data_upwards_ c), do_in_main_thread_ok;
      cbn -[MakeLegacyBtHdrPacket];
      (repeat split; try reflexivity; try assumption;
       repeat constructor; lia).
Qed.

(** ** Resolvable private addresses *)

Lemma land_0xc0_is_0x40 (byte : Z) :
  0 <= byte < 2 ^ 8 ->
  (Z.land byte 0xc0 =? 0x40) = (64 <=? byte) && (byte <? 128).
Proof.
  intros Hbyte.
  assert (Hall : forallb
                   (fun n => Bool.eqb
                               (Z.land (Z.of_nat n) 0xc0 =? 0x40)
                               ((64 <=? Z.of_nat n) && (Z.of_nat n <? 128)))
                   (seq 0 256) = true) by (vm_compute; reflexivity).
  rewrite forallb_forall in Hall.
  specialize (Hall (Z.to_nat byte)).
  rewrite Z2Nat.id in Hall by lia.
  apply Bool.eqb_prop, Hall. apply in_seq. lia.
Qed.

(** X9: for an address whose sixth byte is a byte, [IsRpa] holds exactly
    when the address type is RANDOM_DEVICE_ADDRESS and that byte lies in
    0x40..0x7f; no public address, no identity address and no static or
    non-resolvable random address is taken for a resolvable private
    address. *)
Theorem IsRpa_range (address_with_type : AddressWithType) :
  0 <= a5 (GetAddress address_with_type) < 2 ^ 8 ->
  IsRpa address_with_type = true <->
  GetAddressType address_with_type = RANDOM_DEVICE_ADDRESS
  /\ 0x40 <= a5 (GetAddress address_with_type) <= 0x7f.
Proof.
  intros Hbyte. unfold IsRpa. cbn [data].
  rewrite (land_0xc0_is_0x40 _ Hbyte).
  rewrite !andb_true_iff, bool_decide_eq_true, Z.leb_le, Z.ltb_lt.
  intuition lia.
Qed.

(** ** The tables of the manager *)

Ltac ok_split :=
  unfold Acl_ok;
  cbn [acl_interface_ handle_to_classic_connection_map_
       handle_to_le_connection_map_ connection_history_ shadow_acceptlist_
       shadow_address_resolution_list_ set_handle_to_classic_connection_map_
       set_handle_to_le_connection_map_ set_connection_history_
       set_shadow_acceptlist_ set_shadow_address_resolution_list_];
  (split; [|split; [|split; [|split; [|split; [|split]]]]]).

Ltac acl_fields :=
  cbn [acl_interface_ handle_to_classic_connection_map_
       handle_to_le_connection_map_ connection_history_ shadow_acceptlist_
       shadow_address_resolution_list_ set_handle_to_classic_connection_map_
       set_handle_to_le_connection_map_ set_connection_history_
       set_shadow_acceptlist_ set_shadow_address_resolution_list_] in *.

Lemma keeps_bind {A B} (m : M Acl A) (k : A -> M Acl B) :
  keeps_Acl_ok m -> (forall x, keeps_Acl_ok (k x)) -> keeps_Acl_ok (bind m k).
Proof.
  intros Hm Hk a Hok. specialize (Hm a Hok). unfold bind.
  destruct (m a) as [x a1 t1|f a1 t1]; cbn in Hm; [|exact Hm].
  rewrite state_of_after_effects. exact (Hk x a1 Hm).
Qed.

Lemma keeps_ret {A} (x : A) : keeps_Acl_ok (ret x).
Proof. intros a Hok. exact Hok. Qed.

Lemma keeps_get : keeps_Acl_ok get.
Proof. intros a Hok. exact Hok. Qed.

Lemma keeps_tell (e : Effect) : keeps_Acl_ok (tell e).
Proof. intros a Hok. exact Hok. Qed.

Lemma keeps_log level fmt args : keeps_Acl_ok (log level fmt args).
Proof. intros a Hok. exact Hok. Qed.

Lemma keeps_stop {A} (f : Fault) : keeps_Acl_ok (stop (A := A) f).
Proof. intros a Hok. exact Hok. Qed.

Lemma keeps_TRY_POSTING_ON_MAIN present cb :
  keeps_Acl_ok (TRY_POSTING_ON_MAIN present cb).
Proof. intros a Hok. destruct present; exact Hok. Qed.

Lemma keeps_ASSERT_LOG condition fmt args :
  keeps_Acl_ok (ASSERT_LOG condition fmt args).
Proof. intros a Hok. destruct condition; exact Hok. Qed.

Lemma keeps_classic_link_get {A} handle
  (getter : ClassicShimAclConnection -> A) :
  keeps_Acl_ok (classic_link_get handle getter).
Proof.
  intros a Hok. unfold classic_link_get, bind, get. cbn.
  destruct (handle_to_classic_connection_map_ a !! handle); exact Hok.
Qed.

Lemma keeps_le_link_get {A} handle (getter : LeShimAclConnection -> A) :
  keeps_Acl_ok (le_link_get handle getter).
Proof.
  intros a Hok. unfold le_link_get, bind, get. cbn.
  destruct (handle_to_le_connection_map_ a !! handle); exact Hok.
Qed.

Lemma keeps_on_classic_link {A} handle (m : M ClassicShimAclConnection A) :
  classic_keeps_handle_and_latch m -> keeps_Acl_ok (on_classic_link handle m).
Proof.
  intros Hm a Hok. unfold on_classic_link, bind, get, zoom. cbn.
  destruct (handle_to_classic_connection_map_ a !! handle) as [link|] eqn:Hat;
    [|exact Hok].
  rewrite after_no_effects.
  assert (Hstate :
            state_of
              (match m link with
               | Done x t' tr =>
                   Done x (set_handle_to_classic_connection_map_
                             (<[handle:=t']>
                                (handle_to_classic_connection_map_ a)) a) tr
               | Stopped f t' tr =>
                   Stopped f (set_handle_to_classic_connection_map_
                                (<[handle:=t']>
                                   (handle_to_classic_connection_map_ a)) a)
                           tr
               end)
            = set_handle_to_classic_connection_map_
                (<[handle:=state_of (m link)]>
                   (handle_to_classic_connection_map_ a)) a)
    by (destruct (m link); reflexivity).
  rewrite Hstate. clear Hstate.
  destruct (Hm link) as [Hhandle Hlatch].
  destruct a as [iface cmap lmap hist shadow ar].
  destruct Hok as (H1 & H2 & H3 & H4 & H5 & Hclassic & Hle).
  unfold Acl_ok. acl_fields. do 5 (split; [assumption|]).
  split; [|exact Hle].
  intros handle' link' Hat'.
  destruct (decide (handle = handle')) as [<-|Hne].
  - rewrite lookup_insert_eq in Hat'. injection Hat' as <-.
    rewrite Hhandle, Hlatch. exact (Hclassic _ _ Hat).
  - rewrite lookup_insert_ne in Hat' by exact Hne.
    exact (Hclassic _ _ Hat').
Qed.

Lemma keeps_on_le_link {A} handle (m : M LeShimAclConnection A) :
  le_keeps_handle_and_latch m -> keeps_Acl_ok (on_le_link handle m).
Proof.
  intros Hm a Hok. unfold on_le_link, bind, get, zoom. cbn.
  destruct (handle_to_le_connection_map_ a !! handle) as [link|] eqn:Hat;
    [|exact Hok].
  rewrite after_no_effects.
  assert (Hstate :
            state_of
              (match m link with
               | Done x t' tr =>
                   Done x (set_handle_to_le_connection_map_
                             (<[handle:=t']>
                                (handle_to_le_connection_map_ a)) a) tr
               | Stopped f t' tr =>
                   Stopped f (set_handle_to_le_connection_map_
                                (<[handle:=t']>
                                   (handle_to_le_connection_map_ a)) a)
                           tr
               end)
            = set_handle_to_le_connection_map_
                (<[handle:=state_of (m link)]>
                   (handle_to_le_connection_map_ a)) a)
    by (destruct (m link); reflexivity).
  rewrite Hstate. clear Hstate.
  destruct (Hm link) as [Hhandle Hlatch].
  destruct a as [iface cmap lmap hist shadow ar].
  destruct Hok as (H1 & H2 & H3 & H4 & H5 & Hclassic & Hle).
  unfold Acl_ok. acl_fields. do 5 (split; [assumption|]).
  split; [exact Hclassic|].
  intros handle' link' Hat'.
  destruct (decide (handle = handle')) as [<-|Hne].
  - rewrite lookup_insert_eq in Hat'. injection Hat' as <-.
    rewrite Hhandle, Hlatch. exact (Hle _ _ Hat).
  - rewrite lookup_insert_ne in Hat' by exact Hne.
    exact (Hle _ _ Hat').
Qed.

Lemma classic_super_keeps {A} (m : M ShimAclConnection A) :
  keeps_handle_and_latch m -> classic_keeps_handle_and_latch (classic_super m).
Proof.
  intros Hm link. unfold classic_super, zoom.
  specialize (Hm (classic_base link)).
  destruct (m (classic_base link)); exact Hm.
Qed.

Lemma le_super_keeps {A} (m : M ShimAclConnection A) :
  keeps_handle_and_latch m -> le_keeps_handle_and_latch (le_super m).
Proof.
  intros Hm link. unfold le_super, zoom.
  specialize (Hm (le_base link)).
  destruct (m (le_base link)); exact Hm.
Qed.

Lemma EnqueuePacket_keeps (packet : RawBuilder) :
  keeps_handle_and_latch (EnqueuePacket packet).
Proof.
  intros [h sdu [er dr inb] ct q reg disc].
  unfold EnqueuePacket, ShimAclConnection_RegisterEnqueue,
    queue_up_end_RegisterEnqueue, ASSERT_LOG, bind, get, modify, log, tell,
    ret, stop.
  destruct disc, reg; cbn; auto.
Qed.

Lemma handle_enqueue_keeps : keeps_handle_and_latch handle_enqueue.
Proof.
  intros [h sdu [er dr inb] ct q reg disc].
  unfold handle_enqueue, ShimAclConnection_UnregisterEnqueue,
    queue_up_end_UnregisterEnqueue, bind, get, modify, tell, ret, stop.
  destruct q as [|p [|p' q]], reg; cbn; auto.
Qed.

Lemma data_ready_callback_keeps (ok : bool) :
  keeps_handle_and_latch (data_ready_callback ok).
Proof.
  intros [h sdu [er dr inb] ct q reg disc].
  unfold data_ready_callback, queue_up_end_TryDequeue, bind, get, modify,
    log, tell, ret, stop.
  destruct inb, sdu, ok; cbn; auto.
Qed.

Lemma classic_unchanged_keeps {A} (m : M ClassicShimAclConnection A) :
  (forall link, state_of (m link) = link) ->
  classic_keeps_handle_and_latch m.
Proof. intros Hm link. rewrite Hm. auto. Qed.

Lemma le_unchanged_keeps {A} (m : M LeShimAclConnection A) :
  (forall link, state_of (m link) = link) -> le_keeps_handle_and_latch m.
Proof. intros Hm link. rewrite Hm. auto. Qed.

Lemma feature_callbacks_leave_link (link : ClassicShimAclConnection) :
  (forall features,
      state_of (OnReadRemoteSupportedFeaturesComplete features link) = link)
  /\ (forall page_number max_page_number features,
         state_of (OnReadRemoteExtendedFeaturesComplete
                     page_number max_page_number features link) = link).
Proof.
  split; intros;
    unfold OnReadRemoteSupportedFeaturesComplete,
      OnReadRemoteExtendedFeaturesComplete, TRY_POSTING_ON_MAIN,
      connection_ReadRemoteExtendedFeatures, bind, get, log, tell, ret.
  - destruct (on_read_remote_supported_features_complete _),
      (Z.testbit features 63); reflexivity.
  - destruct (on_read_remote_extended_features_complete _),
      ((page_number =? 0) && negb (Z.testbit features 63)),
      (negb (max_page_number =? 0) && negb (page_number =? max_page_number));
      reflexivity.
Qed.

Lemma keeps_on_shadow_acceptlist_Add (x : AddressWithType) :
  keeps_Acl_ok (on_shadow_acceptlist (ShadowAcceptlist_Add x)).
Proof.
  intros a Hok. destruct a as [iface cmap lmap hist shadow ar].
  destruct Hok as (H1 & H2 & H3 & H4 & H5 & Hclassic & Hle). acl_fields.
  destruct (run_acceptlist_op_bound (ShadowAdd x) shadow H4)
    as (_ & Hmax & Hsize).
  unfold on_shadow_acceptlist, zoom. acl_fields.
  unfold run_acceptlist_op, bind in Hmax, Hsize.
  destruct (ShadowAcceptlist_Add x shadow) as [b shadow' t|f shadow' t];
    cbn in Hmax, Hsize |- *;
    (ok_split; try assumption; lia).
Qed.

Lemma keeps_on_shadow_acceptlist_Remove (x : AddressWithType) :
  keeps_Acl_ok (on_shadow_acceptlist (ShadowAcceptlist_Remove x)).
Proof.
  intros a Hok. destruct a as [iface cmap lmap hist shadow ar].
  destruct Hok as (H1 & H2 & H3 & H4 & H5 & Hclassic & Hle). acl_fields.
  destruct (run_acceptlist_op_bound (ShadowRemove x) shadow H4)
    as (_ & Hmax & Hsize).
  unfold on_shadow_acceptlist, zoom. acl_fields.
  unfold run_acceptlist_op, bind in Hmax, Hsize.
  destruct (ShadowAcceptlist_Remove x shadow) as [b shadow' t|f shadow' t];
    cbn in Hmax, Hsize |- *;
    (ok_split; try assumption; lia).
Qed.

Lemma keeps_emplace_classic (connection : ClassicAclConnection) (now : Z) :
  keeps_Acl_ok (emplace_classic (classic_GetHandle connection) connection now).
Proof.
  intros a Hok. destruct a as [iface cmap lmap hist shadow ar].
  unfold emplace_classic, construct, destroy, classic_super, zoom,
    queue_up_end_RegisterDequeue, ShimAclConnection_delete, ASSERT_LOG,
    bind, get, modify, log, tell, ret, stop. cbn.
  destruct (cmap !! classic_GetHandle connection) eqn:Hat; cbn; [exact Hok|].
  destruct Hok as (H1 & H2 & H3 & H4 & H5 & Hclassic & Hle). acl_fields.
  ok_split; try assumption.
  intros handle' link' Hat'.
  destruct (decide (classic_GetHandle connection = handle')) as [<-|Hne].
  - rewrite lookup_insert_eq in Hat'. injection Hat' as <-. cbn. auto.
  - rewrite lookup_insert_ne in Hat' by exact Hne. exact (Hclassic _ _ Hat').
Qed.

Lemma keeps_emplace_le (connection : LeAclConnection) (now : Z) :
  keeps_Acl_ok (emplace_le (le_GetHandle connection) connection now).
Proof.
  intros a Hok. destruct a as [iface cmap lmap hist shadow ar].
  unfold emplace_le, construct, destroy, le_super, zoom,
    queue_up_end_RegisterDequeue, ShimAclConnection_delete, ASSERT_LOG,
    bind, get, modify, log, tell, ret, stop. cbn.
  destruct (lmap !! le_GetHandle connection) eqn:Hat; cbn; [exact Hok|].
  destruct Hok as (H1 & H2 & H3 & H4 & H5 & Hclassic & Hle). acl_fields.
  ok_split; try assumption.
  intros handle' link' Hat'.
  destruct (decide (le_GetHandle connection = handle')) as [<-|Hne].
  - rewrite lookup_insert_eq in Hat'. injection Hat' as <-. cbn. auto.
  - rewrite lookup_insert_ne in Hat' by exact Hne. exact (Hle _ _ Hat').
Qed.

(** The steps of a handler, one after the other. *)
Ltac keeps_steps :=
  repeat first
    [ match goal with
      | |- keeps_Acl_ok (bind _ _) => apply keeps_bind; [|intros ?]
      end
    | apply keeps_ret | apply keeps_get | apply keeps_tell | apply keeps_log
    | apply keeps_TRY_POSTING_ON_MAIN | apply keeps_ASSERT_LOG
    | apply keeps_classic_link_get | apply keeps_le_link_get
    | apply keeps_emplace_classic | apply keeps_emplace_le
    | apply keeps_on_shadow_acceptlist_Add
    | apply keeps_on_shadow_acceptlist_Remove
    | apply keeps_on_classic_link; apply classic_unchanged_keeps;
      intros ?; reflexivity
    | apply keeps_on_le_link; apply le_unchanged_keeps;
      intros ?; reflexivity
    | match goal with
      | |- keeps_Acl_ok (if ?b then _ else _) => destruct b
      end ].

Lemma keeps_OnConnectSuccess connection now :
  keeps_Acl_ok (OnConnectSuccess connection now).
Proof. unfold OnConnectSuccess. keeps_steps. Qed.

Lemma keeps_OnLeConnectSuccess address_with_type connection now :
  keeps_Acl_ok (OnLeConnectSuccess address_with_type connection now).
Proof. unfold OnLeConnectSuccess. keeps_steps. Qed.

Lemma keeps_accept_le_connection_from address_with_type is_direct :
  keeps_Acl_ok (accept_le_connection_from address_with_type is_direct).
Proof. unfold accept_le_connection_from. keeps_steps. Qed.

Lemma keeps_ignore_le_connection_from address_with_type :
  keeps_Acl_ok (ignore_le_connection_from address_with_type).
Proof. unfold ignore_le_connection_from. keeps_steps. Qed.

Lemma keeps_write_data_sync handle packet :
  keeps_Acl_ok (write_data_sync handle packet).
Proof.
  unfold write_data_sync, EnqueueClassicPacket, EnqueueLePacket.
  keeps_steps.
  - apply keeps_on_classic_link, classic_super_keeps, EnqueuePacket_keeps.
  - apply keeps_on_le_link, le_super_keeps, EnqueuePacket_keeps.
Qed.

Lemma OnClassicLinkDisconnected_state (a : Acl) (handle : Z)
  (reason : ErrorCode) (now : Z) link (n : nat) q :
  connection_history_ a = MkFixedQueue (Z.of_nat n) q ->
  (0 < n)%nat -> (length q <= n)%nat ->
  handle_to_classic_connection_map_ a !! handle = Some link ->
  is_disconnected_ (classic_base link) = true ->
  state_of (OnClassicLinkDisconnected handle reason now a)
  = set_connection_history_
      (MkFixedQueue (Z.of_nat n)
         (keep_last n
            (q ++ [MkConnectionDescriptor
                     (ClassicRemote (classic_GetRemoteAddress link))
                     (creation_time_ (classic_base link)) now handle
                     (classic_IsLocallyInitiated link) reason])))
      (set_handle_to_classic_connection_map_
         (delete handle (handle_to_classic_connection_map_ a)) a).
Proof.
  intros Hhist Hn Hlen Hat Hlatch.
  destruct (erase_classic_Done a handle link Hat Hlatch) as (t & Herase & _).
  unfold OnClassicLinkDisconnected.
  rewrite !(bind_Done _ _ _ _ _ _ (classic_link_get_Done a handle _ link Hat)).
  rewrite !after_no_effects.
  rewrite (bind_Done _ _ _ _ _ _ Herase), state_of_after_effects.
  destruct a as [iface cmap lmap hist shadow ar]. cbn in Hhist. subst hist.
  unfold push_history, on_connection_history, TRY_POSTING_ON_MAIN,
    bind, get, zoom, tell, log.
  cbn -[FixedQueue_Push keep_last].
  destruct (connection_classic_on_disconnected iface);
    cbn -[FixedQueue_Push keep_last];
    rewrite (FixedQueue_Push_keep_last n q _ Hn Hlen); reflexivity.
Qed.

Lemma keeps_classic_OnDisconnection handle reason now :
  keeps_Acl_ok (classic_OnDisconnection handle reason now).
Proof.
  intros a Hok.
  destruct (handle_to_classic_connection_map_ a !! handle) as [link|] eqn:Hat.
  - destruct Hok as (H1 & H2 & H3 & H4 & H5 & Hclassic & Hle).
    destruct (Hclassic _ _ Hat) as [Hkey _].
    destruct (ShimAclConnection_Disconnect_Done (classic_base link))
      as (base & t1 & Hdisc & Hlatch & Hhandle & _ & _).
    pose (a1 := set_handle_to_classic_connection_map_
                  (<[handle := set_classic_base base link]>
                     (handle_to_classic_connection_map_ a)) a).
    assert (Hat1 : handle_to_classic_connection_map_ a1 !! handle
                   = Some (set_classic_base base link)).
    { destruct a. cbn. apply lookup_insert_eq. }
    unfold classic_OnDisconnection.
    rewrite (bind_Done _ _ _ _ _ _ (on_classic_link_Done a handle _ link _ _ _
                                      Hat Hdisc)).
    fold a1.
    rewrite (bind_Done _ _ _ _ _ _ (classic_link_get_Done a1 handle _ _ Hat1)).
    rewrite after_no_effects, state_of_after_effects.
    cbn [set_classic_base classic_base]. rewrite Hhandle, Hkey.
    destruct a as [iface cmap lmap [max q] shadow ar]. acl_fields.
    cbn [max_size_ fq_queue_] in H2, H3. subst max.
    rewrite (OnClassicLinkDisconnected_state a1 handle reason now
               (set_classic_base base link) 40 q); try assumption;
      [|reflexivity|lia|change (Z.of_nat 40) with kConnectionHistorySize;
                        unfold kConnectionHistorySize in H3; lia].
    subst a1. acl_fields. rewrite delete_insert_eq.
    ok_split; try assumption.
    + reflexivity.
    + cbn [fq_queue_]. rewrite keep_last_length.
      unfold kConnectionHistorySize. lia.
    + intros handle' link' Hat'.
      apply lookup_delete_Some in Hat' as [_ Hat'].
      exact (Hclassic _ _ Hat').
  - unfold classic_OnDisconnection, on_classic_link, bind, get. cbn.
    rewrite Hat. exact Hok.
Qed.

Lemma OnLeLinkDisconnected_state (a : Acl) (handle : Z)
  (reason : ErrorCode) (now : Z) link (n : nat) q :
  connection_history_ a = MkFixedQueue (Z.of_nat n) q ->
  (0 < n)%nat -> (length q <= n)%nat ->
  handle_to_le_connection_map_ a !! handle = Some link ->
  is_disconnected_ (le_base link) = true ->
  state_of (OnLeLinkDisconnected handle reason now a)
  = set_connection_history_
      (MkFixedQueue (Z.of_nat n)
         (keep_last n
            (q ++ [MkConnectionDescriptor
                     (LeRemote (GetRemoteAddressWithType link))
                     (creation_time_ (le_base link)) now handle
                     (le_IsLocallyInitiated link) reason])))
      (set_handle_to_le_connection_map_
         (delete handle (handle_to_le_connection_map_ a)) a).
Proof.
  intros Hhist Hn Hlen Hat Hlatch.
  destruct (erase_le_Done a handle link Hat Hlatch) as (t & Herase & _).
  unfold OnLeLinkDisconnected.
  rewrite !(bind_Done _ _ _ _ _ _ (le_link_get_Done a handle _ link Hat)).
  rewrite !after_no_effects.
  rewrite (bind_Done _ _ _ _ _ _ Herase), state_of_after_effects.
  destruct a as [iface cmap lmap hist shadow ar]. cbn in Hhist. subst hist.
  unfold push_history, on_connection_history, TRY_POSTING_ON_MAIN,
    bind, get, zoom, tell, log.
  cbn -[FixedQueue_Push keep_last].
  destruct (connection_le_on_disconnected iface);
    cbn -[FixedQueue_Push keep_last];
    rewrite (FixedQueue_Push_keep_last n q _ Hn Hlen); reflexivity.
Qed.

Lemma keeps_le_OnDisconnection handle reason now :
  keeps_Acl_ok (le_OnDisconnection handle reason now).
Proof.
  intros a Hok.
  destruct (handle_to_le_connection_map_ a !! handle) as [link|] eqn:Hat.
  - destruct Hok as (H1 & H2 & H3 & H4 & H5 & Hclassic & Hle).
    destruct (Hle _ _ Hat) as [Hkey _].
    destruct (ShimAclConnection_Disconnect_Done (le_base link))
      as (base & t1 & Hdisc & Hlatch & Hhandle & _ & _).
    pose (a1 := set_handle_to_le_connection_map_
                  (<[handle := set_le_base base link]>
                     (handle_to_le_connection_map_ a)) a).
    assert (Hat1 : handle_to_le_connection_map_ a1 !! handle
                   = Some (set_le_base base link)).
    { destruct a. cbn. apply lookup_insert_eq. }
    unfold le_OnDisconnection.
    rewrite (bind_Done _ _ _ _ _ _ (on_le_link_Done a handle _ link _ _ _
                                      Hat Hdisc)).
    fold a1.
    rewrite (bind_Done _ _ _ _ _ _ (le_link_get_Done a1 handle _ _ Hat1)).
    rewrite after_no_effects, state_of_after_effects.
    cbn [set_le_base le_base]. rewrite Hhandle, Hkey.
    destruct a as [iface cmap lmap [max q] shadow ar]. acl_fields.
    cbn [max_size_ fq_queue_] in H2, H3. subst max.
    rewrite (OnLeLinkDisconnected_state a1 handle reason now
               (set_le_base base link) 40 q); try assumption;
      [|reflexivity|lia|change (Z.of_nat 40) with kConnectionHistorySize;
                        unfold kConnectionHistorySize in H3; lia].
    subst a1. acl_fields. rewrite delete_insert_eq.
    ok_split; try assumption.
    + reflexivity.
    + cbn [fq_queue_]. rewrite keep_last_length.
      unfold kConnectionHistorySize. lia.
    + intros handle' link' Hat'.
      apply lookup_delete_Some in Hat' as [_ Hat'].
      exact (Hle _ _ Hat').
  - unfold le_OnDisconnection, on_le_link, bind, get. cbn.
    rewrite Hat. exact Hok.
Qed.

Lemma keeps_run_event (event : AclEvent) : keeps_Acl_ok (run_event event).
Proof.
  destruct event; cbn [run_event].
  - apply keeps_OnConnectSuccess.
  - apply keeps_OnLeConnectSuccess.
  - apply keeps_classic_OnDisconnection.
  - apply keeps_le_OnDisconnection.
  - apply keeps_accept_le_connection_from.
  - apply keeps_ignore_le_connection_from.
  - apply keeps_write_data_sync.
  - apply keeps_bind; [|intros ?; apply keeps_ret].
    apply keeps_on_classic_link, classic_super_keeps, handle_enqueue_keeps.
  - apply keeps_bind; [|intros ?; apply keeps_ret].
    apply keeps_on_le_link, le_super_keeps, handle_enqueue_keeps.
  - apply keeps_on_classic_link, classic_super_keeps,
      data_ready_callback_keeps.
  - apply keeps_on_le_link, le_super_keeps, data_ready_callback_keeps.
  - apply keeps_on_classic_link, classic_unchanged_keeps.
    intros link. apply (proj1 (feature_callbacks_leave_link link)).
  - apply keeps_on_classic_link, classic_unchanged_keeps.
    intros link. apply (proj2 (feature_callbacks_leave_link link)).
Qed.

Lemma keeps_run_events (events : list AclEvent) :
  keeps_Acl_ok (run_events events).
Proof.
  induction events as [|event events IH]; cbn [run_events].
  - apply keeps_ret.
  - apply keeps_bind; [apply keeps_run_event|intros ?; exact IH].
Qed.

Lemma Acl_new_ok (acl_interface : acl_interface_t)
  (max_acceptlist_size max_address_resolution_size : Z) :
  ValidateAclInterface acl_interface = true ->
  Acl_ok (Acl_new acl_interface max_acceptlist_size
                  max_address_resolution_size).
Proof.
  intros Hvalid. unfold Acl_new. ok_split.
  - exact Hvalid.
  - reflexivity.
  - cbn. unfold kConnectionHistorySize. lia.
  - unfold acceptlist_size. cbn. rewrite size_empty.
    pose proof (Z.mod_pos_bound max_acceptlist_size (2 ^ 8)). unfold uint8.
    lia.
  - unfold ShadowAddressResolutionList_Size. cbn. rewrite size_empty.
    pose proof (Z.mod_pos_bound max_address_resolution_size (2 ^ 8)).
    unfold uint8. lia.
  - intros handle link Hat. rewrite lookup_empty in Hat. discriminate.
  - intros handle link Hat. rewrite lookup_empty in Hat. discriminate.
Qed.

(** X10: from the manager built with a validated interface, whatever
    events, requests and link callbacks follow, and whether the last one
    ran to its end or stopped, the tables are in order: the interface
    still passes [ValidateAclInterface], the history ring
    holds at most 40 entries, the shadow accept list and the shadow
    address-resolution list are within their capacities, and every link
    of the registry is registered under its own handle with its
    disconnected latch not set. *)
Theorem manager_tables_stay_in_order
  (acl_interface : acl_interface_t)
  (max_acceptlist_size max_address_resolution_size : Z)
  (events : list AclEvent) :
  ValidateAclInterface acl_interface = true ->
  let a :=
    state_of (run_events events
                (Acl_new acl_interface max_acceptlist_size
                         max_address_resolution_size)) in
  ValidateAclInterface (acl_interface_ a) = true
  /\ Z.of_nat (length (fq_queue_ (connection_history_ a))) <= 40
  /\ acceptlist_size (shadow_acceptlist_ a)
     <= max_acceptlist_size_ (shadow_acceptlist_ a)
  /\ ShadowAddressResolutionList_Size (shadow_address_resolution_list_ a)
     <= max_address_resolution_size_ (shadow_address_resolution_list_ a)
  /\ (forall handle link,
         handle_to_classic_connection_map_ a !! handle = Some link ->
         handle_ (classic_base link) = handle
         /\ is_disconnected_ (classic_base link) = false)
  /\ (forall handle link,
         handle_to_le_connection_map_ a !! handle = Some link ->
         handle_ (le_base link) = handle
         /\ is_disconnected_ (le_base link) = false).
Proof.
  intros Hvalid a.
  destruct (keeps_run_events events _
              (Acl_new_ok acl_interface max_acceptlist_size
                          max_address_resolution_size Hvalid))
    as (H1 & H2 & H3 & H4 & H5 & Hclassic & Hle).
  split; [exact H1|]. split; [exact H3|]. split; [exact H4|].
  split; [exact H5|]. split; [exact Hclassic|exact Hle].
Qed.

(** ** Outbound data through the manager *)

Lemma EnqueuePacket_registers (packet : RawBuilder) (c : ShimAclConnection) :
  is_disconnected_ c = false ->
  exists c1,
    EnqueuePacket packet c
    = Done tt c1 (if is_enqueue_registered_ c then []
                  else [Lower (Call_RegisterEnqueue (handle_ c))])
    /\ queue_ c1 = queue_ c ++ [packet]
    /\ is_enqueue_registered_ c1 = true
    /\ handle_ c1 = handle_ c
    /\ is_disconnected_ c1 = false.
Proof.
  destruct c as [h sdu [er dr inb] ct q reg disc]. cbn. intros ->.
  unfold EnqueuePacket, ShimAclConnection_RegisterEnqueue,
    queue_up_end_RegisterEnqueue, ASSERT_LOG, bind, get, modify, log, tell,
    ret, stop. cbn.
  destruct reg; cbn; eexists; repeat split; reflexivity.
Qed.

Lemma write_data_sync_classic (a : Acl) (handle : Z) (packet : RawBuilder)
  link :
  handle_to_classic_connection_map_ a !! handle = Some link ->
  write_data_sync handle packet a
  = on_classic_link handle (classic_super (EnqueuePacket packet)) a.
Proof.
  intros Hat.
  unfold write_data_sync, EnqueueClassicPacket, IsClassicAcl, ASSERT_LOG,
    bind, get, ret.
  cbn beta iota. rewrite Hat, bool_decide_true by eauto.
  cbn beta iota. rewrite bool_decide_true by eauto.
  cbn beta iota.
  rewrite !after_no_effects. reflexivity.
Qed.

Lemma write_data_sync_le (a : Acl) (handle : Z) (packet : RawBuilder) link :
  handle_to_classic_connection_map_ a !! handle = None ->
  handle_to_le_connection_map_ a !! handle = Some link ->
  write_data_sync handle packet a
  = on_le_link handle (le_super (EnqueuePacket packet)) a.
Proof.
  intros Hnone Hat.
  unfold write_data_sync, EnqueueLePacket, IsClassicAcl, IsLeAcl, ASSERT_LOG,
    bind, get, ret.
  cbn beta iota. rewrite Hnone, Hat.
  rewrite bool_decide_false by (intros [? ?]; discriminate).
  rewrite bool_decide_true by eauto.
  cbn beta iota. rewrite bool_decide_true by eauto.
  cbn beta iota.
  rewrite !after_no_effects. reflexivity.
Qed.

(** X11: on a manager whose tables are in order, [write_data_sync] always
    runs to its end and hands the packet to the link registered at the
    handle, the classic registry being asked first: the packet is
    appended to that link's outbound queue, the link's enqueue callback
    is registered afterwards, and the lower queue is asked for the
    registration only when it was not registered before.  With no link
    at the handle in either registry the only effect is the error log,
    and the manager is unchanged. *)
Theorem write_data_reaches_the_link_of_the_handle
  (a : Acl) (handle : Z) (packet : RawBuilder) :
  Acl_ok a ->
  match handle_to_classic_connection_map_ a !! handle,
        handle_to_le_connection_map_ a !! handle with
  | Some link, _ =>
      exists base,
        write_data_sync handle packet a
        = Done tt
            (set_handle_to_classic_connection_map_
               (<[handle := set_classic_base base link]>
                  (handle_to_classic_connection_map_ a)) a)
            (if is_enqueue_registered_ (classic_base link) then []
             else [Lower (Call_RegisterEnqueue handle)])
        /\ queue_ base = queue_ (classic_base link) ++ [packet]
        /\ is_enqueue_registered_ base = true
        /\ handle_ base = handle
        /\ is_disconnected_ base = false
  | None, Some link =>
      exists base,
        write_data_sync handle packet a
        = Done tt
            (set_handle_to_le_connection_map_
               (<[handle := set_le_base base link]>
                  (handle_to_le_connection_map_ a)) a)
            (if is_enqueue_registered_ (le_base link) then []
             else [Lower (Call_RegisterEnqueue handle)])
        /\ queue_ base = queue_ (le_base link) ++ [packet]
        /\ is_enqueue_registered_ base = true
        /\ handle_ base = handle
        /\ is_disconnected_ base = false
  | None, None =>
      write_data_sync handle packet a
      = Done tt a
          [Log ERROR ("Unable to find destination to write data"
                      +:+ line_feed) []]
  end.
Proof.
  intros (_ & _ & _ & _ & _ & Hclassic & Hle).
  destruct (handle_to_classic_connection_map_ a !! handle) as [link|]
    eqn:Hat.
  - destruct (Hclassic _ _ Hat) as [Hkey Hlive].
    destruct (EnqueuePacket_registers packet _ Hlive)
      as (base & Henq & Hq & Hreg & Hh & Hd).
    exists base. rewrite Hkey in Henq, Hh.
    rewrite (write_data_sync_classic a handle packet link Hat).
    rewrite (on_classic_link_Done a handle _ link _ _ _ Hat Henq).
    repeat split; assumption.
  - destruct (handle_to_le_connection_map_ a !! handle) as [link|] eqn:Hat'.
    + destruct (Hle _ _ Hat') as [Hkey Hlive].
      destruct (EnqueuePacket_registers packet _ Hlive)
        as (base & Henq & Hq & Hreg & Hh & Hd).
      exists base. rewrite Hkey in Henq, Hh.
      rewrite (write_data_sync_le a handle packet link Hat Hat').
      rewrite (on_le_link_Done a handle _ link _ _ _ Hat' Henq).
      repeat split; assumption.
    + unfold write_data_sync, IsClassicAcl, IsLeAcl, bind, get, log, tell.
      cbn beta iota. rewrite Hat, Hat'.
      rewrite !bool_decide_false by (intros [? ?]; discriminate).
      reflexivity.
Qed.

(** ** The end of a link *)

(** X12: [Shutdown] always runs to its end and leaves the link with its
    disconnected latch set, its handle and its outbound queue as they
    were and, for a link that was not disconnected before, with its
    enqueue flag cleared, the dequeue callback unregistered at the lower
    queue and the enqueue callback unregistered there when the flag said
    it was registered; the destructor run after it never trips its
    assertion, whereas on a link whose latch is not set the destructor
    stops at the assertion that names the handle. *)
Theorem shutdown_makes_destruction_safe (c : ShimAclConnection) :
  (exists c1 t1 t2,
     ShimAclConnection_Shutdown c = Done tt c1 t1
     /\ is_disconnected_ c1 = true
     /\ handle_ c1 = handle_ c
     /\ queue_ c1 = queue_ c
     /\ (is_disconnected_ c = false ->
         is_enqueue_registered_ c1 = false
         /\ enqueue_registration (queue_up_end_ c1)
            = enqueue_registration (queue_up_end_ c)
              && negb (is_enqueue_registered_ c)
         /\ dequeue_registration (queue_up_end_ c1) = false)
     /\ ShimAclConnection_delete c1 = Done tt c1 t2)
  /\ (is_disconnected_ c = false ->
      exists t,
        ShimAclConnection_delete c
        = Stopped
            (AssertFailed
               "Shim Acl was not properly disconnected handle:0x%04x"
               [ArgNum (handle_ c)]) c t).
Proof.
  destruct c as [h sdu [er dr inb] ct q reg disc].
  unfold ShimAclConnection_Shutdown, ShimAclConnection_delete,
    ShimAclConnection_Disconnect, ShimAclConnection_UnregisterEnqueue,
    queue_up_end_UnregisterEnqueue, queue_up_end_UnregisterDequeue,
    ASSERT_LOG, bind, get, modify, log, tell, ret, stop.
  split.
  - destruct disc, reg, q; cbn; eexists _, _, _;
      (split; [reflexivity|]; cbn;
       do 3 (split; [reflexivity|]);
       split; [|reflexivity];
       intros Hlive; try discriminate Hlive; repeat split;
       try reflexivity; destruct er; reflexivity).
  - cbn. intros ->. destruct q; cbn; eexists; reflexivity.
Qed.

(** ** The life of a connection *)





End FurtherProperties.

(** * Properties of the requests that reach the lower manager *)

Section GatewayProperties.

Context {helpers : Helpers}.

Lemma gbind_GDone {A B} (m : G A) (k : A -> G B) s x s1 t1 :
  m s = GDone x s1 t1 -> gbind m k s = gafter t1 (k x s1).
Proof. intros Hm. unfold gbind. rewrite Hm. reflexivity. Qed.

Lemma manager_calls_app (t1 t2 : list GatewayEffect) :
  manager_calls (t1 ++ t2) = manager_calls t1 ++ manager_calls t2.
Proof. apply omap_app. Qed.

Lemma manager_calls_Shim (t : list Effect) : manager_calls (map Shim t) = [].
Proof. induction t as [|e t IH]; [reflexivity|exact IH]. Qed.

Lemma resolving_list_after_app (calls1 calls2 : list ManagerCall) start :
  resolving_list_after (calls1 ++ calls2) start
  = resolving_list_after calls2 (resolving_list_after calls1 start).
Proof. apply foldl_app. Qed.

(** One request on the resolving list. *)
Lemma run_resolution_request_passes_down (request : ResolutionRequest)
  (a : Acl) :
  let capacity :=
    max_address_resolution_size_ (shadow_address_resolution_list_ a) in
  let held := address_resolution_set_ (shadow_address_resolution_list_ a) in
  exists t,
    run_resolution_request request a
    = GDone tt
        (set_shadow_address_resolution_list_
           (MkShadowAddressResolutionList capacity
              (snd (passed_down request capacity held))) a) t
    /\ manager_calls t = fst (passed_down request capacity held)
    /\ only_logs_and_manager_calls t = true.
Proof.
  destruct a as [iface cmap lmap hist shadow [max set]].
  destruct request as [x peer_irk local_irk|x|];
    unfold run_resolution_request, AddToAddressResolution,
      RemoveFromAddressResolution, ClearResolvingList,
      on_shadow_address_resolution_list, ShadowAddressResolutionList_Add,
      ShadowAddressResolutionList_Remove, ShadowAddressResolutionList_Clear,
      ShadowAddressResolutionList_IsFull, ShadowAddressResolutionList_Size,
      passed_down,
      gbind, gget, gtell, gret, lift, bind, get, zoom, modify, log, tell, ret;
    cbn.
  - destruct (Z.eqb_spec (Z.of_nat (size set)) max) as [Hfull|Hroom]; cbn.
    + eexists. split; [reflexivity|]. split; reflexivity.
    + destruct (bool_decide_reflect (x ∈ set)) as [Hmem|Hmem]; cbn;
        rewrite (proj2 (Z.eqb_neq _ _) Hroom); cbn;
        (eexists; split; [reflexivity|]; split; reflexivity).
  - destruct (bool_decide_reflect (x ∈ set)) as [Hmem|Hmem]; cbn.
    + eexists. split; [reflexivity|]. split; reflexivity.
    + replace (set ∖ {[x]}) with set by set_solver.
      eexists. split; [reflexivity|]. split; reflexivity.
  - eexists. split; [reflexivity|]. split; reflexivity.
Qed.

Lemma passed_down_replay (request : ResolutionRequest) (capacity : Z)
  (held : gset AddressWithType) :
  resolving_list_after (fst (passed_down request capacity held)) held
  = snd (passed_down request capacity held).
Proof.
  destruct request as [x peer_irk local_irk|x|]; cbn; [|reflexivity..].
  destruct (Z.of_nat (size held) =? capacity); reflexivity.
Qed.

Lemma passed_down_within_capacity (request : ResolutionRequest)
  (capacity : Z) (held : gset AddressWithType) :
  Z.of_nat (size held) <= capacity ->
  Z.of_nat (size (snd (passed_down request capacity held))) <= capacity.
Proof.
  intros Hle. destruct request as [x peer_irk local_irk|x|]; cbn.
  - destruct (Z.eqb_spec (Z.of_nat (size held)) capacity) as [Hfull|Hroom];
      cbn; [exact Hle|].
    pose proof (size_insert_le x held). lia.
  - pose proof (size_remove_le x held). lia.
  - rewrite size_empty. lia.
Qed.

Lemma calls_passed_down_within_capacity (requests : list ResolutionRequest)
  (capacity : Z) (held : gset AddressWithType) :
  Z.of_nat (size held) <= capacity ->
  Z.of_nat (size (resolving_list_after
                    (calls_passed_down requests capacity held) held))
  <= capacity.
Proof.
  revert held. induction requests as [|request rest IH]; intros held Hle.
  - exact Hle.
  - cbn [calls_passed_down].
    rewrite resolving_list_after_app, passed_down_replay.
    apply IH, passed_down_within_capacity, Hle.
Qed.

Lemma only_logs_and_manager_calls_app (t1 t2 : list GatewayEffect) :
  only_logs_and_manager_calls t1 = true ->
  only_logs_and_manager_calls t2 = true ->
  only_logs_and_manager_calls (t1 ++ t2) = true.
Proof.
  intros H1 H2. unfold only_logs_and_manager_calls in *.
  rewrite forallb_app, H1, H2. reflexivity.
Qed.

Lemma run_resolution_requests_pass_down (requests : list ResolutionRequest)
  (a : Acl) :
  let capacity :=
    max_address_resolution_size_ (shadow_address_resolution_list_ a) in
  let held := address_resolution_set_ (shadow_address_resolution_list_ a) in
  exists t,
    run_resolution_requests requests a
    = GDone tt
        (set_shadow_address_resolution_list_
           (MkShadowAddressResolutionList capacity
              (resolving_list_after
                 (calls_passed_down requests capacity held) held)) a) t
    /\ manager_calls t = calls_passed_down requests capacity held
    /\ only_logs_and_manager_calls t = true.
Proof.
  revert a. induction requests as [|request rest IH]; intros a; cbn zeta.
  - exists []. split; [|split; reflexivity].
    destruct a as [iface cmap lmap hist shadow [max set]]. reflexivity.
  - destruct (run_resolution_request_passes_down request a)
      as (t1 & Hrun1 & Hcalls1 & Hquiet1).
    cbn zeta in Hrun1, Hcalls1.
    destruct (IH (set_shadow_address_resolution_list_
                    (MkShadowAddressResolutionList
                       (max_address_resolution_size_
                          (shadow_address_resolution_list_ a))
                       (snd (passed_down request
                               (max_address_resolution_size_
                                  (shadow_address_resolution_list_ a))
                               (address_resolution_set_
                                  (shadow_address_resolution_list_ a))))) a))
      as (t2 & Hrun2 & Hcalls2 & Hquiet2).
    cbn zeta in Hrun2, Hcalls2.
    destruct a as [iface cmap lmap hist shadow [max set]].
    cbn [shadow_address_resolution_list_ set_shadow_address_resolution_list_
         max_address_resolution_size_ address_resolution_set_
         acl_interface_ handle_to_classic_connection_map_
         handle_to_le_connection_map_ connection_history_ shadow_acceptlist_]
      in *.
    exists (t1 ++ t2). split; [|split].
    + cbn [run_resolution_requests calls_passed_down].
      rewrite (gbind_GDone _ _ _ _ _ _ Hrun1), Hrun2. cbn [gafter].
      rewrite resolving_list_after_app, passed_down_replay. reflexivity.
    + cbn [calls_passed_down].
      rewrite manager_calls_app, Hcalls1, Hcalls2. reflexivity.
    + apply only_logs_and_manager_calls_app; assumption.
Qed.

(** X15: whatever requests are made on the resolving list (add, remove,
    clear), each runs to its end.  The calls passed down to the lower
    manager are, in order, one add for each add request made while the
    shadow list has room and none for an add request made while it is
    full, one remove for each remove request and one clear for each
    clear request; besides these calls the requests only log.  The
    shadow address-resolution list then holds exactly the addresses that
    a lower manager carrying out these calls holds.  The capacity is
    never changed, nothing else of the manager is touched, and a list
    within its capacity stays within it. *)
Theorem shadow_resolution_list_mirrors_lower_calls
  (requests : list ResolutionRequest) (a : Acl) :
  let capacity :=
    max_address_resolution_size_ (shadow_address_resolution_list_ a) in
  let held := address_resolution_set_ (shadow_address_resolution_list_ a) in
  exists l t,
    run_resolution_requests requests a
    = GDone tt (set_shadow_address_resolution_list_ l a) t
    /\ manager_calls t = calls_passed_down requests capacity held
    /\ only_logs_and_manager_calls t = true
    /\ max_address_resolution_size_ l = capacity
    /\ address_resolution_set_ l = resolving_list_after (manager_calls t) held
    /\ (ShadowAddressResolutionList_Size (shadow_address_resolution_list_ a)
        <= capacity
        -> ShadowAddressResolutionList_Size l
           <= max_address_resolution_size_ l).
Proof.
  cbn zeta.
  destruct (run_resolution_requests_pass_down requests a)
    as (t & Hrun & Hcalls & Hquiet).
  cbn zeta in Hrun, Hcalls.
  eexists _, t. split; [exact Hrun|]. split; [exact Hcalls|].
  split; [exact Hquiet|]. split; [reflexivity|]. split.
  - cbn [address_resolution_set_]. rewrite Hcalls. reflexivity.
  - intros Hle. unfold ShadowAddressResolutionList_Size.
    cbn [address_resolution_set_ max_address_resolution_size_].
    apply calls_passed_down_within_capacity. exact Hle.
Qed.

(** ** The accept list *)

Lemma accept_on_fresh_room (a : Acl) (x : AddressWithType) (is_direct : bool) :
  ShadowAcceptlist_IsFull (shadow_acceptlist_ a) = false ->
  accept_le_connection_from x is_direct a
  = Done tt
      (set_shadow_acceptlist_
         (MkShadowAcceptlist
            (max_acceptlist_size_ (shadow_acceptlist_ a))
            ({[ ConnectAddressWithType_of x ]}
             ∪ acceptlist_set_ (shadow_acceptlist_ a))) a)
      ((if bool_decide (ConnectAddressWithType_of x
                        ∈ acceptlist_set_ (shadow_acceptlist_ a))
        then [Log WARN "Attempted to add duplicate le address to acceptlist:{}"
                  [ArgAddressWithType x]]
        else [])
       ++ [PromiseSetValue true;
           Lower (Call_CreateLeConnection x is_direct);
           Log DEBUG "Allow Le connection from remote:{}"
               [ArgAddressWithType x];
           BtmLogHistoryBle kBtmLogTag (ToLegacyAddressWithType x)
             "Allow connection from" "Le" []]).
Proof.
  destruct a as [iface cmap lmap hist [max set] ar]. cbn.
  unfold accept_le_connection_from, on_shadow_acceptlist,
    ShadowAcceptlist_Add, ShadowAcceptlist_IsFull, acceptlist_size,
    bind, get, zoom, modify, log, tell, ret. cbn.
  intros Hroom. rewrite !Hroom. cbn.
  destruct (bool_decide_reflect (ConnectAddressWithType_of x ∈ set));
    cbn; rewrite ?Hroom; reflexivity.
Qed.

Lemma clear_acceptlist_GDone (a : Acl) :
  clear_acceptlist a
  = GDone tt
      (set_shadow_acceptlist_
         (MkShadowAcceptlist (max_acceptlist_size_ (shadow_acceptlist_ a)) ∅)
         a)
      [Manager Call_ClearFilterAcceptList;
       Shim (Log DEBUG "Cleared entire Le address acceptlist count:{}"
               [ArgNum (acceptlist_size (shadow_acceptlist_ a))])].
Proof. destruct a as [iface cmap lmap hist [max set] ar]. reflexivity. Qed.

(** X16: [clear_acceptlist] always runs to its end, asks the lower
    manager once to clear its filter accept list, empties the shadow
    accept list, keeps its capacity and logs the number of entries it
    held.  An accept request made right after it is granted and puts its
    address alone in the list, unless the capacity is 0: then even the
    emptied list counts as full, the promise is given false and no
    connection is asked of the lower manager. *)
Theorem clear_acceptlist_then_accept (a : Acl) (x : AddressWithType)
  (is_direct : bool) :
  let capacity := max_acceptlist_size_ (shadow_acceptlist_ a) in
  let r := clear_then_accept x is_direct a in
  clear_acceptlist a
  = GDone tt (set_shadow_acceptlist_ (MkShadowAcceptlist capacity ∅) a)
      [Manager Call_ClearFilterAcceptList;
       Shim (Log DEBUG "Cleared entire Le address acceptlist count:{}"
               [ArgNum (acceptlist_size (shadow_acceptlist_ a))])]
  /\ gcompleted r = true
  /\ manager_calls (gtrace_of r) = [Call_ClearFilterAcceptList]
  /\ if capacity =? 0 then
       gstate_of r
       = set_shadow_acceptlist_ (MkShadowAcceptlist capacity ∅) a
       /\ promise_values (shim_effects (gtrace_of r)) = [false]
       /\ lower_calls (shim_effects (gtrace_of r)) = []
     else
       gstate_of r
       = set_shadow_acceptlist_
           (MkShadowAcceptlist capacity {[ ConnectAddressWithType_of x ]}) a
       /\ promise_values (shim_effects (gtrace_of r)) = [true]
       /\ lower_calls (shim_effects (gtrace_of r))
          = [Call_CreateLeConnection x is_direct].
Proof.
  cbn zeta. split; [apply clear_acceptlist_GDone|].
  unfold clear_then_accept.
  rewrite (gbind_GDone _ _ _ _ _ _ (clear_acceptlist_GDone a)).
  destruct a as [iface cmap lmap hist [max set] ar].
  cbn [shadow_acceptlist_ max_acceptlist_size_ acceptlist_set_
       set_shadow_acceptlist_ acl_interface_
       handle_to_classic_connection_map_ handle_to_le_connection_map_
       connection_history_ shadow_address_resolution_list_].
  destruct (Z.eqb_spec max 0) as [->|Hcap].
  - unfold lift, accept_le_connection_from, bind, get, log, tell,
      ShadowAcceptlist_IsFull, acceptlist_size.
    cbn. repeat split.
  - unfold lift. rewrite accept_on_fresh_room.
    + cbn [shadow_acceptlist_ max_acceptlist_size_ acceptlist_set_
           set_shadow_acceptlist_ acl_interface_
           handle_to_classic_connection_map_ handle_to_le_connection_map_
           connection_history_ shadow_address_resolution_list_].
      rewrite bool_decide_false by set_solver.
      rewrite union_empty_r_L. cbn. repeat split.
    + unfold ShadowAcceptlist_IsFull, acceptlist_size. cbn.
      rewrite size_empty. apply Z.eqb_neq. cbn. lia.
Qed.

(** X17: [OnLeConnectFail] always runs to its end, posts on_failed to
    the upper layer with the legacy address, handle 0, the enhanced flag
    and the legacy status of the reason (or drops the event with a
    warning when the callback is absent) and then takes the address out
    of the shadow accept list; nothing is asked of the lower manager and
    nothing else of the manager changes.  So an accept request for an
    address that was not in the list, followed by the failure of the
    attempt, leaves the manager exactly as it was. *)
Theorem le_connect_fail_releases_accept_entry (a : Acl)
  (x : AddressWithType) (is_direct : bool) (reason : ErrorCode) :
  let r := OnLeConnectFail x reason a in
  (gcompleted r = true
   /\ gstate_of r
      = set_shadow_acceptlist_
          (MkShadowAcceptlist
             (max_acceptlist_size_ (shadow_acceptlist_ a))
             (acceptlist_set_ (shadow_acceptlist_ a)
              ∖ {[ ConnectAddressWithType_of x ]})) a
   /\ failed_posts (gtrace_of r)
      = (if connection_le_on_failed (acl_interface_ a)
         then [le_on_failed (ToLegacyAddressWithType x) 0 true
                 (ToLegacyHciErrorCode reason)]
         else [])
   /\ manager_calls (gtrace_of r) = []
   /\ lower_calls (shim_effects (gtrace_of r)) = [])
  /\ (ConnectAddressWithType_of x ∉ acceptlist_set_ (shadow_acceptlist_ a) ->
      ShadowAcceptlist_IsFull (shadow_acceptlist_ a) = false ->
      let r2 := accept_then_fail x is_direct reason a in
      gcompleted r2 = true
      /\ gstate_of r2 = a
      /\ promise_values (shim_effects (gtrace_of r2)) = [true]
      /\ lower_calls (shim_effects (gtrace_of r2))
         = [Call_CreateLeConnection x is_direct]).
Proof.
  cbn zeta. split.
  - destruct a as [[b1 b2 b3 b4 b5 b6 b7 b8 lc] cmap lmap hist [max set] ar].
    unfold OnLeConnectFail, TRY_POSTING_ON_MAIN_failed, on_shadow_acceptlist,
      ShadowAcceptlist_Remove, gbind, gget, gtell, gret, lift,
      bind, get, zoom, modify, log, tell, ret.
    cbn.
    destruct b7; cbn;
      (destruct (bool_decide_reflect (ConnectAddressWithType_of x ∈ set))
         as [Hmem|Hmem]; cbn; repeat split;
       replace (set ∖ {[ConnectAddressWithType_of x]}) with set
         by set_solver; reflexivity).
  - intros Hnew Hroom.
    assert (exists t,
               accept_then_fail x is_direct reason a = GDone tt a t
               /\ promise_values (shim_effects t) = [true]
               /\ lower_calls (shim_effects t)
                  = [Call_CreateLeConnection x is_direct])
      as (t & Hrun & Hpromise & Hlower).
    { unfold accept_then_fail.
      unfold lift at 1.
      unfold gbind at 1. rewrite (accept_on_fresh_room a x is_direct Hroom).
      rewrite bool_decide_false by exact Hnew.
      destruct a as [[b1 b2 b3 b4 b5 b6 b7 b8 lc] cmap lmap hist [max set]
                       ar].
      cbn in Hnew.
      unfold OnLeConnectFail, TRY_POSTING_ON_MAIN_failed,
        on_shadow_acceptlist, ShadowAcceptlist_Remove, gbind, gget, gtell,
        gret, lift, bind, get, zoom, modify, log, tell, ret.
      cbn.
      destruct b7; cbn;
        (rewrite bool_decide_true by set_solver;
         replace (({[ConnectAddressWithType_of x]} ∪ set)
                  ∖ {[ConnectAddressWithType_of x]}) with set by set_solver;
         cbn; eexists; repeat split). }
    rewrite Hrun. cbn. repeat split; assumption.
Qed.

(** ** Shutdown *)

Lemma lift_Done {A} (m : M Acl A) s x s1 t :
  m s = Done x s1 t -> lift m s = GDone x s1 (map Shim t).
Proof. intros Hm. unfold lift. rewrite Hm. reflexivity. Qed.

Lemma elem_of_handles_of {V} (m : gmap Z V) (h : Z) :
  h ∈ handles_of m <-> is_Some (m !! h).
Proof.
  unfold handles_of. rewrite merge_sort_Permutation, elem_of_elements.
  apply elem_of_dom.
Qed.

Lemma NoDup_handles_of {V} (m : gmap Z V) : NoDup (handles_of m).
Proof.
  unfold handles_of. rewrite merge_sort_Permutation. apply NoDup_elements.
Qed.

Lemma ShimAclConnection_Shutdown_Done (c : ShimAclConnection) :
  exists c' t,
    ShimAclConnection_Shutdown c = Done tt c' t
    /\ is_disconnected_ c' = true.
Proof.
  destruct (ShimAclConnection_Disconnect_Done c)
    as (c' & t & Hdisc & Hlatch & _).
  eexists c', _. split; [|exact Hlatch].
  unfold ShimAclConnection_Shutdown.
  rewrite (bind_Done _ _ _ _ _ _ Hdisc). reflexivity.
Qed.

Lemma shutdown_classic_loop (l : list Z) (a : Acl) :
  (forall h, h ∈ l -> is_Some (handle_to_classic_connection_map_ a !! h)) ->
  exists cmap' t,
    for_each_handle l
      (fun handle =>
         on_classic_link handle (classic_super ShimAclConnection_Shutdown)) a
    = Done tt (set_handle_to_classic_connection_map_ cmap' a) t
    /\ (forall h, is_Some (cmap' !! h)
                  <-> is_Some (handle_to_classic_connection_map_ a !! h))
    /\ (forall h link',
          cmap' !! h = Some link' ->
          h ∈ l
          \/ (forall link,
                 handle_to_classic_connection_map_ a !! h = Some link ->
                 is_disconnected_ (classic_base link) = true) ->
          is_disconnected_ (classic_base link') = true).
Proof.
  revert a. induction l as [|h0 rest IH]; intros a Hin.
  - exists (handle_to_classic_connection_map_ a), [].
    split; [destruct a; reflexivity|]. split; [tauto|].
    intros h link' Hat [Hnil|Hl]; [inversion Hnil|exact (Hl _ Hat)].
  - destruct (Hin h0) as [link Hat]; [left|].
    destruct (ShimAclConnection_Shutdown_Done (classic_base link))
      as (base & t1 & Hsd & Hlatch).
    pose (a1 := set_handle_to_classic_connection_map_
                  (<[h0 := set_classic_base base link]>
                     (handle_to_classic_connection_map_ a)) a).
    assert (Hmap1 : handle_to_classic_connection_map_ a1
                    = <[h0 := set_classic_base base link]>
                        (handle_to_classic_connection_map_ a))
      by (destruct a; reflexivity).
    destruct (IH a1) as (cmap' & t2 & Hrun & Hdom & Hl').
    { intros h Hh. rewrite Hmap1.
      destruct (decide (h = h0)) as [->|Hne].
      - rewrite lookup_insert_eq. eauto.
      - rewrite lookup_insert_ne by congruence. apply Hin. right. exact Hh. }
    exists cmap', (t1 ++ t2). split; [|split].
    + unfold for_each_handle in *. cbn [foldr].
      rewrite (bind_Done _ _ _ _ _ _
                 (on_classic_link_Done a h0 _ link _ _ _ Hat Hsd)).
      fold a1. rewrite Hrun. destruct a; reflexivity.
    + intros h. rewrite Hdom, Hmap1.
      destruct (decide (h = h0)) as [->|Hne].
      * rewrite lookup_insert_eq. split; eauto.
      * rewrite lookup_insert_ne by congruence. tauto.
    + intros h link' Hat' Hcase. apply (Hl' h link' Hat').
      rewrite Hmap1.
      destruct (decide (h = h0)) as [->|Hne].
      * right. intros link0. rewrite lookup_insert_eq.
        intros Heq. inversion Heq. exact Hlatch.
      * destruct Hcase as [Hin'|Hl0].
        -- left. apply elem_of_cons in Hin' as [?|?]; [congruence|assumption].
        -- right. intros link0. rewrite lookup_insert_ne by congruence.
           apply Hl0.
Qed.

Lemma shutdown_classic_links_Done (a : Acl) :
  exists cmap' t,
    shutdown_classic_links a
    = Done tt (set_handle_to_classic_connection_map_ cmap' a) t
    /\ (forall h link,
          cmap' !! h = Some link ->
          is_disconnected_ (classic_base link) = true).
Proof.
  destruct (shutdown_classic_loop
              (handles_of (handle_to_classic_connection_map_ a)) a)
    as (cmap' & t & Hrun & Hdom & Hl).
  { intros h Hh. apply elem_of_handles_of. exact Hh. }
  exists cmap', t. split.
  - unfold shutdown_classic_links, bind, get. rewrite after_no_effects.
    exact Hrun.
  - intros h link Hat. apply (Hl h link Hat). left.
    apply elem_of_handles_of, Hdom. eauto.
Qed.

Lemma clear_classic_loop (l : list Z) (a : Acl) :
  NoDup l ->
  (forall h, h ∈ l ->
     exists link,
       handle_to_classic_connection_map_ a !! h = Some link
       /\ is_disconnected_ (classic_base link) = true) ->
  exists cmap' t,
    for_each_handle l erase_classic a
    = Done tt (set_handle_to_classic_connection_map_ cmap' a) t
    /\ (forall h, h ∈ l -> cmap' !! h = None)
    /\ (forall h, h ∉ l ->
          cmap' !! h = handle_to_classic_connection_map_ a !! h).
Proof.
  revert a. induction l as [|h0 rest IH]; intros a Hnodup Hin.
  - exists (handle_to_classic_connection_map_ a), [].
    split; [destruct a; reflexivity|]. split; [|reflexivity].
    intros h Hnil. inversion Hnil.
  - apply NoDup_cons in Hnodup as [Hfresh Hnodup].
    destruct (Hin h0) as (link & Hat & Hlatch); [left|].
    destruct (erase_classic_Done a h0 link Hat Hlatch) as (t1 & Herase & _).
    pose (a1 := set_handle_to_classic_connection_map_
                  (delete h0 (handle_to_classic_connection_map_ a)) a).
    assert (Hmap1 : handle_to_classic_connection_map_ a1
                    = delete h0 (handle_to_classic_connection_map_ a))
      by (destruct a; reflexivity).
    destruct (IH a1 Hnodup) as (cmap' & t2 & Hrun & Hgone & Hkept).
    { intros h Hh. rewrite Hmap1.
      rewrite lookup_delete_ne by (intros ->; contradiction).
      apply Hin. right. exact Hh. }
    exists cmap', ((t1 ++ [RegistryErase h0]) ++ t2). split; [|split].
    + unfold for_each_handle in *. cbn [foldr].
      rewrite (bind_Done _ _ _ _ _ _ Herase).
      fold a1. rewrite Hrun. destruct a; reflexivity.
    + intros h Hh. apply elem_of_cons in Hh as [->|Hh].
      * rewrite (Hkept h0 Hfresh), Hmap1. apply lookup_delete_eq.
      * apply Hgone, Hh.
    + intros h Hh. apply not_elem_of_cons in Hh as [Hne Hh].
      rewrite (Hkept h Hh), Hmap1. apply lookup_delete_ne. congruence.
Qed.

Lemma clear_classic_Done (a : Acl) :
  (forall h link,
     handle_to_classic_connection_map_ a !! h = Some link ->
     is_disconnected_ (classic_base link) = true) ->
  exists t,
    clear_classic a = Done tt (set_handle_to_classic_connection_map_ ∅ a) t.
Proof.
  intros Hlatched.
  destruct (clear_classic_loop
              (handles_of (handle_to_classic_connection_map_ a)) a)
    as (cmap' & t & Hrun & Hgone & Hkept).
  { apply NoDup_handles_of. }
  { intros h Hh. apply elem_of_handles_of in Hh as [link Hat].
    exists link. split; [exact Hat|]. exact (Hlatched _ _ Hat). }
  exists t.
  unfold clear_classic, bind, get. rewrite after_no_effects, Hrun.
  replace cmap' with (∅ : gmap Z ClassicShimAclConnection); [reflexivity|].
  symmetry. apply map_empty. intros h.
  destruct (decide (h ∈ handles_of (handle_to_classic_connection_map_ a)))
    as [Hh|Hh].
  - apply Hgone, Hh.
  - rewrite (Hkept h Hh).
    destruct (handle_to_classic_connection_map_ a !! h) eqn:Hat;
      [|reflexivity].
    exfalso. apply Hh, elem_of_handles_of. eauto.
Qed.

Lemma shutdown_le_loop (l : list Z) (a : Acl) :
  (forall h, h ∈ l -> is_Some (handle_to_le_connection_map_ a !! h)) ->
  exists cmap' t,
    for_each_handle l
      (fun handle =>
         on_le_link handle (le_super ShimAclConnection_Shutdown)) a
    = Done tt (set_handle_to_le_connection_map_ cmap' a) t
    /\ (forall h, is_Some (cmap' !! h)
                  <-> is_Some (handle_to_le_connection_map_ a !! h))
    /\ (forall h link',
          cmap' !! h = Some link' ->
          h ∈ l
          \/ (forall link,
                 handle_to_le_connection_map_ a !! h = Some link ->
                 is_disconnected_ (le_base link) = true) ->
          is_disconnected_ (le_base link') = true).
Proof.
  revert a. induction l as [|h0 rest IH]; intros a Hin.
  - exists (handle_to_le_connection_map_ a), [].
    split; [destruct a; reflexivity|]. split; [tauto|].
    intros h link' Hat [Hnil|Hl]; [inversion Hnil|exact (Hl _ Hat)].
  - destruct (Hin h0) as [link Hat]; [left|].
    destruct (ShimAclConnection_Shutdown_Done (le_base link))
      as (base & t1 & Hsd & Hlatch).
    pose (a1 := set_handle_to_le_connection_map_
                  (<[h0 := set_le_base base link]>
                     (handle_to_le_connection_map_ a)) a).
    assert (Hmap1 : handle_to_le_connection_map_ a1
                    = <[h0 := set_le_base base link]>
                        (handle_to_le_connection_map_ a))
      by (destruct a; reflexivity).
    destruct (IH a1) as (cmap' & t2 & Hrun & Hdom & Hl').
    { intros h Hh. rewrite Hmap1.
      destruct (decide (h = h0)) as [->|Hne].
      - rewrite lookup_insert_eq. eauto.
      - rewrite lookup_insert_ne by congruence. apply Hin. right. exact Hh. }
    exists cmap', (t1 ++ t2). split; [|split].
    + unfold for_each_handle in *. cbn [foldr].
      rewrite (bind_Done _ _ _ _ _ _
                 (on_le_link_Done a h0 _ link _ _ _ Hat Hsd)).
      fold a1. rewrite Hrun. destruct a; reflexivity.
    + intros h. rewrite Hdom, Hmap1.
      destruct (decide (h = h0)) as [->|Hne].
      * rewrite lookup_insert_eq. split; eauto.
      * rewrite lookup_insert_ne by congruence. tauto.
    + intros h link' Hat' Hcase. apply (Hl' h link' Hat').
      rewrite Hmap1.
      destruct (decide (h = h0)) as [->|Hne].
      * right. intros link0. rewrite lookup_insert_eq.
        intros Heq. inversion Heq. exact Hlatch.
      * destruct Hcase as [Hin'|Hl0].
        -- left. apply elem_of_cons in Hin' as [?|?]; [congruence|assumption].
        -- right. intros link0. rewrite lookup_insert_ne by congruence.
           apply Hl0.
Qed.

Lemma shutdown_le_links_Done (a : Acl) :
  exists cmap' t,
    shutdown_le_links a
    = Done tt (set_handle_to_le_connection_map_ cmap' a) t
    /\ (forall h link,
          cmap' !! h = Some link ->
          is_disconnected_ (le_base link) = true).
Proof.
  destruct (shutdown_le_loop
              (handles_of (handle_to_le_connection_map_ a)) a)
    as (cmap' & t & Hrun & Hdom & Hl).
  { intros h Hh. apply elem_of_handles_of. exact Hh. }
  exists cmap', t. split.
  - unfold shutdown_le_links, bind, get. rewrite after_no_effects.
    exact Hrun.
  - intros h link Hat. apply (Hl h link Hat). left.
    apply elem_of_handles_of, Hdom. eauto.
Qed.

Lemma clear_le_loop (l : list Z) (a : Acl) :
  NoDup l ->
  (forall h, h ∈ l ->
     exists link,
       handle_to_le_connection_map_ a !! h = Some link
       /\ is_disconnected_ (le_base link) = true) ->
  exists cmap' t,
    for_each_handle l erase_le a
    = Done tt (set_handle_to_le_connection_map_ cmap' a) t
    /\ (forall h, h ∈ l -> cmap' !! h = None)
    /\ (forall h, h ∉ l ->
          cmap' !! h = handle_to_le_connection_map_ a !! h).
Proof.
  revert a. induction l as [|h0 rest IH]; intros a Hnodup Hin.
  - exists (handle_to_le_connection_map_ a), [].
    split; [destruct a; reflexivity|]. split; [|reflexivity].
    intros h Hnil. inversion Hnil.
  - apply NoDup_cons in Hnodup as [Hfresh Hnodup].
    destruct (Hin h0) as (link & Hat & Hlatch); [left|].
    destruct (erase_le_Done a h0 link Hat Hlatch) as (t1 & Herase & _).
    pose (a1 := set_handle_to_le_connection_map_
                  (delete h0 (handle_to_le_connection_map_ a)) a).
    assert (Hmap1 : handle_to_le_connection_map_ a1
                    = delete h0 (handle_to_le_connection_map_ a))
      by (destruct a; reflexivity).
    destruct (IH a1 Hnodup) as (cmap' & t2 & Hrun & Hgone & Hkept).
    { intros h Hh. rewrite Hmap1.
      rewrite lookup_delete_ne by (intros ->; contradiction).
      apply Hin. right. exact Hh. }
    exists cmap', ((t1 ++ [RegistryErase h0]) ++ t2). split; [|split].
    + unfold for_each_handle in *. cbn [foldr].
      rewrite (bind_Done _ _ _ _ _ _ Herase).
      fold a1. rewrite Hrun. destruct a; reflexivity.
    + intros h Hh. apply elem_of_cons in Hh as [->|Hh].
      * rewrite (Hkept h0 Hfresh), Hmap1. apply lookup_delete_eq.
      * apply Hgone, Hh.
    + intros h Hh. apply not_elem_of_cons in Hh as [Hne Hh].
      rewrite (Hkept h Hh), Hmap1. apply lookup_delete_ne. congruence.
Qed.

Lemma clear_le_Done (a : Acl) :
  (forall h link,
     handle_to_le_connection_map_ a !! h = Some link ->
     is_disconnected_ (le_base link) = true) ->
  exists t,
    clear_le a = Done tt (set_handle_to_le_connection_map_ ∅ a) t.
Proof.
  intros Hlatched.
  destruct (clear_le_loop
              (handles_of (handle_to_le_connection_map_ a)) a)
    as (cmap' & t & Hrun & Hgone & Hkept).
  { apply NoDup_handles_of. }
  { intros h Hh. apply elem_of_handles_of in Hh as [link Hat].
    exists link. split; [exact Hat|]. exact (Hlatched _ _ Hat). }
  exists t.
  unfold clear_le, bind, get. rewrite after_no_effects, Hrun.
  replace cmap' with (∅ : gmap Z LeShimAclConnection); [reflexivity|].
  symmetry. apply map_empty. intros h.
  destruct (decide (h ∈ handles_of (handle_to_le_connection_map_ a)))
    as [Hh|Hh].
  - apply Hgone, Hh.
  - rewrite (Hkept h Hh).
    destruct (handle_to_le_connection_map_ a !! h) eqn:Hat;
      [|reflexivity].
    exfalso. apply Hh, elem_of_handles_of. eauto.
Qed.

Lemma set_classic_map_twice m1 m2 (a : Acl) :
  set_handle_to_classic_connection_map_ m2
    (set_handle_to_classic_connection_map_ m1 a)
  = set_handle_to_classic_connection_map_ m2 a.
Proof. destruct a; reflexivity. Qed.

Lemma set_le_map_twice m1 m2 (a : Acl) :
  set_handle_to_le_connection_map_ m2
    (set_handle_to_le_connection_map_ m1 a)
  = set_handle_to_le_connection_map_ m2 a.
Proof. destruct a; reflexivity. Qed.

(** The two loops of a shutdown on the classic registry. *)
Lemma shutdown_then_clear_classic (a : Acl) :
  exists a1 t1 t2,
    shutdown_classic_links a = Done tt a1 t1
    /\ clear_classic a1
       = Done tt (set_handle_to_classic_connection_map_ ∅ a) t2.
Proof.
  destruct (shutdown_classic_links_Done a) as (cmap' & t1 & Hsd & Hlatched).
  destruct (clear_classic_Done
              (set_handle_to_classic_connection_map_ cmap' a))
    as (t2 & Hclear).
  { destruct a; exact Hlatched. }
  rewrite set_classic_map_twice in Hclear. eauto.
Qed.

Lemma shutdown_then_clear_le (a : Acl) :
  exists a1 t1 t2,
    shutdown_le_links a = Done tt a1 t1
    /\ clear_le a1 = Done tt (set_handle_to_le_connection_map_ ∅ a) t2.
Proof.
  destruct (shutdown_le_links_Done a) as (lmap' & t1 & Hsd & Hlatched).
  destruct (clear_le_Done (set_handle_to_le_connection_map_ lmap' a))
    as (t2 & Hclear).
  { destruct a; exact Hlatched. }
  rewrite set_le_map_twice in Hclear. eauto.
Qed.

Ltac run_gateway_step H :=
  rewrite (gbind_GDone _ _ _ _ _ _ (lift_Done _ _ _ _ _ H));
  cbn [gafter].

(** X18: whatever links the registries hold and whatever state they are
    in, a shutdown request runs to its end: no destructor assertion is
    tripped, the registry is empty afterwards, nothing else of the
    manager has changed, and the promise of the request is given its
    value once, as the last effect.  [FinalShutdown] does so for both
    registries, and the counts it logs are those of the emptied
    registries, 0. *)
Theorem shutdown_empties_the_registries (a : Acl) :
  (exists t,
     ShutdownClassicConnections a
     = GDone tt (set_handle_to_classic_connection_map_ ∅ a)
         (map Shim t ++ [PromiseVoidSetValue]))
  /\ (exists t,
       ShutdownLeConnections a
       = GDone tt (set_handle_to_le_connection_map_ ∅ a)
           (map Shim t ++ [PromiseVoidSetValue]))
  /\ (exists t1 t2,
       FinalShutdown a
       = GDone tt
           (set_handle_to_le_connection_map_ ∅
              (set_handle_to_classic_connection_map_ ∅ a))
           (map Shim
              (t1
               ++ (if (size (handle_to_classic_connection_map_ a) =? 0)%nat
                   then []
                   else [Log INFO "Cleared all classic connections count:{}"
                           [ArgNum 0]])
               ++ t2
               ++ (if (size (handle_to_le_connection_map_ a) =? 0)%nat
                   then []
                   else [Log INFO "Cleared all le connections count:{}"
                           [ArgNum 0]]))
            ++ [PromiseVoidSetValue])).
Proof.
  split; [|split].
  - destruct (shutdown_then_clear_classic a)
      as (a1 & t1 & t2 & Hsd & Hclear).
    exists ([Log INFO "Shutdown gd acl shim classic connections" []]
            ++ t1 ++ t2).
    unfold ShutdownClassicConnections.
    rewrite (gbind_GDone _ _ a tt a
               [Shim (Log INFO "Shutdown gd acl shim classic connections" [])])
      by reflexivity.
    run_gateway_step Hsd. run_gateway_step Hclear.
    unfold gtell. cbn [gafter]. rewrite !map_app, <- !app_assoc. reflexivity.
  - destruct (shutdown_then_clear_le a) as (a1 & t1 & t2 & Hsd & Hclear).
    exists ([Log INFO "Shutdown gd acl shim le connections" []] ++ t1 ++ t2).
    unfold ShutdownLeConnections.
    rewrite (gbind_GDone _ _ a tt a
               [Shim (Log INFO "Shutdown gd acl shim le connections" [])])
      by reflexivity.
    run_gateway_step Hsd. run_gateway_step Hclear.
    unfold gtell. cbn [gafter]. rewrite !map_app, <- !app_assoc. reflexivity.
  - pose (a' := set_handle_to_classic_connection_map_ ∅ a).
    assert (Hclassic : exists t1,
              (if negb (size (handle_to_classic_connection_map_ a) =? 0)%nat
               then
                 gbind (lift shutdown_classic_links) (fun _ =>
                 gbind (lift clear_classic) (fun _ =>
                 gbind gget (fun a1 =>
                   lift (log INFO "Cleared all classic connections count:{}"
                           [ArgNum
                              (Z.of_nat
                                 (size
                                    (handle_to_classic_connection_map_
                                       a1)))]))))
               else gret tt) a
              = GDone tt a'
                  (map Shim
                     (t1 ++ (if (size (handle_to_classic_connection_map_ a)
                                 =? 0)%nat
                             then []
                             else [Log INFO
                                     "Cleared all classic connections count:{}"
                                     [ArgNum 0]])))).
    { destruct (Nat.eqb_spec (size (handle_to_classic_connection_map_ a)) 0)
        as [Hempty|Hsome]; cbn [negb].
      - exists []. apply map_size_empty_iff in Hempty.
        subst a'. rewrite <- Hempty. destruct a; reflexivity.
      - destruct (shutdown_then_clear_classic a)
          as (a1 & t1 & t2 & Hsd & Hclear).
        exists (t1 ++ t2).
        run_gateway_step Hsd. run_gateway_step Hclear.
        unfold gbind, gget, lift, log, tell. cbn [gafter].
        subst a'. destruct a. cbn. rewrite !map_app, <- !app_assoc.
        reflexivity. }
    assert (Hle : exists t2,
              gbind gget (fun a2 =>
                gbind
                  (if negb (size (handle_to_le_connection_map_ a2) =? 0)%nat
                   then
                     gbind (lift shutdown_le_links) (fun _ =>
                     gbind (lift clear_le) (fun _ =>
                     gbind gget (fun a3 =>
                       lift (log INFO "Cleared all le connections count:{}"
                               [ArgNum
                                  (Z.of_nat
                                     (size
                                        (handle_to_le_connection_map_
                                           a3)))]))))
                   else gret tt)
                  (fun _ => gtell PromiseVoidSetValue)) a'
              = GDone tt (set_handle_to_le_connection_map_ ∅ a')
                  (map Shim
                     (t2 ++ (if (size (handle_to_le_connection_map_ a)
                                 =? 0)%nat
                             then []
                             else [Log INFO
                                     "Cleared all le connections count:{}"
                                     [ArgNum 0]]))
                   ++ [PromiseVoidSetValue])).
    { unfold gbind at 1, gget at 1. cbn [gafter].
      assert (Hsame : handle_to_le_connection_map_ a'
                      = handle_to_le_connection_map_ a)
        by (subst a'; destruct a; reflexivity).
      rewrite Hsame.
      destruct (Nat.eqb_spec (size (handle_to_le_connection_map_ a)) 0)
        as [Hempty|Hsome]; cbn [negb].
      - exists []. apply map_size_empty_iff in Hempty.
        rewrite <- Hsame in Hempty. rewrite <- Hempty.
        destruct a'; reflexivity.
      - destruct (shutdown_then_clear_le a')
          as (a1 & t1 & t2 & Hsd & Hclear).
        exists (t1 ++ t2).
        unfold gbind at 1.
        run_gateway_step Hsd. run_gateway_step Hclear.
        unfold gbind, gget, gtell, lift, log, tell. cbn [gafter].
        destruct a'. cbn. rewrite !map_app, <- !app_assoc.
        reflexivity. }
    destruct Hclassic as (t1 & Hclassic). destruct Hle as (t2 & Hle).
    exists t1, t2. unfold FinalShutdown.
    unfold gbind at 1, gget at 1. cbn beta iota.
    rewrite (gbind_GDone _ _ _ _ _ _ Hclassic), Hle. cbn [gafter app].
    rewrite !map_app, <- !app_assoc. reflexivity.
Qed.

End GatewayProperties.

(** * The properties at concrete inputs *)

#[local] Existing Instance example_helpers.

(** C10 on lists of capacity 1 that already hold the entry added. *)
Lemma add_on_full_list_is_rejected_witness :
  (ShadowAcceptlist_IsFull example_full_acceptlist = true
   /\ ConnectAddressWithType_of example_A
      ∈ acceptlist_set_ example_full_acceptlist
   /\ value_of (ShadowAcceptlist_Add example_A example_full_acceptlist)
      = Some false)
  /\ (ShadowAddressResolutionList_IsFull example_full_resolution_list = true
      /\ example_A ∈ address_resolution_set_ example_full_resolution_list
      /\ value_of (ShadowAddressResolutionList_Add
                     example_A example_full_resolution_list)
         = Some false).
Proof.
  assert (H1 : ShadowAcceptlist_IsFull example_full_acceptlist = true)
    by (vm_compute; reflexivity).
  assert (H2 : ShadowAddressResolutionList_IsFull
                 example_full_resolution_list = true)
    by (vm_compute; reflexivity).
  split;
    (split; [assumption|split;
       [unfold example_full_acceptlist, example_full_resolution_list;
        cbn [acceptlist_set_ address_resolution_set_];
        apply elem_of_singleton_2; reflexivity|]]).
  - rewrite (proj1 add_on_full_list_is_rejected _ example_A H1). reflexivity.
  - rewrite (proj2 add_on_full_list_is_rejected _ example_A H2). reflexivity.
Defined.

(** C9, for new entries, on the empty lists of the new manager. *)
Lemma add_then_remove_of_new_entry_restores_witness :
  state_of (ShadowAcceptlist_add_remove
              example_A (shadow_acceptlist_ example_acl))
  = shadow_acceptlist_ example_acl
  /\ state_of (ShadowAddressResolutionList_add_remove
                 example_A (shadow_address_resolution_list_ example_acl))
     = shadow_address_resolution_list_ example_acl.
Proof.
  split.
  - apply (proj1 add_then_remove_of_new_entry_restores).
    apply not_elem_of_empty.
  - apply (proj2 add_then_remove_of_new_entry_restores).
    apply not_elem_of_empty.
Defined.

(** C9 for any entry fails on a list that already holds the entry: the
    duplicate [Add] changes nothing and [Remove] takes the entry out. *)
Lemma add_then_remove_of_member_loses_entry :
  state_of (ShadowAcceptlist_add_remove example_A example_acceptlist_with_A)
  <> example_acceptlist_with_A
  /\ state_of (ShadowAddressResolutionList_add_remove
                 example_A example_resolution_list_with_A)
     <> example_resolution_list_with_A.
Proof.
  split; intros Heq.
  - assert (Hin : bool_decide
                    (ConnectAddressWithType_of example_A
                     ∈ acceptlist_set_
                         (state_of (ShadowAcceptlist_add_remove
                                      example_A example_acceptlist_with_A)))
                  = true)
      by (rewrite Heq; vm_compute; reflexivity).
    vm_compute in Hin. discriminate Hin.
  - assert (Hin : bool_decide
                    (example_A
                     ∈ address_resolution_set_
                         (state_of (ShadowAddressResolutionList_add_remove
                                      example_A
                                      example_resolution_list_with_A)))
                  = true)
      by (rewrite Heq; vm_compute; reflexivity).
    vm_compute in Hin. discriminate Hin.
Qed.

(** C4 on scenario S4: capacity 2, A and the identity address accepted,
    then a third peer refused. *)
Lemma accept_le_on_full_list_example :
  let full :=
    state_of (accept_le_connection_from example_identity true
                (state_of (accept_le_connection_from example_A true
                             (Acl_new example_interface 2 5)))) in
  let r := accept_le_connection_from example_rpa true full in
  ShadowAcceptlist_IsFull (shadow_acceptlist_ full) = true
  /\ state_of r = full
  /\ promise_values (trace_of r) = [false]
  /\ lower_calls (trace_of r) = [].
Proof.
  cbn zeta.
  assert (Hfull :
            ShadowAcceptlist_IsFull
              (shadow_acceptlist_
                 (state_of (accept_le_connection_from example_identity true
                    (state_of (accept_le_connection_from example_A true
                                 (Acl_new example_interface 2 5))))))
            = true) by (vm_compute; reflexivity).
  split; [exact Hfull|].
  pose proof (accept_le_resolves_by_capacity
                (state_of (accept_le_connection_from example_identity true
                   (state_of (accept_le_connection_from example_A true
                                (Acl_new example_interface 2 5)))))
                example_rpa true) as H.
  cbn zeta in H. rewrite Hfull in H. exact (proj2 H).
Defined.

(** C8 on scenario S6: handle 0x0123 and the payload AA BB CC DD EE. *)
Lemma data_ready_posts_preamble_and_payload_witness :
  posts (trace_of (data_ready_callback true example_link))
  = [send_data_upwards
       (MkBT_HDR [0x23; 0x01; 0x05; 0x00; 0xaa; 0xbb; 0xcc; 0xdd; 0xee])].
Proof.
  refine (proj1 (proj2 (data_ready_posts_preamble_and_payload
                          example_link [0xaa; 0xbb; 0xcc; 0xdd; 0xee] [] true
                          _ _ _))).
  - reflexivity.
  - reflexivity.
  - cbn. lia.
Defined.

(** C8 with the length bytes L & 0xff and L >> 8 fails on a packet of
    65541 bytes: the code keeps the length as a 16-bit value, so the
    length bytes of the buffer are 05 00, while L >> 8 is 256. *)
Lemma length_beyond_16_bits_is_truncated :
  Z.of_nat (length example_long_packet) = 65541
  /\ Z.shiftr 65541 8 = 256
  /\ posts (trace_of (data_ready_callback true
                        example_link_with_long_packet))
     = [send_data_upwards
          (MkBT_HDR ([0x23; 0x01; 0x05; 0x00] ++ example_long_packet))]
  /\ posts (trace_of (data_ready_callback true
                        example_link_with_long_packet))
     <> [send_data_upwards
           (MkBT_HDR ([Z.land 0x0123 0xff; Z.shiftr 0x0123 8;
                       Z.land 65541 0xff; Z.shiftr 65541 8]
                      ++ example_long_packet))].
Proof.
  assert (Hlen : Z.of_nat (length example_long_packet) = 65541).
  { unfold example_long_packet. rewrite length_replicate.
    rewrite Z2Nat.id by lia. reflexivity. }
  destruct (data_ready_callback_posts example_link_with_long_packet
              example_long_packet [] true eq_refl eq_refl)
    as (_ & Hposts & _).
  rewrite Hlen in Hposts.
  change (handle_ example_link_with_long_packet) with 0x0123 in Hposts.
  unfold MakeLegacyBtHdrPacket in Hposts.
  replace (LowByte 0x0123) with 0x23 in Hposts by reflexivity.
  replace (HighByte 0x0123) with 0x01 in Hposts by reflexivity.
  replace (LowByte (uint16 65541)) with 0x05 in Hposts by reflexivity.
  replace (HighByte (uint16 65541)) with 0x00 in Hposts by reflexivity.
  split; [exact Hlen|]. split; [reflexivity|]. split; [exact Hposts|].
  rewrite Hposts. generalize example_long_packet. intros payload Heq.
  cbn in Heq. inversion Heq.
Qed.

(** C7, with the assertion, on a link whose latch is set. *)
Lemma calls_on_disconnected_link_witness :
  is_disconnected_ example_disconnected_link = true
  /\ state_of (ShimAclConnection_Disconnect example_disconnected_link)
     = example_disconnected_link
  /\ completed (EnqueuePacket [0xaa] example_disconnected_link) = false.
Proof.
  assert (Hlatch : is_disconnected_ example_disconnected_link = true)
    by reflexivity.
  destruct (calls_on_disconnected_link example_disconnected_link Hlatch)
    as [Hdisconnect Henqueue].
  split; [exact Hlatch|]. split.
  - rewrite Hdisconnect. reflexivity.
  - rewrite (Henqueue [0xaa]). reflexivity.
Defined.

(** C7 for the enqueue fails as an unchanged link: the packet is in the
    outbound queue when the assertion stops the call. *)
Lemma enqueue_on_disconnected_link_changes_queue :
  is_disconnected_ example_disconnected_link = true
  /\ queue_ example_disconnected_link = []
  /\ queue_ (state_of (EnqueuePacket [0xaa] example_disconnected_link))
     = [[0xaa]]
  /\ state_of (EnqueuePacket [0xaa] example_disconnected_link)
     <> example_disconnected_link.
Proof.
  repeat split. intros Heq.
  apply (f_equal queue_) in Heq. vm_compute in Heq. discriminate Heq.
Qed.

(** C6 on a run through all three operations, the last one stopped at the
    empty queue. *)
Lemma enqueue_registration_invariant_witness :
  let c :=
    state_of (run_ops [OpEnqueuePacket [1]; OpEnqueuePacket [2];
                       OpHandleEnqueue; OpDisconnect; OpHandleEnqueue;
                       OpHandleEnqueue]
                (state_of (ShimAclConnection_new 0x0123 true
                             example_queue_end 1000))) in
  (enqueue_registration (queue_up_end_ c) = true <->
   queue_ c <> [] /\ is_disconnected_ c = false)
  /\ is_enqueue_registered_ c = enqueue_registration (queue_up_end_ c).
Proof.
  apply (enqueue_registration_invariant 0x0123 true example_queue_end 1000).
  reflexivity.
Defined.

(** C5, with the test of the code, on scenario S3: page 1 of 2 completes and
    page 2 is requested. *)
Lemma feature_pages_walk_witness :
  requested_pages
    (trace_of (OnReadRemoteExtendedFeaturesComplete 1 2 0 example_classic_link))
  = [2].
Proof.
  refine (proj2 (proj2 (feature_pages_walk example_classic_link)) 1 2 0 _ _);
    lia.
Defined.

(** C5 with the walk of the specification fails for a page above the
    maximum: page 3 of 2 completes and page 4 is requested, where the
    specification requests nothing. *)
Lemma page_above_maximum_is_followed :
  requested_pages
    (trace_of (OnReadRemoteExtendedFeaturesComplete 3 2 0 example_classic_link))
  = [4]
  /\ next_page_in_spec 3 2 0 = []
  /\ requested_pages
       (trace_of (OnReadRemoteExtendedFeaturesComplete
                    3 2 0 example_classic_link))
     <> next_page_in_spec 3 2 0.
Proof.
  repeat split. intros Heq. vm_compute in Heq. discriminate Heq.
Qed.

(** C2 on scenario S2, where the connection completes outside the accept
    list, and on scenario S1, where it is announced. *)
Lemma le_connect_success_cancelled_or_announced_witness :
  (posts (trace_of (OnLeConnectSuccess example_rpa example_raced_connection
                      1000 example_acl)) = []
   /\ lower_calls (trace_of (OnLeConnectSuccess example_rpa
                               example_raced_connection 1000 example_acl))
      = [Call_RegisterDequeue 0x0041; Call_RegisterCallbacks 0x0041;
         Call_Disconnect 0x0041 REMOTE_USER_TERMINATED_CONNECTION])
  /\ posts (trace_of (OnLeConnectSuccess example_A example_le_connection
                        1000 example_acl))
     = [le_on_connected example_A 0x0040 CENTRAL 24 0 400
          (MkAddress 0 0 0 0 0 0) (MkAddress 0 0 0 0 0 0)
          PUBLIC_DEVICE_ADDRESS true].
Proof.
  assert (Hvalid : ValidateAclInterface (acl_interface_ example_acl) = true)
    by reflexivity.
  split.
  - destruct (le_connect_success_cancelled_or_announced
                example_acl example_rpa example_raced_connection 1000
                Hvalid (lookup_empty _)) as (_ & _ & Hcancelled).
    destruct Hcancelled as [Hlower Hposts]. split; assumption.
  - destruct (le_connect_success_cancelled_or_announced
                example_acl example_A example_le_connection 1000
                Hvalid (lookup_empty _)) as (_ & _ & Hannounced).
    exact (proj1 Hannounced).
Defined.

(** C3 on a connection seen under a resolvable private address: the
    identity address was accepted before, and is gone afterwards. *)
Lemma le_connect_success_removes_identity_witness :
  IsRpa example_rpa = true
  /\ ConnectAddressWithType_of example_identity
     ∈ acceptlist_set_ (shadow_acceptlist_ example_acl_accepting)
  /\ ConnectAddressWithType_of example_identity
     ∉ acceptlist_set_
         (shadow_acceptlist_
            (state_of (OnLeConnectSuccess example_rpa example_raced_connection
                         1000 example_acl_accepting))).
Proof.
  split; [reflexivity|]. split.
  - refine (bool_decide_eq_true_1 _ _). vm_compute. reflexivity.
  - assert (Hfresh :
              handle_to_le_connection_map_ example_acl_accepting
              !! le_GetHandle example_raced_connection = None)
      by (vm_compute; reflexivity).
    exact (proj2 (proj2 (proj2 (le_connect_success_removes_identity
                                  example_acl_accepting example_rpa
                                  example_raced_connection 1000 Hfresh)))).
Defined.

(** C1, in the order of the handlers, on the classic link of handle 0x0010
    and on the LE link of scenario S1. *)
Lemma disconnected_event_posts_once_then_pushes_history_witness :
  posted_once_before_history_push 0x0010
    (trace_of (classic_OnDisconnection 0x0010 SUCCESS 2000
                 example_acl_with_classic_link))
  /\ posted_once_before_history_push 0x0040
       (trace_of (le_OnDisconnection 0x0040 SUCCESS 2000
                    example_acl_with_le_link)).
Proof.
  split.
  - assert (Hvalid : ValidateAclInterface
                       (acl_interface_ example_acl_with_classic_link) = true)
      by (vm_compute; reflexivity).
    assert (Hmax : max_size_ (connection_history_
                                example_acl_with_classic_link) <> 0)
      by (vm_compute; discriminate).
    assert (Hat : handle_to_classic_connection_map_
                    example_acl_with_classic_link !! 0x0010
                  = Some example_classic_link)
      by (vm_compute; reflexivity).
    destruct (disconnected_event_posts_once_then_pushes_history
                example_acl_with_classic_link 0x0010 SUCCESS 2000 Hvalid Hmax)
      as [Hclassic _].
    exact (proj1 (proj2 (proj2 (proj2
             (Hclassic example_classic_link Hat eq_refl))))).
  - assert (Hvalid : ValidateAclInterface
                       (acl_interface_ example_acl_with_le_link) = true)
      by (vm_compute; reflexivity).
    assert (Hmax : max_size_ (connection_history_ example_acl_with_le_link)
                   <> 0)
      by (vm_compute; discriminate).
    assert (Hat : handle_to_le_connection_map_ example_acl_with_le_link
                  !! 0x0040
                  = Some (new_le_link example_acl example_le_connection 1000))
      by (vm_compute; reflexivity).
    destruct (disconnected_event_posts_once_then_pushes_history
                example_acl_with_le_link 0x0040 SUCCESS 2000 Hvalid Hmax)
      as [_ Hle].
    exact (proj1 (proj2 (proj2 (proj2 (Hle _ Hat eq_refl))))).
Defined.

(** C1 with the push before the post fails on scenario S1: the handler runs
    to its end and posts [on_disconnected] for handle 0x0040 once, but the
    history entry is pushed after the post, not before it. *)
Lemma on_disconnected_is_posted_before_history_push :
  let r := le_OnDisconnection 0x0040 SUCCESS 2000 example_acl_with_le_link in
  completed r = true
  /\ occurrences (is_on_disconnected_post 0x0040) (trace_of r) = 1%nat
  /\ only_after (is_history_push 0x0040) (is_on_disconnected_post 0x0040)
                (trace_of r) = false
  /\ ~ posted_once_after_history_push 0x0040 (trace_of r).
Proof.
  cbn zeta. split; [vm_compute; reflexivity|].
  split; [vm_compute; reflexivity|].
  split; [vm_compute; reflexivity|].
  intros [_ Horder]. vm_compute in Horder. discriminate Horder.
Qed.

(** * The further properties at concrete inputs *)

(** X1 on a ring of capacity 2 that holds one entry: two pushes evict
    it. *)
Lemma history_ring_keeps_newest_witness :
  fq_queue_ (state_of (FixedQueue_push_all [2; 3]
                         (MkFixedQueue (Z.of_nat 2) [1])))
  = [2; 3].
Proof.
  exact (proj1 (proj2 (proj2 (proj2
           (history_ring_keeps_newest 2 [1] [2; 3]
              ltac:(lia) ltac:(cbn; lia)))))).
Defined.

(** X2 on the accept list of capacity 1 that holds A. *)
Lemma shadow_lists_stay_within_capacity_witness :
  acceptlist_size example_full_acceptlist <= 1
  /\ acceptlist_size
       (state_of (run_acceptlist_ops
                    [ShadowAdd example_rpa; ShadowRemove example_A;
                     ShadowAdd example_rpa; ShadowAdd example_identity;
                     ShadowClear; ShadowAdd example_A]
                    example_full_acceptlist))
     <= 1.
Proof.
  assert (H : acceptlist_size example_full_acceptlist
              <= max_acceptlist_size_ example_full_acceptlist)
    by (vm_compute; discriminate).
  split; [exact H|].
  exact (proj2 (proj2 (proj1 (shadow_lists_stay_within_capacity _) _ H))).
Defined.

(** X3 on the lists of capacity 5 that hold A. *)
Lemma remove_then_add_of_member_restores_witness :
  state_of (ShadowAcceptlist_remove_add example_A example_acceptlist_with_A)
  = example_acceptlist_with_A
  /\ state_of (ShadowAddressResolutionList_remove_add
                 example_A example_resolution_list_with_A)
     = example_resolution_list_with_A.
Proof.
  split.
  - refine (proj2 (proj2 (proj1 remove_then_add_of_member_restores
                            example_acceptlist_with_A example_A _ _))).
    + vm_compute. discriminate.
    + unfold example_acceptlist_with_A. cbn [acceptlist_set_].
      apply elem_of_singleton_2. reflexivity.
  - refine (proj2 (proj2 (proj2 remove_then_add_of_member_restores
                            example_resolution_list_with_A example_A _ _))).
    + vm_compute. discriminate.
    + unfold example_resolution_list_with_A.
      cbn [address_resolution_set_].
      apply elem_of_singleton_2. reflexivity.
Defined.

(** X4 on the new manager, whose accept list is empty. *)
Lemma accept_then_ignore_restores_witness :
  state_of (accept_then_ignore example_A true example_acl) = example_acl
  /\ lower_calls (trace_of (accept_then_ignore example_A true example_acl))
     = [Call_CreateLeConnection example_A true;
        Call_CancelLeConnect example_A].
Proof.
  pose proof (proj2 (accept_then_ignore_restores example_acl example_A true
                       ltac:(apply not_elem_of_empty))
                eq_refl) as H.
  cbn zeta in H.
  split; [exact (proj1 (proj2 H))|exact (proj2 (proj2 (proj2 (proj2 H))))].
Defined.

(** X5 on the manager that holds the classic link of handle 0x0010: the
    connect-success event for that handle comes a second time. *)
Lemma connect_success_on_registered_handle_stops_witness :
  completed (OnConnectSuccess example_classic_connection 700
               example_acl_with_classic_link) = false
  /\ state_of (OnConnectSuccess example_classic_connection 700
                 example_acl_with_classic_link)
     = example_acl_with_classic_link.
Proof.
  assert (H : is_Some (handle_to_classic_connection_map_
                         example_acl_with_classic_link
                       !! classic_GetHandle example_classic_connection))
    by (eexists; vm_compute; reflexivity).
  rewrite (proj1 (connect_success_on_registered_handle_stops
                    example_acl_with_classic_link 700)
             example_classic_connection H).
  split; reflexivity.
Defined.

(** X6: three packets enqueued on the link of scenario S6, two taken. *)
Lemma outbound_queue_is_fifo_witness :
  value_of (enqueue_all_then_drain [[1]; [2]; [3]] 2 example_link)
  = Some [[1]; [2]]
  /\ queue_ (state_of (enqueue_all_then_drain [[1]; [2]; [3]] 2
                         example_link))
     = [[3]].
Proof.
  exact (proj2 (outbound_queue_is_fifo example_link) [[1]; [2]; [3]] 2%nat
           eq_refl ltac:(cbn; lia)).
Defined.

(** X7 on the link of scenario S6, disconnected and then used. *)
Lemma disconnected_link_never_calls_lower_queue_witness :
  lower_calls
    (trace_of (run_ops [OpDisconnect; OpEnqueuePacket [1]; OpHandleEnqueue]
                 (state_of (ShimAclConnection_Disconnect example_link))))
  = []
  /\ is_disconnected_
       (state_of
          (run_ops [OpDisconnect; OpEnqueuePacket [1]; OpHandleEnqueue]
             (state_of (ShimAclConnection_Disconnect example_link))))
     = true.
Proof.
  pose proof (disconnected_link_never_calls_lower_queue example_link
                [OpDisconnect; OpEnqueuePacket [1]; OpHandleEnqueue] eq_refl)
    as H.
  cbn zeta in H.
  split; [exact (proj1 (proj2 (proj2 H)))|exact (proj1 (proj2 H))].
Defined.

(** X8 on the link of scenario S6: handle 0x0123, five bytes waiting. *)
Lemma data_ready_buffer_witness :
  posts (trace_of (data_ready_callback true example_link))
  = [send_data_upwards
       (MakeLegacyBtHdrPacket [0xaa; 0xbb; 0xcc; 0xdd; 0xee]
                              [0x23; 0x01; 0x05; 0x00])]
  /\ inbound (queue_up_end_ (state_of (data_ready_callback true
                                         example_link)))
     = [].
Proof.
  pose proof (proj2 (data_ready_buffer example_link true)
                [0xaa; 0xbb; 0xcc; 0xdd; 0xee] [] eq_refl) as H.
  cbn zeta in H.
  split; [exact (proj1 (proj2 (proj2 (proj2 H))))|exact (proj1 (proj2 H))].
Defined.

(** X9 on the resolvable private address of the examples, whose sixth
    byte is 0x4a. *)
Lemma IsRpa_range_witness :
  GetAddressType example_rpa = RANDOM_DEVICE_ADDRESS
  /\ 0x40 <= a5 (GetAddress example_rpa) <= 0x7f.
Proof.
  exact (proj1 (IsRpa_range example_rpa ltac:(cbn; lia)) eq_refl).
Defined.

(** X10 on a run that accepts A, sees its connection and a classic one
    come up, writes to both and to an unknown handle, and sees both
    disconnected. *)
Lemma manager_tables_stay_in_order_witness :
  ValidateAclInterface example_interface = true
  /\ Z.of_nat
       (length
          (fq_queue_
             (connection_history_
                (state_of
                   (run_events
                      [EvAcceptLe example_A true;
                       EvLeConnectSuccess example_A example_le_connection
                                          1000;
                       EvConnectSuccess example_classic_connection 1500;
                       EvWriteData 0x0040 [1; 2];
                       EvWriteData 0x0010 [3];
                       EvWriteData 0x0999 [4];
                       EvClassicEnqueueReady 0x0010;
                       EvLeDisconnection 0x0040 SUCCESS 2000;
                       EvClassicDisconnection 0x0010 SUCCESS 2500]
                      (Acl_new example_interface 5 5))))))
     <= 40.
Proof.
  split; [reflexivity|].
  exact (proj1 (proj2 (manager_tables_stay_in_order example_interface 5 5 _
                         eq_refl))).
Defined.

(** X11 on the manager that holds the classic link of handle 0x0010. *)
Lemma write_data_reaches_the_link_of_the_handle_witness :
  Acl_ok example_acl_with_classic_link
  /\ match handle_to_classic_connection_map_ example_acl_with_classic_link
           !! 0x0010 with
     | Some link =>
         exists base,
           write_data_sync 0x0010 [1; 2] example_acl_with_classic_link
           = Done tt
               (set_handle_to_classic_connection_map_
                  (<[0x0010 := set_classic_base base link]>
                     (handle_to_classic_connection_map_
                        example_acl_with_classic_link))
                  example_acl_with_classic_link)
               (if is_enqueue_registered_ (classic_base link) then []
                else [Lower (Call_RegisterEnqueue 0x0010)])
           /\ queue_ base = queue_ (classic_base link) ++ [[1; 2]]
           /\ is_enqueue_registered_ base = true
           /\ handle_ base = 0x0010
           /\ is_disconnected_ base = false
     | None => False
     end.
Proof.
  assert (Hok : Acl_ok example_acl_with_classic_link).
  { unfold example_acl_with_classic_link, example_acl.
    apply keeps_OnConnectSuccess, Acl_new_ok. reflexivity. }
  split; [exact Hok|].
  pose proof (write_data_reaches_the_link_of_the_handle
                example_acl_with_classic_link 0x0010 [1; 2] Hok) as H.
  destruct (handle_to_classic_connection_map_ example_acl_with_classic_link
            !! 0x0010) as [link|] eqn:Hat.
  - exact H.
  - vm_compute in Hat. discriminate Hat.
Defined.

(** X12 on the link of scenario S6, which is not disconnected. *)
Lemma shutdown_makes_destruction_safe_witness :
  is_disconnected_ example_link = false
  /\ exists t,
       ShimAclConnection_delete example_link
       = Stopped
           (AssertFailed
              "Shim Acl was not properly disconnected handle:0x%04x"
              [ArgNum (handle_ example_link)]) example_link t.
Proof.
  split; [reflexivity|].
  exact (proj2 (shutdown_makes_destruction_safe example_link) eq_refl).
Defined.



(** X17 on the new manager: A is accepted and the attempt fails. *)
Lemma le_connect_fail_releases_accept_entry_witness :
  gstate_of (accept_then_fail example_A true (OtherErrorCode 0x3e)
               example_acl)
  = example_acl.
Proof.
  exact (proj1 (proj2
           (proj2 (le_connect_fail_releases_accept_entry example_acl
                     example_A true (OtherErrorCode 0x3e))
              ltac:(apply not_elem_of_empty) eq_refl))).
Defined.

(** X15 on a manager whose resolving list has capacity 1: the second add
    finds the list full and is not passed down. *)
Lemma shadow_resolution_list_mirrors_lower_calls_witness :
  manager_calls
    (gtrace_of
       (run_resolution_requests
          [ReqAdd example_A [1] [2]; ReqAdd example_rpa [3] [4];
           ReqRemove example_A; ReqAdd example_rpa [3] [4]; ReqClear]
          (Acl_new example_interface 5 1)))
  = [Call_AddDeviceToResolvingList example_A [1] [2];
     Call_RemoveDeviceFromResolvingList example_A;
     Call_AddDeviceToResolvingList example_rpa [3] [4];
     Call_ClearResolvingList].
Proof.
  destruct (shadow_resolution_list_mirrors_lower_calls
              [ReqAdd example_A [1] [2]; ReqAdd example_rpa [3] [4];
               ReqRemove example_A; ReqAdd example_rpa [3] [4]; ReqClear]
              (Acl_new example_interface 5 1))
    as (l & t & Hrun & Hcalls & _).
  rewrite Hrun. cbn [gtrace_of]. rewrite Hcalls.
  vm_compute. reflexivity.
Defined.
